(** * CloudView: the multi-source resource aggregation engine

    A shallow embedding of the Go packages [pkg/models], [pkg/types],
    [pkg/config], [pkg/providers] and [pkg/providers/aws], and the
    properties of the filter predicates, the kind and health tables, the
    region fallback chain, the provider registry and the fan-out/fan-in of
    [AWSProvider.GetResources].

    Conventions.
    - A Go [string] is a [string]; a slice is a [list]; [len(s) > 0] on a
      slice is [0 <? length s] (a nil slice and an empty slice both have
      length 0 and are both the empty list).
    - A Go [map[string]V] is a [gmap string V]; a map field that the code
      tests against [nil] is an [option (gmap string V)], [None] being nil.
    - A [time.Time] is the instant it denotes, an integer count of
      nanoseconds; [t.Before(u)] is [t <? u] and [t.After(u)] is [u <? t].
    - A Go [(value, error)] result is a [result]: [Ok v] is [(v, nil)],
      [Error msg] is [(zero, err)] with [err.Error() = msg]. *)

From Stdlib Require Import ZArith Lia Permutation.
From stdpp Require Import base tactics option strings list gmap fin_maps sorting relations.

Open Scope Z_scope.

(** ** Go values shared by all packages *)

Abbreviation Time := Z (only parsing).

Inductive result (A : Type) : Type :=
  | Ok (v : A)
  | Error (msg : string).
Arguments Ok {A} v.
Arguments Error {A} msg.

(** [fmt.Errorf(prefix + ": %w", err)] keeps the wrapped message after the
    prefix. *)
Definition wrap_error (prefix msg : string) : string :=
  prefix +:+ ": " +:+ msg.

(** The one function of Go's [strings] package that the filter predicates
    call, [strings.EqualFold] (equality under Unicode simple case folding).
    It belongs to the Go standard library, not to this repository, and is
    taken as a parameter: every statement below holds for any
    implementation of it. *)
Class GoStrings := { EqualFold : string → string → bool }.

(** A fold of the ASCII letters only, which is what [strings.EqualFold]
    computes on two ASCII strings; used to run the predicates on examples. *)
Definition ascii_lower (c : Ascii.ascii) : Ascii.ascii :=
  let n := Ascii.N_of_ascii c in
  if ((65 <=? n) && (n <=? 90))%N then Ascii.ascii_of_N (n + 32) else c.

Fixpoint ascii_EqualFold (s t : string) : bool :=
  match s, t with
  | EmptyString, EmptyString => true
  | String a s', String b t' =>
      Ascii.eqb (ascii_lower a) (ascii_lower b) && ascii_EqualFold s' t'
  | _, _ => false
  end.

Definition AsciiStrings : GoStrings := {| EqualFold := ascii_EqualFold |}.

(** [strings.ToLower] of the Go standard library, used by
    [mapDBStatusToHealth]; a parameter like [EqualFold], with the lowering of
    the ASCII letters to run examples. *)
Class GoStringsCase := { ToLower : string → string }.

Fixpoint ascii_ToLower (s : string) : string :=
  match s with
  | EmptyString => EmptyString
  | String c s' => String (ascii_lower c) (ascii_ToLower s')
  end.

Definition AsciiCase : GoStringsCase := {| ToLower := ascii_ToLower |}.

(** ** Package [models] (pkg/models/resource.go, pkg/models/common.go) *)
Module models.

Record ResourceStatus := {
  State : string;
  Health : string;
  LastChecked : Time
}.

(** [Daily] and [Monthly] are [float64] in the source; they are carried as
    their 64-bit patterns and never inspected. *)
Record ResourceCost := {
  Daily : Z;
  Monthly : Z;
  Currency : string
}.

(** The dynamically typed values stored under [Metadata]; the collectors
    store strings, booleans, integers, string slices and nested maps, and no
    code below reads them back. *)
Inductive MetaValue :=
  | MetaString (s : string)
  | MetaBool (b : bool)
  | MetaInt (n : Z)
  | MetaStrings (l : list string)
  | MetaNested (fields : list (string * string)).

(** The field [Type] of the source is spelled [Type_] here. *)
Record Resource := {
  ID : string;
  Name : string;
  Type_ : string;
  Provider : string;
  Region : string;
  Status : ResourceStatus;
  Tags : option (gmap string string);
  CreatedAt : Time;
  UpdatedAt : Time;
  Metadata : option (gmap string MetaValue);
  Cost : option ResourceCost
}.

(** [type ResourceType string] and its constants. *)
Abbreviation ResourceType := string (only parsing).

Definition ResourceTypeVirtualMachine : ResourceType := "virtual_machine".
Definition ResourceTypeContainer : ResourceType := "container".
Definition ResourceTypeFunction : ResourceType := "function".
Definition ResourceTypeCluster : ResourceType := "cluster".
Definition ResourceTypeObjectStorage : ResourceType := "object_storage".
Definition ResourceTypeBlockStorage : ResourceType := "block_storage".
Definition ResourceTypeFileStorage : ResourceType := "file_storage".
Definition ResourceTypeDatabase : ResourceType := "database".
Definition ResourceTypeVPC : ResourceType := "vpc".
Definition ResourceTypeSubnet : ResourceType := "subnet".
Definition ResourceTypeLoadBalancer : ResourceType := "load_balancer".
Definition ResourceTypeSecurityGroup : ResourceType := "security_group".
Definition ResourceTypeGateway : ResourceType := "gateway".
Definition ResourceTypeUser : ResourceType := "user".
Definition ResourceTypeRole : ResourceType := "role".
Definition ResourceTypePolicy : ResourceType := "policy".
Definition ResourceTypeSecret : ResourceType := "secret".
Definition ResourceTypeMetric : ResourceType := "metric".
Definition ResourceTypeAlarm : ResourceType := "alarm".
Definition ResourceTypeDashboard : ResourceType := "dashboard".
Definition ResourceTypeUnknown : ResourceType := "unknown".

(** The fixed enumeration of kinds, in the order of the [const] block. *)
Definition resource_types : list ResourceType :=
  [ ResourceTypeVirtualMachine; ResourceTypeContainer; ResourceTypeFunction;
    ResourceTypeCluster; ResourceTypeObjectStorage; ResourceTypeBlockStorage;
    ResourceTypeFileStorage; ResourceTypeDatabase; ResourceTypeVPC;
    ResourceTypeSubnet; ResourceTypeLoadBalancer; ResourceTypeSecurityGroup;
    ResourceTypeGateway; ResourceTypeUser; ResourceTypeRole;
    ResourceTypePolicy; ResourceTypeSecret; ResourceTypeMetric;
    ResourceTypeAlarm; ResourceTypeDashboard; ResourceTypeUnknown ].

Definition StateUnknown : string := "unknown".

Definition HealthHealthy : string := "healthy".
Definition HealthUnhealthy : string := "unhealthy".
Definition HealthWarning : string := "warning".
Definition HealthUnknown : string := "unknown".

(** One [case l1, l2, ...:] of a [switch] on a string: the tag equals one
    of the labels. *)
Definition case_of (s : string) (labels : list string) : bool :=
  existsb (String.eqb s) labels.

(** The label lists of [GetResourceTypeFromString], one per [case], each
    with the kind it returns, in source order. *)
Definition kind_cases : list (list string * ResourceType) :=
  [ (["virtual_machine"; "vm"; "ec2"; "compute_engine"; "virtual_machines"],
      ResourceTypeVirtualMachine);
    (["container"; "containers"; "ecs"; "gke"; "aci"], ResourceTypeContainer);
    (["function"; "functions"; "lambda"; "cloud_functions"; "azure_functions"],
      ResourceTypeFunction);
    (["cluster"; "clusters"; "eks"; "gke_cluster"; "aks"], ResourceTypeCluster);
    (["object_storage"; "s3"; "gcs"; "blob_storage"], ResourceTypeObjectStorage);
    (["block_storage"; "ebs"; "persistent_disk"; "managed_disk"],
      ResourceTypeBlockStorage);
    (["file_storage"; "efs"; "filestore"; "azure_files"], ResourceTypeFileStorage);
    (["database"; "databases"; "rds"; "cloud_sql"; "cosmos_db"],
      ResourceTypeDatabase);
    (["vpc"; "network"; "vnet"], ResourceTypeVPC);
    (["subnet"; "subnets"], ResourceTypeSubnet);
    (["load_balancer"; "lb"; "elb"; "alb"; "nlb"], ResourceTypeLoadBalancer);
    (["security_group"; "firewall"; "nsg"], ResourceTypeSecurityGroup);
    (["gateway"; "nat_gateway"; "internet_gateway"], ResourceTypeGateway);
    (["user"; "users"], ResourceTypeUser);
    (["role"; "roles"], ResourceTypeRole);
    (["policy"; "policies"], ResourceTypePolicy);
    (["secret"; "secrets"], ResourceTypeSecret);
    (["metric"; "metrics"], ResourceTypeMetric);
    (["alarm"; "alarms"; "alert"], ResourceTypeAlarm);
    (["dashboard"; "dashboards"], ResourceTypeDashboard) ].

(** A [switch] runs the first [case] one of whose labels equals the tag,
    and the [default] when there is none. *)
Fixpoint switch_string {A} (s : string) (cases : list (list string * A))
    (default : A) : A :=
  match cases with
  | [] => default
  | (labels, v) :: rest =>
      if case_of s labels then v else switch_string s rest default
  end.

Definition GetResourceTypeFromString (s : string) : ResourceType :=
  switch_string s kind_cases ResourceTypeUnknown.

(** [NewResource]; [now] is the reading of [time.Now()]. *)
Definition NewResource (now : Time) (id name resourceType provider region : string)
    : Resource :=
  {| ID := id; Name := name; Type_ := resourceType; Provider := provider;
     Region := region;
     Status := {| State := StateUnknown; Health := HealthUnknown;
                  LastChecked := now |};
     Tags := Some ∅;
     CreatedAt := now; UpdatedAt := now;
     Metadata := Some ∅;
     Cost := None |}.

Definition SetTag (r : Resource) (key value : string) : Resource :=
  let tags := match Tags r with None => ∅ | Some m => m end in
  {| ID := ID r; Name := Name r; Type_ := Type_ r; Provider := Provider r;
     Region := Region r; Status := Status r;
     Tags := Some (<[key := value]> tags);
     CreatedAt := CreatedAt r; UpdatedAt := UpdatedAt r;
     Metadata := Metadata r; Cost := Cost r |}.

(** [GetTag] returns the value and whether the key exists. *)
Definition GetTag (r : Resource) (key : string) : string * bool :=
  match Tags r with
  | None => ("", false)
  | Some tags =>
      match tags !! key with
      | Some value => (value, true)
      | None => ("", false)
      end
  end.

(** [UpdateStatus]; [now1] and [now2] are its two readings of
    [time.Now()]. *)
Definition UpdateStatus (now1 now2 : Time) (r : Resource) (state health : string)
    : Resource :=
  {| ID := ID r; Name := Name r; Type_ := Type_ r; Provider := Provider r;
     Region := Region r;
     Status := {| State := state; Health := health; LastChecked := now1 |};
     Tags := Tags r;
     CreatedAt := CreatedAt r; UpdatedAt := now2;
     Metadata := Metadata r; Cost := Cost r |}.

(** [type ResourceState string] and its constants. *)
Definition StateRunning : string := "running".
Definition StateStopped : string := "stopped".
Definition StatePending : string := "pending".
Definition StateTerminated : string := "terminated".
Definition StateError : string := "error".

Definition resource_states : list string :=
  [ StateRunning; StateStopped; StatePending; StateTerminated; StateError;
    StateUnknown ].

Definition state_cases : list (list string * string) :=
  [ (["running"; "active"; "available"; "online"], StateRunning);
    (["stopped"; "inactive"; "offline"], StateStopped);
    (["pending"; "starting"; "creating"; "provisioning"], StatePending);
    (["terminated"; "deleted"; "terminating"], StateTerminated);
    (["error"; "failed"; "unhealthy"], StateError) ].

Definition GetStateFromString (s : string) : string :=
  switch_string s state_cases StateUnknown.

Definition resource_healths : list string :=
  [ HealthHealthy; HealthUnhealthy; HealthWarning; HealthUnknown ].

Definition health_value_cases : list (list string * string) :=
  [ (["healthy"; "ok"; "good"; "passing"], HealthHealthy);
    (["unhealthy"; "bad"; "failing"; "critical"], HealthUnhealthy);
    (["warning"; "degraded"], HealthWarning) ].

Definition GetHealthFromString (s : string) : string :=
  switch_string s health_value_cases HealthUnknown.

Definition SetMetadata (r : Resource) (key : string) (value : MetaValue) : Resource :=
  let metadata := match Metadata r with None => ∅ | Some m => m end in
  {| ID := ID r; Name := Name r; Type_ := Type_ r; Provider := Provider r;
     Region := Region r; Status := Status r; Tags := Tags r;
     CreatedAt := CreatedAt r; UpdatedAt := UpdatedAt r;
     Metadata := Some (<[key := value]> metadata); Cost := Cost r |}.

(** [GetMetadata] returns the value, [None] for the nil interface, and
    whether the key exists. *)
Definition GetMetadata (r : Resource) (key : string) : option MetaValue * bool :=
  match Metadata r with
  | None => (None, false)
  | Some metadata =>
      match metadata !! key with
      | Some value => (Some value, true)
      | None => (None, false)
      end
  end.

End models.

(** ** Package [types] (pkg/types/filters.go) *)
Module types.

(** [CreatedAfter] and [CreatedBefore] are [*time.Time]: [None] is nil. *)
Record ResourceFilters := {
  Regions : list string;
  ResourceTypes : list string;
  Tags : gmap string string;
  Status : list string;
  CreatedAfter : option Time;
  CreatedBefore : option Time
}.

(** The zero value [types.ResourceFilters{}]. *)
Definition empty : ResourceFilters :=
  {| Regions := []; ResourceTypes := []; Tags := ∅; Status := [];
     CreatedAfter := None; CreatedBefore := None |}.

End types.

(** ** Package [config] (AWSConfig and the ProviderConfig interface) *)
Module config.

Record BaseProviderConfig := {
  Enabled : bool;
  Regions : list string
}.

(** [DurationSeconds] is an [int32]. *)
Record AWSConfig := {
  Base : BaseProviderConfig;
  Profile : string;
  Region : string;
  AccessKeyID : string;
  SecretAccessKey : string;
  SessionToken : string;
  RoleARN : string;
  ExternalID : string;
  MFASerial : string;
  DurationSeconds : Z
}.

(** [BaseProviderConfig.GetRegions], promoted to [AWSConfig] by embedding. *)
Definition GetRegions (c : AWSConfig) : list string := Regions (Base c).

Definition IsEnabled (c : AWSConfig) : bool := Enabled (Base c).

(** A value of the interface [ProviderConfig]: an [*AWSConfig], or a value
    of some other implementing type, of which only the provider name is
    kept. The type assertion of [cfg] to a pointer to [AWSConfig] succeeds on the
    first form only. *)
Inductive ProviderConfig :=
  | OfAWSConfig (c : AWSConfig)
  | OfOtherConfig (provider : string).

(** [AWSConfig.Validate] has a pointer receiver and assigns to the fields
    of [c]; it returns the configuration as the call leaves it and the
    error, [None] for nil. *)
Definition with_Region (c : AWSConfig) (region : string) : AWSConfig :=
  {| Base := Base c; Profile := Profile c; Region := region;
     AccessKeyID := AccessKeyID c; SecretAccessKey := SecretAccessKey c;
     SessionToken := SessionToken c; RoleARN := RoleARN c;
     ExternalID := ExternalID c; MFASerial := MFASerial c;
     DurationSeconds := DurationSeconds c |}.

Definition with_Regions (c : AWSConfig) (regions : list string) : AWSConfig :=
  {| Base := {| Enabled := Enabled (Base c); Regions := regions |};
     Profile := Profile c; Region := Region c;
     AccessKeyID := AccessKeyID c; SecretAccessKey := SecretAccessKey c;
     SessionToken := SessionToken c; RoleARN := RoleARN c;
     ExternalID := ExternalID c; MFASerial := MFASerial c;
     DurationSeconds := DurationSeconds c |}.

Definition with_DurationSeconds (c : AWSConfig) (seconds : Z) : AWSConfig :=
  {| Base := Base c; Profile := Profile c; Region := Region c;
     AccessKeyID := AccessKeyID c; SecretAccessKey := SecretAccessKey c;
     SessionToken := SessionToken c; RoleARN := RoleARN c;
     ExternalID := ExternalID c; MFASerial := MFASerial c;
     DurationSeconds := seconds |}.

Definition Validate (c : AWSConfig) : AWSConfig * option string :=
  if negb (Enabled (Base c)) then (c, None)
  else if String.eqb (Region c) "" && (length (Regions (Base c)) =? 0)%nat then
    (c, Some "AWS provider requires at least one region to be specified")
  else
    (* set default region if not specified: [c.Regions[0]], in range here *)
    let c :=
      if String.eqb (Region c) "" && (0 <? length (Regions (Base c)))%nat
      then with_Region c (default "" (head (Regions (Base c)))) else c in
    (* add region to regions list if the list is empty *)
    let c :=
      if negb (String.eqb (Region c) "") && (length (Regions (Base c)) =? 0)%nat
      then with_Regions c [Region c] else c in
    if negb (String.eqb (RoleARN c) "") then
      let c :=
        if DurationSeconds c <=? 0 then with_DurationSeconds c 3600 else c in
      if (DurationSeconds c <? 900) || (43200 <? DurationSeconds c) then
        (c, Some "duration_seconds must be between 900 and 43200 seconds")
      else (c, None)
    else (c, None).

(** [AWSAuthenticator.GetAllRegions] of package [auth], a function of the
    configuration alone. *)
Definition GetAllRegions (c : AWSConfig) : list string :=
  if (0 <? length (Regions (Base c)))%nat then Regions (Base c) else [Region c].

End config.

(** ** The collectors' helpers (pkg/providers/aws/{ec2,s3,rds,iam,vpc}.go) *)

(** [for _, x := range xs { if cond(x) { found = true; break } }] leaves
    [found] equal to [existsb cond xs]. *)
Abbreviation range_found := existsb (only parsing).

(** The region clause shared by [s3], [rds] and [vpc]. *)
Definition region_found (resource : models.Resource) (regions : list string) : bool :=
  range_found (fun region => String.eqb (models.Region resource) region) regions.

(** The tag loop shared by [s3], [rds], [iam] and [vpc]:
    [for key, value := range filters.Tags] returns false from the predicate
    at the first pair with [!exists || resourceValue != value]; the result is
    whether it ran to the end, which does not depend on the order in which
    the runtime ranges over the map. *)
Definition tags_pass (resource : models.Resource) (tags : gmap string string) : bool :=
  forallb
    (fun kv : string * string =>
       let (resourceValue, exists_) := models.GetTag resource kv.1 in
       negb (negb exists_ || negb (String.eqb resourceValue kv.2)))
    (map_to_list tags).

(** [filters.CreatedAfter != nil] and [resource.CreatedAt.Before] of the
    time it points to. *)
Definition created_before_bound (resource : models.Resource) (bound : option Time) : bool :=
  match bound with
  | None => false
  | Some after => models.CreatedAt resource <? after
  end.

(** [filters.CreatedBefore != nil] and [resource.CreatedAt.After] of the
    time it points to. *)
Definition created_after_bound (resource : models.Resource) (bound : option Time) : bool :=
  match bound with
  | None => false
  | Some before => before <? models.CreatedAt resource
  end.

Module ec2.

(** The values of [types.InstanceStateName] in the AWS SDK for Go v2
    (service/ec2/types), which is not part of the repository. *)
Definition InstanceStateNamePending : string := "pending".
Definition InstanceStateNameRunning : string := "running".
Definition InstanceStateNameShuttingDown : string := "shutting-down".
Definition InstanceStateNameTerminated : string := "terminated".
Definition InstanceStateNameStopping : string := "stopping".
Definition InstanceStateNameStopped : string := "stopped".

Definition health_cases : list (list string * string) :=
  [ ([InstanceStateNameRunning], models.HealthHealthy);
    ([InstanceStateNameStopped; InstanceStateNameStopping], models.HealthUnhealthy);
    ([InstanceStateNamePending], models.HealthWarning);
    ([InstanceStateNameTerminated], models.HealthUnhealthy);
    ([InstanceStateNameShuttingDown], models.HealthWarning) ].

Definition mapInstanceHealthToHealth (state : string) : string :=
  models.switch_string state health_cases models.HealthUnknown.

Definition matchesFilters `{GoStrings} (resource : models.Resource)
    (filters : types.ResourceFilters) : bool :=
  if (0 <? length (types.ResourceTypes filters))%nat
     && negb (range_found
                (fun rt => EqualFold rt "ec2" || EqualFold rt "instance"
                           || EqualFold rt "virtual_machine")
                (types.ResourceTypes filters))
  then false
  else if created_before_bound resource (types.CreatedAfter filters) then false
  else if created_after_bound resource (types.CreatedBefore filters) then false
  else true.

Definition getRegionsToQuery (cfg : config.AWSConfig) (filterRegions : list string)
    : list string :=
  if (0 <? length filterRegions)%nat then filterRegions
  else
    let configRegions := config.GetRegions cfg in
    if (0 <? length configRegions)%nat then configRegions
    else if negb (String.eqb (config.Region cfg) "") then [config.Region cfg]
    else ["us-east-1"].

(** [types.Filter] of the SDK: a filter name and the values it admits. *)
Record Filter := {
  FilterName : string;
  Values : list string
}.

(** [buildEC2Filters]; the tag filters come in the order in which the
    runtime ranges over [filters.Tags]. *)
Definition buildEC2Filters (filters : types.ResourceFilters) : list Filter :=
  (if (0 <? length (types.Status filters))%nat
   then [ {| FilterName := "instance-state-name"; Values := types.Status filters |} ]
   else [])
  ++ map (fun kv : string * string =>
            {| FilterName := "tag:" +:+ kv.1; Values := [kv.2] |})
       (map_to_list (types.Tags filters)).

(** What the paginator of [DescribeInstances] yields for a region and the
    API filters: the pages in order, a page being an error or its
    instances, each already turned into a resource by
    [convertInstanceToResource]. *)
Abbreviation DescribeInstancesPages :=
  (string → list Filter → list (result (list models.Resource))) (only parsing).

(** The loop of [getInstancesInRegion] over the pages, [instances] being
    the slice built so far: the first page that fails ends the call with
    its error, and the instances of the pages before it are dropped. *)
Fixpoint instances_of_pages `{GoStrings} (region : string)
    (filters : types.ResourceFilters)
    (pages : list (result (list models.Resource)))
    (instances : list models.Resource) : result (list models.Resource) :=
  match pages with
  | [] => Ok instances
  | Error err :: _ =>
      Error (wrap_error ("failed to describe instances in region " +:+ region) err)
  | Ok page :: pages =>
      instances_of_pages region filters pages
        (instances ++ List.filter (fun r => matchesFilters r filters) page)
  end.

Definition getInstancesInRegion `{GoStrings} (api : DescribeInstancesPages)
    (region : string) (filters : types.ResourceFilters)
    : result (list models.Resource) :=
  instances_of_pages region filters (api region (buildEC2Filters filters)) [].

(** [GetInstances]: a region whose call fails is logged and skipped. *)
Definition GetInstances `{GoStrings} (api : DescribeInstancesPages)
    (cfg : config.AWSConfig) (filters : types.ResourceFilters)
    : result (list models.Resource) :=
  Ok (foldl
        (fun allInstances region =>
           match getInstancesInRegion api region filters with
           | Error _ => allInstances
           | Ok instances => allInstances ++ instances
           end)
        [] (getRegionsToQuery cfg (types.Regions filters))).

End ec2.

Module s3.

Definition matchesFilters `{GoStrings} (resource : models.Resource)
    (filters : types.ResourceFilters) : bool :=
  if (0 <? length (types.ResourceTypes filters))%nat
     && negb (range_found
                (fun rt => EqualFold rt "s3" || EqualFold rt "bucket"
                           || EqualFold rt "object_storage")
                (types.ResourceTypes filters))
  then false
  else if (0 <? length (types.Regions filters))%nat
          && negb (region_found resource (types.Regions filters))
  then false
  else if negb (tags_pass resource (types.Tags filters)) then false
  else if created_before_bound resource (types.CreatedAfter filters) then false
  else if created_after_bound resource (types.CreatedBefore filters) then false
  else true.

End s3.

Module rds.

Definition matchesFilters `{GoStrings} (resource : models.Resource)
    (filters : types.ResourceFilters) : bool :=
  if (0 <? length (types.ResourceTypes filters))%nat
     && negb (range_found
                (fun rt => EqualFold rt "rds" || EqualFold rt "rds_instance"
                           || EqualFold rt "rds_cluster" || EqualFold rt "database"
                           || EqualFold rt "postgres" || EqualFold rt "postgresql"
                           || EqualFold rt "mysql")
                (types.ResourceTypes filters))
  then false
  else if (0 <? length (types.Regions filters))%nat
          && negb (region_found resource (types.Regions filters))
  then false
  else if negb (tags_pass resource (types.Tags filters)) then false
  else if created_before_bound resource (types.CreatedAfter filters) then false
  else if created_after_bound resource (types.CreatedBefore filters) then false
  else true.

Definition getRegionsToQuery (cfg : config.AWSConfig) (filterRegions : list string)
    : list string :=
  if (0 <? length filterRegions)%nat then filterRegions
  else
    let configRegions := config.GetRegions cfg in
    if (0 <? length configRegions)%nat then configRegions
    else if negb (String.eqb (config.Region cfg) "") then [config.Region cfg]
    else ["us-east-1"].

Definition status_health_cases : list (list string * string) :=
  [ (["available"], models.HealthHealthy);
    (["creating"; "starting"; "rebooting"; "upgrading";
      "configuring-enhanced-monitoring"], models.HealthWarning);
    (["stopped"; "stopping"; "failed"; "storage-full"; "incompatible-network";
      "incompatible-restore"], models.HealthUnhealthy) ].

Definition mapDBStatusToHealth `{GoStringsCase} (status : string) : string :=
  models.switch_string (ToLower status) status_health_cases models.HealthUnknown.

End rds.

Module iam.

Definition matchesFilters `{GoStrings} (resource : models.Resource)
    (filters : types.ResourceFilters) : bool :=
  if (0 <? length (types.ResourceTypes filters))%nat
     && negb (range_found
                (fun rt => EqualFold rt "iam" || EqualFold rt "iam_user"
                           || EqualFold rt "iam_role" || EqualFold rt "iam_policy"
                           || EqualFold rt "user" || EqualFold rt "role"
                           || EqualFold rt "policy")
                (types.ResourceTypes filters))
  then false
  else if negb (tags_pass resource (types.Tags filters)) then false
  else if created_before_bound resource (types.CreatedAfter filters) then false
  else if created_after_bound resource (types.CreatedBefore filters) then false
  else true.

End iam.

Module vpc.

Definition matchesFilters `{GoStrings} (resource : models.Resource)
    (filters : types.ResourceFilters) : bool :=
  if (0 <? length (types.ResourceTypes filters))%nat
     && negb (range_found
                (fun rt => EqualFold rt "vpc" || EqualFold rt "network"
                           || EqualFold rt "security_group" || EqualFold rt "firewall")
                (types.ResourceTypes filters))
  then false
  else if (0 <? length (types.Regions filters))%nat
          && negb (region_found resource (types.Regions filters))
  then false
  else if negb (tags_pass resource (types.Tags filters)) then false
  else true.

Definition getRegionsToQuery (cfg : config.AWSConfig) (filterRegions : list string)
    : list string :=
  if (0 <? length filterRegions)%nat then filterRegions
  else
    let configRegions := config.GetRegions cfg in
    if (0 <? length configRegions)%nat then configRegions
    else if negb (String.eqb (config.Region cfg) "") then [config.Region cfg]
    else ["us-east-1"].

(** The values of [types.VpcState] in the AWS SDK for Go v2. *)
Definition VpcStatePending : string := "pending".
Definition VpcStateAvailable : string := "available".

Definition state_health_cases : list (list string * string) :=
  [ ([VpcStateAvailable], models.HealthHealthy);
    ([VpcStatePending], models.HealthWarning) ].

Definition mapVPCStateToHealth (state : string) : string :=
  models.switch_string state state_health_cases models.HealthUnknown.

End vpc.

(** ** Package [aws]: the provider (pkg/providers/aws/aws.go) *)
Module aws.

(** The nine collector methods that [GetResources] runs, named after the
    methods: [ec2Service.GetInstances], [s3Service.GetBuckets],
    [rdsService.GetDatabases], [rdsService.GetClusters],
    [iamService.GetUsers], [iamService.GetRoles], [iamService.GetPolicies],
    [vpcService.GetVPCs], [vpcService.GetSecurityGroups]. *)
Inductive Collector :=
  | GetInstances | GetBuckets | GetDatabases | GetClusters
  | GetUsers | GetRoles | GetPolicies | GetVPCs | GetSecurityGroups.

(** The service clients built by [initializeServices]. Every method of
    theirs that the provider calls goes through the SDK to the remote
    account; a method is represented by what that call returns. *)
Record Services := {
  run : Collector → types.ResourceFilters → result (list models.Resource);
  GetInstanceStatus : string → result models.ResourceStatus;
  GetBucketStatus : string → result models.ResourceStatus
}.

(** A call that leaves the provider for a service client. *)
Inductive Call :=
  | CollectorCall (c : Collector)
  | InstanceStatusCall (resourceID : string)
  | BucketStatusCall (resourceID : string).

(** [services] is [None] while the five service pointers are nil. *)
Record AWSProvider := {
  config : config.AWSConfig;
  services : option Services;
  authenticated : bool
}.

(** [NewAWSProvider]; [None] is a nil [cfg]. *)
Definition NewAWSProvider (cfg : option config.AWSConfig) : result AWSProvider :=
  match cfg with
  | None => Error "AWS configuration cannot be nil"
  | Some cfg => Ok {| config := cfg; services := None; authenticated := false |}
  end.

Definition Name (p : AWSProvider) : string := "aws".

Definition IsAuthenticated (p : AWSProvider) : bool := authenticated p.

(** What the two calls of the authenticator return for a configuration:
    [Authenticate] yields the SDK configuration, represented by the service
    clients that [initializeServices] builds from it, and
    [ValidateCredentials] yields the caller identity (ARN and account). *)
Record Authenticator := {
  authenticator_Authenticate : config.AWSConfig → result Services;
  authenticator_ValidateCredentials : config.AWSConfig → result (string * string)
}.

(** [Authenticate] returns the provider as the call leaves it and the
    error, [None] for nil. *)
Definition Authenticate (a : Authenticator) (p : AWSProvider)
    (cfg : config.ProviderConfig) : AWSProvider * option string :=
  match cfg with
  | config.OfOtherConfig _ =>
      (p, Some "invalid configuration type, expected *config.AWSConfig")
  | config.OfAWSConfig awsConfig =>
      match authenticator_Authenticate a awsConfig with
      | Error err =>
          ({| config := awsConfig; services := services p; authenticated := false |},
           Some (wrap_error "AWS authentication failed" err))
      | Ok awsCfg =>
          (* [p.authenticated = true], then [initializeServices], which
             always returns nil *)
          match authenticator_ValidateCredentials a awsConfig with
          | Error err =>
              ({| config := awsConfig; services := Some awsCfg;
                  authenticated := false |},
               Some (wrap_error "AWS credential validation failed" err))
          | Ok caller =>
              ({| config := awsConfig; services := Some awsCfg;
                  authenticated := true |}, None)
          end
      end
  end.

(** *** [GetResources]: fan-out over nine goroutines, fan-in by [select] *)

(** The goroutines in the order of their [go] statements. *)
Definition goroutines : list Collector :=
  [ GetInstances; GetBuckets; GetDatabases; GetClusters; GetUsers; GetRoles;
    GetPolicies; GetVPCs; GetSecurityGroups ].

(** The prefix that a goroutine puts before its collector's error. *)
Definition failure_prefix (c : Collector) : string :=
  match c with
  | GetInstances => "failed to get EC2 instances"
  | GetBuckets => "failed to get S3 buckets"
  | GetDatabases => "failed to get RDS databases"
  | GetClusters => "failed to get RDS clusters"
  | GetUsers => "failed to get IAM users"
  | GetRoles => "failed to get IAM roles"
  | GetPolicies => "failed to get IAM policies"
  | GetVPCs => "failed to get VPCs"
  | GetSecurityGroups => "failed to get security groups"
  end.

(** Both channels are made with capacity 25. *)
Definition chan_capacity : nat := 25.

(** The state of one call between the last [go] statement and the [return]:
    - [running]: the goroutines that have not yet sent;
    - [resourceChan], [errorChan]: the buffered contents, oldest first;
    - [resource_closed], [error_closed]: the closing goroutine has passed
      [wg.Wait()] and closed [resourceChan], respectively [errorChan] too;
    - [resource_nil], [error_nil]: the receiving loop has set its variable
      [resourceChan], respectively [errorChan], to nil;
    - [allResources], [errors]: the accumulators of the receiving loop;
    - [calls]: the collector calls made so far. *)
Record Fan := {
  running : list Collector;
  resourceChan : list (list models.Resource);
  errorChan : list string;
  resource_closed : bool;
  error_closed : bool;
  resource_nil : bool;
  error_nil : bool;
  allResources : list models.Resource;
  errors : list string;
  calls : list Call
}.

Definition fan_start : Fan :=
  {| running := goroutines; resourceChan := []; errorChan := [];
     resource_closed := false; error_closed := false;
     resource_nil := false; error_nil := false;
     allResources := []; errors := []; calls := [] |}.

(** The interleavings of the goroutines and the receiving loop. A goroutine
    runs its collector and sends on one of the channels (a send needs room
    in the buffer); once every worker is done, the closing goroutine closes
    [resourceChan] and then [errorChan]; [select] takes a ready case: a
    receive of a buffered value, or, on a closed and drained channel, the
    receive with [ok] false that sets the variable to nil (a nil channel is
    never ready again). *)
Inductive fan_step (svc : Services) (filters : types.ResourceFilters)
    : Fan → Fan → Prop :=
  | step_send_resources st before c after resources :
      running st = before ++ c :: after →
      run svc c filters = Ok resources →
      (length (resourceChan st) < chan_capacity)%nat →
      fan_step svc filters st
        {| running := before ++ after;
           resourceChan := resourceChan st ++ [resources];
           errorChan := errorChan st;
           resource_closed := resource_closed st; error_closed := error_closed st;
           resource_nil := resource_nil st; error_nil := error_nil st;
           allResources := allResources st; errors := errors st;
           calls := calls st ++ [CollectorCall c] |}
  | step_send_error st before c after err :
      running st = before ++ c :: after →
      run svc c filters = Error err →
      (length (errorChan st) < chan_capacity)%nat →
      fan_step svc filters st
        {| running := before ++ after;
           resourceChan := resourceChan st;
           errorChan := errorChan st ++ [wrap_error (failure_prefix c) err];
           resource_closed := resource_closed st; error_closed := error_closed st;
           resource_nil := resource_nil st; error_nil := error_nil st;
           allResources := allResources st; errors := errors st;
           calls := calls st ++ [CollectorCall c] |}
  | step_close_resources st :
      running st = [] →
      resource_closed st = false →
      fan_step svc filters st
        {| running := []; resourceChan := resourceChan st;
           errorChan := errorChan st;
           resource_closed := true; error_closed := error_closed st;
           resource_nil := resource_nil st; error_nil := error_nil st;
           allResources := allResources st; errors := errors st;
           calls := calls st |}
  | step_close_errors st :
      resource_closed st = true →
      error_closed st = false →
      fan_step svc filters st
        {| running := running st; resourceChan := resourceChan st;
           errorChan := errorChan st;
           resource_closed := true; error_closed := true;
           resource_nil := resource_nil st; error_nil := error_nil st;
           allResources := allResources st; errors := errors st;
           calls := calls st |}
  | step_recv_resources st resources rest :
      resource_nil st = false →
      resourceChan st = resources :: rest →
      fan_step svc filters st
        {| running := running st; resourceChan := rest;
           errorChan := errorChan st;
           resource_closed := resource_closed st; error_closed := error_closed st;
           resource_nil := false; error_nil := error_nil st;
           allResources := allResources st ++ resources; errors := errors st;
           calls := calls st |}
  | step_resources_done st :
      resource_nil st = false →
      resourceChan st = [] →
      resource_closed st = true →
      fan_step svc filters st
        {| running := running st; resourceChan := [];
           errorChan := errorChan st;
           resource_closed := true; error_closed := error_closed st;
           resource_nil := true; error_nil := error_nil st;
           allResources := allResources st; errors := errors st;
           calls := calls st |}
  | step_recv_error st err rest :
      error_nil st = false →
      errorChan st = err :: rest →
      fan_step svc filters st
        {| running := running st; resourceChan := resourceChan st;
           errorChan := rest;
           resource_closed := resource_closed st; error_closed := error_closed st;
           resource_nil := resource_nil st; error_nil := false;
           allResources := allResources st; errors := errors st ++ [err];
           calls := calls st |}
  | step_errors_done st :
      error_nil st = false →
      errorChan st = [] →
      error_closed st = true →
      fan_step svc filters st
        {| running := running st; resourceChan := resourceChan st;
           errorChan := [];
           resource_closed := resource_closed st; error_closed := true;
           resource_nil := resource_nil st; error_nil := true;
           allResources := allResources st; errors := errors st;
           calls := calls st |}.

(** The loop breaks when both variables are nil. *)
Definition fan_done (st : Fan) : Prop :=
  resource_nil st = true ∧ error_nil st = true.

(** [GetResources p filters (r, cs)]: the call can return [r] having made
    the calls [cs]. The logged errors are not part of the result. *)
Inductive GetResources (p : AWSProvider) (filters : types.ResourceFilters)
    : result (list models.Resource) * list Call → Prop :=
  | GetResources_unauthenticated :
      IsAuthenticated p = false →
      GetResources p filters (Error "AWS provider is not authenticated", [])
  | GetResources_collected svc st :
      IsAuthenticated p = true →
      services p = Some svc →
      rtc (fan_step svc filters) fan_start st →
      fan_done st →
      GetResources p filters (Ok (allResources st), calls st).

(** What the goroutines of [order] leave on the two channels when they send
    in this order. *)
Fixpoint sends (svc : Services) (filters : types.ResourceFilters)
    (order : list Collector) : list (list models.Resource) * list string :=
  match order with
  | [] => ([], [])
  | c :: order =>
      let rest := sends svc filters order in
      match run svc c filters with
      | Ok resources => (resources :: rest.1, rest.2)
      | Error err => (rest.1, wrap_error (failure_prefix c) err :: rest.2)
      end
  end.

(** The resources of the collectors of [order] that succeeded, in this
    order; a collector that failed contributes nothing. *)
Definition collected (svc : Services) (filters : types.ResourceFilters)
    (order : list Collector) : list models.Resource :=
  concat (map (fun c => match run svc c filters with
                        | Ok resources => resources
                        | Error _ => []
                        end) order).

(** One interleaving, as a function: the goroutines send in the order of
    their [go] statements, the two channels are closed, and the loop then
    drains the resources before the errors. [None] is a nil service
    pointer dereferenced. *)
Definition GetResources_in_order (p : AWSProvider) (filters : types.ResourceFilters)
    : option (result (list models.Resource) * list Call) :=
  if negb (IsAuthenticated p) then
    Some (Error "AWS provider is not authenticated", [])
  else
    match services p with
    | None => None
    | Some svc =>
        Some (Ok (concat (sends svc filters goroutines).1),
              map CollectorCall goroutines)
    end.

(** What holds of every state that a call reaches, [sent] being the
    goroutines that have sent, in the order of their sends. *)
Record fan_invariant (svc : Services) (filters : types.ResourceFilters)
    (st : Fan) (sent : list Collector) : Prop := {
  inv_calls : calls st = map CollectorCall sent;
  inv_running : sent ++ running st ≡ₚ goroutines;
  inv_resources :
    allResources st ++ concat (resourceChan st) = collected svc filters sent;
  inv_resource_len : (length (resourceChan st) ≤ length sent)%nat;
  inv_error_len : (length (errorChan st) ≤ length sent)%nat;
  inv_resource_closed : resource_closed st = true → running st = [];
  inv_error_closed : error_closed st = true → resource_closed st = true;
  inv_resource_nil :
    resource_nil st = true → resourceChan st = [] ∧ resource_closed st = true;
  inv_error_nil :
    error_nil st = true → errorChan st = [] ∧ error_closed st = true
}.

(** The number of steps that a state has left at most. *)
Definition fan_measure (st : Fan) : nat :=
  (2 * length (running st) + length (resourceChan st) + length (errorChan st)
   + (if resource_closed st then 0 else 1)
   + (if error_closed st then 0 else 1)
   + (if resource_nil st then 0 else 1)
   + (if error_nil st then 0 else 1))%nat.

(** *** [GetResourcesByType] and [GetResourceStatus]

    Both are sequential. They return [None] where the Go code would
    dereference a nil service pointer. *)

Definition type_cases : list (list string * Collector) :=
  [ (["ec2"; "virtual_machine"; "instance"], GetInstances);
    (["s3"; "bucket"; "object_storage"], GetBuckets);
    (["rds"; "rds_instance"; "database"; "postgres"; "postgresql"; "mysql"],
      GetDatabases);
    (["rds_cluster"; "aurora"; "cluster"], GetClusters);
    (["iam"; "iam_user"; "user"], GetUsers);
    (["iam_role"; "role"], GetRoles);
    (["iam_policy"; "policy"], GetPolicies);
    (["vpc"; "network"], GetVPCs);
    (["security_group"; "firewall"; "sg"], GetSecurityGroups) ].

Definition GetResourcesByType (p : AWSProvider) (resourceType : string)
    (filters : types.ResourceFilters)
    : option (result (list models.Resource) * list Call) :=
  if negb (IsAuthenticated p) then
    Some (Error "AWS provider is not authenticated", [])
  else
    match models.switch_string resourceType
            (map (fun lc => (lc.1, Some lc.2)) type_cases) None with
    | Some c =>
        match services p with
        | None => None
        | Some svc => Some (run svc c filters, [CollectorCall c])
        end
    | None => Some (Error ("unsupported resource type: " +:+ resourceType), [])
    end.

Definition GetResourceStatus (p : AWSProvider) (resourceID : string)
    : option (result models.ResourceStatus * list Call) :=
  if negb (IsAuthenticated p) then
    Some (Error "AWS provider is not authenticated", [])
  else
    match services p with
    | None => None
    | Some svc =>
        match GetInstanceStatus svc resourceID with
        | Ok status => Some (Ok status, [InstanceStatusCall resourceID])
        | Error _ =>
            match GetBucketStatus svc resourceID with
            | Ok status =>
                Some (Ok status,
                      [InstanceStatusCall resourceID; BucketStatusCall resourceID])
            | Error _ =>
                Some (Error ("resource " +:+ resourceID +:+ " not found"),
                      [InstanceStatusCall resourceID; BucketStatusCall resourceID])
            end
        end
    end.

(** *** Static metadata *)

Definition SupportedRegions : list string :=
  [ "us-east-1"; "us-east-2"; "us-west-1"; "us-west-2";
    "eu-west-1"; "eu-west-2"; "eu-west-3"; "eu-central-1"; "eu-north-1";
    "ap-south-1"; "ap-southeast-1"; "ap-southeast-2"; "ap-northeast-1";
    "ap-northeast-2"; "ca-central-1"; "sa-east-1"; "af-south-1"; "me-south-1" ].

Definition GetSupportedResourceTypes : list string :=
  [ "ec2"; "instance"; "virtual_machine";
    "s3"; "bucket"; "object_storage";
    "rds"; "rds_instance"; "rds_cluster"; "database";
    "postgres"; "postgresql"; "mysql"; "aurora"; "cluster";
    "iam"; "iam_user"; "iam_role"; "iam_policy";
    "user"; "role"; "policy";
    "vpc"; "network"; "security_group"; "firewall"; "sg" ].

(** [ValidateConfig] returns the configuration as [Validate] leaves it and
    the error. *)
Definition ValidateConfig (cfg : config.ProviderConfig)
    : config.ProviderConfig * option string :=
  match cfg with
  | config.OfOtherConfig _ =>
      (cfg, Some "invalid configuration type, expected *config.AWSConfig")
  | config.OfAWSConfig awsConfig =>
      (config.OfAWSConfig (config.Validate awsConfig).1,
       (config.Validate awsConfig).2)
  end.

End aws.

(** ** Package [providers]: the registry (pkg/providers/registry.go) *)
Module providers.

(** A value of the interface [CloudProvider], given by what its metadata
    methods return. *)
Record CloudProvider := {
  Name : string;
  Description : string;
  SupportedRegions : list string;
  GetSupportedResourceTypes : list string;
  IsAuthenticated : bool
}.

(** The registry's state is its map; the lock and the logger carry none. *)
Record PluginRegistry := {
  providers : gmap string CloudProvider
}.

Definition NewPluginRegistry : PluginRegistry := {| providers := ∅ |}.

(** [Register] returns the registry as the call leaves it and the error,
    [None] for nil. The argument [None] is the nil interface value. *)
Definition Register (r : PluginRegistry) (provider : option CloudProvider)
    : PluginRegistry * option string :=
  match provider with
  | None => (r, Some "provider cannot be nil")
  | Some provider =>
      let name := Name provider in
      if String.eqb name "" then (r, Some "provider name cannot be empty")
      else
        match providers r !! name with
        | Some _ => (r, Some ("provider " +:+ name +:+ " already registered"))
        | None => ({| providers := <[name := provider]> (providers r) |}, None)
        end
  end.

Definition Unregister (r : PluginRegistry) (name : string)
    : PluginRegistry * option string :=
  match providers r !! name with
  | None => (r, Some ("provider " +:+ name +:+ " not found"))
  | Some _ => ({| providers := delete name (providers r) |}, None)
  end.

Definition Get (r : PluginRegistry) (name : string) : result CloudProvider :=
  match providers r !! name with
  | Some provider => Ok provider
  | None => Error ("provider " +:+ name +:+ " not found")
  end.

Definition Exists (r : PluginRegistry) (name : string) : bool :=
  bool_decide (is_Some (providers r !! name)).

Definition Count (r : PluginRegistry) : nat := size (providers r).

(** [sort.Strings] of Go's standard library puts a slice in increasing
    order of [<] on strings, the lexicographic order of their bytes, which
    is [String.le]. A list has one arrangement that is sorted for a total
    order, so the sorting algorithm does not matter; merge sort is used. *)
Definition sort_Strings (names : list string) : list string :=
  merge_sort String.le names.

(** [names] is a slice that the loop [for name := range r.providers] can
    build: the keys of the map, each once, in the order that the runtime
    picks for this traversal. *)
Definition range_keys (r : PluginRegistry) (names : list string) : Prop :=
  names ≡ₚ (map_to_list (providers r)).*1.

(** [List] after the loop has appended the keys as [names]. *)
Definition List_of (names : list string) : list string := sort_Strings names.

(** [List] for one traversal order. *)
Definition List (r : PluginRegistry) : list string :=
  List_of (map_to_list (providers r)).*1.

(** [GetAll] copies the map. *)
Definition GetAll (r : PluginRegistry) : gmap string CloudProvider := providers r.

Record ProviderInfo := {
  InfoName : string;
  InfoDescription : string;
  InfoSupportedRegions : list string;
  InfoResourceTypes : list string;
  InfoIsAuthenticated : bool
}.

(** [GetProviderInfo] for one traversal order of the map. *)
Definition GetProviderInfo (r : PluginRegistry) : list ProviderInfo :=
  map (fun entry : string * CloudProvider =>
         {| InfoName := entry.1;
            InfoDescription := Description entry.2;
            InfoSupportedRegions := SupportedRegions entry.2;
            InfoResourceTypes := GetSupportedResourceTypes entry.2;
            InfoIsAuthenticated := IsAuthenticated entry.2 |})
      (map_to_list (providers r)).

(** The registries of a process: the new one, and what [Register] and
    [Unregister] make of them, whether they succeed or fail. *)
Inductive registry_built : PluginRegistry → Prop :=
  | built_new : registry_built NewPluginRegistry
  | built_Register r provider :
      registry_built r → registry_built (Register r provider).1
  | built_Unregister r name :
      registry_built r → registry_built (Unregister r name).1.

End providers.

(** ** Package [providers]: the factory (pkg/providers/factory.go) *)
Module factory.

(** [createAWSProvider]; the authenticator that [NewAWSProvider] builds is
    represented by what its calls return. *)
Definition createAWSProvider (a : aws.Authenticator) (cfg : config.ProviderConfig)
    : result aws.AWSProvider :=
  match cfg with
  | config.OfOtherConfig _ => Error "invalid configuration type for AWS provider"
  | config.OfAWSConfig awsConfig =>
      match aws.NewAWSProvider (Some awsConfig) with
      | Error err => Error (wrap_error "failed to create AWS provider" err)
      | Ok provider =>
          match aws.Authenticate a provider (config.OfAWSConfig awsConfig) with
          | (_, Some err) =>
              Error (wrap_error "failed to authenticate AWS provider" err)
          | (provider, None) => Ok provider
          end
      end
  end.

Definition CreateProvider (a : aws.Authenticator) (name : string)
    (cfg : config.ProviderConfig) : result aws.AWSProvider :=
  if String.eqb name "aws" then createAWSProvider a cfg
  else Error ("unsupported provider: " +:+ name).

Definition GetSupportedProviders : list string := ["aws"].

End factory.

(** ** The test double (test/mocks/aws_mock.go) *)
Module mocks.

(** [errors] maps a method name to the error that [SetError] gave it. *)
Record MockAWSProvider := {
  authenticated : bool;
  resources : list models.Resource;
  errors : gmap string string
}.

Definition NewMockAWSProvider : MockAWSProvider :=
  {| authenticated := false; resources := []; errors := ∅ |}.

Definition SetAuthenticated (m : MockAWSProvider) (value : bool) : MockAWSProvider :=
  {| authenticated := value; resources := resources m; errors := errors m |}.

Definition AddResource (m : MockAWSProvider) (resource : models.Resource)
    : MockAWSProvider :=
  {| authenticated := authenticated m; resources := resources m ++ [resource];
     errors := errors m |}.

Definition SetError (m : MockAWSProvider) (method err : string) : MockAWSProvider :=
  {| authenticated := authenticated m; resources := resources m;
     errors := <[method := err]> (errors m) |}.

(** The tag loop of the double indexes [resource.Tags] directly; a nil map
    has no key. *)
Definition tags_pass (resource : models.Resource) (tags : gmap string string) : bool :=
  forallb
    (fun kv : string * string =>
       let (resourceValue, exists_) :=
         match models.Tags resource with
         | None => ("", false)
         | Some resourceTags =>
             match resourceTags !! kv.1 with
             | Some value => (value, true)
             | None => ("", false)
             end
         end in
       negb (negb exists_ || negb (String.eqb resourceValue kv.2)))
    (map_to_list tags).

Definition matchesFilters (resource : models.Resource)
    (filters : types.ResourceFilters) : bool :=
  if (0 <? length (types.Regions filters))%nat
     && negb (range_found (fun region => String.eqb (models.Region resource) region)
                (types.Regions filters))
  then false
  else if (0 <? length (types.ResourceTypes filters))%nat
          && negb (range_found (fun rt => String.eqb (models.Type_ resource) rt)
                     (types.ResourceTypes filters))
  then false
  else if negb (tags_pass resource (types.Tags filters)) then false
  else if (0 <? length (types.Status filters))%nat
          && negb (range_found
                     (fun status =>
                        String.eqb (models.State (models.Status resource)) status)
                     (types.Status filters))
  then false
  else if created_before_bound resource (types.CreatedAfter filters) then false
  else if created_after_bound resource (types.CreatedBefore filters) then false
  else true.

Definition GetResources (m : MockAWSProvider) (filters : types.ResourceFilters)
    : result (list models.Resource) :=
  match errors m !! "GetResources" with
  | Some err => Error err
  | None => Ok (List.filter (fun resource => matchesFilters resource filters)
                  (resources m))
  end.

Definition GetResourcesByType (m : MockAWSProvider) (resourceType : string)
    (filters : types.ResourceFilters) : result (list models.Resource) :=
  match errors m !! "GetResourcesByType" with
  | Some err => Error err
  | None =>
      Ok (List.filter
            (fun resource =>
               String.eqb (models.Type_ resource) resourceType
               && matchesFilters resource filters)
            (resources m))
  end.

Definition GetResourceStatus (m : MockAWSProvider) (resourceID : string)
    : result models.ResourceStatus :=
  match errors m !! "GetResourceStatus" with
  | Some err => Error err
  | None =>
      match List.find (fun resource => String.eqb (models.ID resource) resourceID)
              (resources m) with
      | Some resource => Ok (models.Status resource)
      | None => Error "resource not found"
      end
  end.

End mocks.

(** ** The inventory command (cmd/cloudview/inventory.go) *)

(** [time.Parse("2006-01-02", s)] of the Go standard library, a parameter:
    the instant of a date, or the parse error. *)
Class GoTime := { ParseDate : string → result Time }.

Module cli.

(** [len(s)] as a Go [int]. *)
Definition len (s : string) : Z := Z.of_nat (String.length s).

(** [truncateString]; [None] is the panic of a slice bound out of range,
    which [s[:maxLen]] raises for a negative [maxLen]. *)
Definition truncateString (s : string) (maxLen : Z) : option string :=
  if len s <=? maxLen then Some s
  else if maxLen <=? 3 then
    if maxLen <? 0 then None else Some (String.substring 0 (Z.to_nat maxLen) s)
  else Some (String.substring 0 (Z.to_nat (maxLen - 3)) s +:+ "...").

Definition min (a b : Z) : Z := if a <? b then a else b.

(** The string that the tag loops build from the pairs of a traversal of
    [resource.Tags]: [key=value], with ", " before every pair but the
    first. *)
Fixpoint tag_string (count : nat) (pairs : list (string * string)) : string :=
  match pairs with
  | [] => ""
  | (key, value) :: pairs =>
      (if (0 <? count)%nat then ", " else "")
      +:+ (key +:+ "=" +:+ value) +:+ tag_string (S count) pairs
  end.

Definition resource_tag_string (resource : models.Resource) : string :=
  match models.Tags resource with
  | None => ""
  | Some tags => tag_string 0 (map_to_list tags)
  end.

Record Widths := {
  maxID : Z; maxName : Z; maxType : Z; maxRegion : Z; maxStatus : Z; maxTags : Z
}.

(** One turn of the loop of [calculateOptimalWidths]. *)
Definition widen (w : Widths) (resource : models.Resource) : Widths :=
  let grow current n := if current <? n then n else current in
  {| maxID := grow (maxID w) (len (models.ID resource));
     maxName := grow (maxName w) (len (models.Name resource));
     maxType := grow (maxType w) (len (models.Type_ resource));
     maxRegion := grow (maxRegion w) (len (models.Region resource));
     maxStatus := grow (maxStatus w) (len (models.State (models.Status resource)));
     maxTags := grow (maxTags w) (len (resource_tag_string resource)) |}.

Definition calculateOptimalWidths (resources : list models.Resource) : Widths :=
  let w := foldl widen
             {| maxID := 10; maxName := 10; maxType := 10; maxRegion := 10;
                maxStatus := 10; maxTags := 10 |} resources in
  {| maxID := min (maxID w + 2) 50;
     maxName := min (maxName w + 2) 40;
     maxType := min (maxType w + 2) 30;
     maxRegion := min (maxRegion w + 2) 20;
     maxStatus := min (maxStatus w + 2) 15;
     maxTags := min (maxTags w + 2) 80 |}.

(** The fields of [InventoryOptions] that [parseInventoryFilters] reads. *)
Record InventoryOptions := {
  Regions : list string;
  ResourceTypes : list string;
  Tags : list string;
  Status : list string;
  CreatedAfter : string;
  CreatedBefore : string
}.

(** [strings.SplitN(s, "=", 2)]: [s] alone when it has no "=", and otherwise
    the text before the first "=" and the text after it. [cut_equals] finds
    the cut; [equals_sign] is the byte of "=". *)
Definition equals_sign : Ascii.ascii :=
  Ascii.Ascii true false true true true true false false.

Fixpoint cut_equals (s : string) : option (string * string) :=
  match s with
  | EmptyString => None
  | String c rest =>
      if Ascii.eqb c equals_sign then Some (EmptyString, rest)
      else match cut_equals rest with
           | Some (before, after) => Some (String c before, after)
           | None => None
           end
  end.

Definition SplitN_equals_2 (s : string) : list string :=
  match cut_equals s with
  | None => [s]
  | Some (before, after) => [before; after]
  end.

(** The tag loop of [parseInventoryFilters], [tags] being [filters.Tags]
    so far: the first malformed argument ends the call with its error. *)
Fixpoint parse_tags (tagStrs : list string) (tags : gmap string string)
    : gmap string string * option string :=
  match tagStrs with
  | [] => (tags, None)
  | tagStr :: tagStrs =>
      match SplitN_equals_2 tagStr with
      | [key; value] => parse_tags tagStrs (<[key := value]> tags)
      | _ => (tags, Some ("invalid tag format: " +:+ tagStr
                          +:+ " (expected key=value)"))
      end
  end.

(** [parseInventoryFilters] returns the filters as built when it returns,
    and the error, [None] for nil. *)
Definition parseInventoryFilters `{GoTime} (opts : InventoryOptions)
    : types.ResourceFilters * option string :=
  let filters tags after before :=
    {| types.Regions := Regions opts; types.ResourceTypes := ResourceTypes opts;
       types.Tags := tags; types.Status := Status opts;
       types.CreatedAfter := after; types.CreatedBefore := before |} in
  match parse_tags (Tags opts) ∅ with
  | (tags, Some err) => (filters tags None None, Some err)
  | (tags, None) =>
      let after :=
        if negb (String.eqb (CreatedAfter opts) "")
        then Some (ParseDate (CreatedAfter opts)) else None in
      match after with
      | Some (Error _) =>
          (filters tags None None,
           Some ("invalid created-after date format: " +:+ CreatedAfter opts
                 +:+ " (expected YYYY-MM-DD)"))
      | _ =>
          let after := match after with Some (Ok t) => Some t | _ => None end in
          let before :=
            if negb (String.eqb (CreatedBefore opts) "")
            then Some (ParseDate (CreatedBefore opts)) else None in
          match before with
          | Some (Error _) =>
              (filters tags after None,
               Some ("invalid created-before date format: " +:+ CreatedBefore opts
                     +:+ " (expected YYYY-MM-DD)"))
          | Some (Ok t) => (filters tags after (Some t), None)
          | None => (filters tags after None, None)
          end
      end
  end.

(** The second copy of the table code, in pkg/utils/logger.go, has the
    same [truncateString] and two helpers of its own. *)

(** [strings.Join(elems, sep)]. *)
Fixpoint Join (elems : list string) (sep : string) : string :=
  match elems with
  | [] => ""
  | [elem] => elem
  | elem :: elems => elem +:+ sep +:+ Join elems sep
  end.

(** [prepareDisplayValue]. *)
Definition prepareDisplayValue (value : string) (maxWidth : Z) (noTruncate : bool)
    : option string :=
  if noTruncate || (len value <=? maxWidth) then Some value
  else truncateString value maxWidth.

(** [formatTagsForDisplay] for one traversal of [tags], which yields the
    pairs [traversal]: [tagPairs[0]] is the pair that the runtime happens to
    visit first. *)
Definition formatTagsForDisplay_of (traversal : list (string * string))
    (noTruncate : bool) : option string :=
  if (length traversal =? 0)%nat then Some ""
  else
    let tagPairs :=
      map (fun kv : string * string => kv.1 +:+ "=" +:+ kv.2) traversal in
    let result := Join tagPairs ", " in
    if negb noTruncate && (40 <? len result) then
      if (1 <? length tagPairs)%nat
      then Some (default "" (head tagPairs) +:+ ", ...")
      else truncateString result 40
    else Some result.

End cli.

(** ** Sample values, used to run the definitions *)
Module examples.

(** 2024-01-10T00:00:00Z, in nanoseconds since the Unix epoch. *)
Definition jan_10_2024 : Time := 1704844800000000000.

(** A bucket as [createBasicBucketResource] builds it: kind
    "object_storage", state "available", created on [jan_10_2024]. *)
Definition bucket : models.Resource :=
  {| models.ID := "logs"; models.Name := "logs";
     models.Type_ := models.ResourceTypeObjectStorage;
     models.Provider := "aws"; models.Region := "us-east-1";
     models.Status := {| models.State := "available";
                         models.Health := models.HealthHealthy;
                         models.LastChecked := jan_10_2024 + 1 |};
     models.Tags := Some {[ "Env" := "prod" ]};
     models.CreatedAt := jan_10_2024;
     models.UpdatedAt := jan_10_2024 + 1;
     models.Metadata := Some {[ "service" := models.MetaString "s3" ]};
     models.Cost := None |}.

(** An instance as [convertInstanceToResource] builds it. *)
Definition instance : models.Resource :=
  {| models.ID := "i-1"; models.Name := "web";
     models.Type_ := models.ResourceTypeVirtualMachine;
     models.Provider := "aws"; models.Region := "us-east-1";
     models.Status := {| models.State := "running";
                         models.Health := models.HealthHealthy;
                         models.LastChecked := jan_10_2024 + 1 |};
     models.Tags := Some {[ "Env" := "prod" ]};
     models.CreatedAt := jan_10_2024;
     models.UpdatedAt := jan_10_2024 + 1;
     models.Metadata := Some ∅;
     models.Cost := None |}.

(** [--created-after 2024-01-10] and nothing else. *)
Definition created_after_jan_10 : types.ResourceFilters :=
  {| types.Regions := []; types.ResourceTypes := []; types.Tags := ∅;
     types.Status := []; types.CreatedAfter := Some jan_10_2024;
     types.CreatedBefore := None |}.

(** [--created-before 2024-01-10] and nothing else. *)
Definition created_before_jan_10 : types.ResourceFilters :=
  {| types.Regions := []; types.ResourceTypes := []; types.Tags := ∅;
     types.Status := []; types.CreatedAfter := None;
     types.CreatedBefore := Some jan_10_2024 |}.

(** [--status stopped] and nothing else. *)
Definition status_stopped : types.ResourceFilters :=
  {| types.Regions := []; types.ResourceTypes := []; types.Tags := ∅;
     types.Status := ["stopped"]; types.CreatedAfter := None;
     types.CreatedBefore := None |}.

(** A configuration with the default region [region] and the region list
    [regions]. *)
Definition aws_config (region : string) (regions : list string) : config.AWSConfig :=
  {| config.Base := {| config.Enabled := true; config.Regions := regions |};
     config.Profile := "default"; config.Region := region;
     config.AccessKeyID := ""; config.SecretAccessKey := "";
     config.SessionToken := ""; config.RoleARN := ""; config.ExternalID := "";
     config.MFASerial := ""; config.DurationSeconds := 3600 |}.

(** A user as [convertUserToResource] builds it: region "global", state
    "active". *)
Definition user : models.Resource :=
  {| models.ID := "alice"; models.Name := "alice";
     models.Type_ := "iam_user";
     models.Provider := "aws"; models.Region := "global";
     models.Status := {| models.State := "active";
                         models.Health := models.HealthHealthy;
                         models.LastChecked := jan_10_2024 + 1 |};
     models.Tags := Some ∅;
     models.CreatedAt := jan_10_2024;
     models.UpdatedAt := jan_10_2024 + 1;
     models.Metadata := Some ∅;
     models.Cost := None |}.

(** A database as [convertDBInstanceToResource] builds it, with the
    status "available". *)
Definition database : models.Resource :=
  {| models.ID := "orders"; models.Name := "orders";
     models.Type_ := "rds_instance";
     models.Provider := "aws"; models.Region := "us-east-1";
     models.Status := {| models.State := "available";
                         models.Health := models.HealthHealthy;
                         models.LastChecked := jan_10_2024 + 1 |};
     models.Tags := Some ∅;
     models.CreatedAt := jan_10_2024;
     models.UpdatedAt := jan_10_2024 + 1;
     models.Metadata := Some ∅;
     models.Cost := None |}.

(** Two registered providers, by their metadata. *)
Definition aws_provider : providers.CloudProvider :=
  {| providers.Name := "aws";
     providers.Description := "Amazon Web Services (AWS) cloud provider";
     providers.SupportedRegions := ["us-east-1"; "us-west-2"];
     providers.GetSupportedResourceTypes := ["ec2"; "s3"];
     providers.IsAuthenticated := true |}.

Definition mock_provider (name : string) : providers.CloudProvider :=
  {| providers.Name := name;
     providers.Description := "Mock AWS provider for testing";
     providers.SupportedRegions := ["us-east-1"; "us-west-2"; "eu-west-1"];
     providers.GetSupportedResourceTypes := ["ec2"; "s3"; "lambda"];
     providers.IsAuthenticated := false |}.

(** The registry after registering "gcp", "aws" and "azure", in this
    order. *)
Definition three_providers : providers.PluginRegistry :=
  (providers.Register
     (providers.Register
        (providers.Register providers.NewPluginRegistry
           (Some (mock_provider "gcp"))).1
        (Some aws_provider)).1
     (Some (mock_provider "azure"))).1.

(** Service clients behind which the S3 listing is denied and the other
    collectors answer: one instance, one user, one database, and nothing
    else. *)
Definition services_s3_denied : aws.Services :=
  {| aws.run := fun c _ =>
       match c with
       | aws.GetBuckets => Error "failed to list S3 buckets: AccessDenied"
       | aws.GetInstances => Ok [instance]
       | aws.GetUsers => Ok [user]
       | aws.GetDatabases => Ok [database]
       | _ => Ok []
       end;
     aws.GetInstanceStatus := fun resourceID =>
       if String.eqb resourceID "i-1" then Ok (models.Status instance)
       else Error ("EC2 instance " +:+ resourceID +:+ " not found");
     aws.GetBucketStatus := fun resourceID =>
       Error ("S3 bucket " +:+ resourceID +:+ " not found or not accessible") |}.

(** An authenticator whose credentials are refused, and one whose
    credentials are accepted. *)
Definition refused : aws.Authenticator :=
  {| aws.authenticator_Authenticate := fun _ => Error "no valid credentials";
     aws.authenticator_ValidateCredentials := fun _ => Error "no valid credentials" |}.

Definition accepted : aws.Authenticator :=
  {| aws.authenticator_Authenticate := fun _ => Ok services_s3_denied;
     aws.authenticator_ValidateCredentials := fun _ =>
       Ok ("arn:aws:iam::123456789012:user/alice", "123456789012") |}.

(** A new provider, the provider after a refused authentication, and the
    provider after an accepted one. *)
Definition new_provider : aws.AWSProvider :=
  {| aws.config := aws_config "us-east-1" []; aws.services := None;
     aws.authenticated := false |}.

Definition refused_provider : aws.AWSProvider :=
  (aws.Authenticate refused new_provider
     (config.OfAWSConfig (aws_config "us-east-1" []))).1.

Definition accepted_provider : aws.AWSProvider :=
  (aws.Authenticate accepted new_provider
     (config.OfAWSConfig (aws_config "us-east-1" []))).1.

End examples.

(** * Properties *)

(** ** [switch] on a string *)
Section Switch.
Context {A : Type}.
Implicit Types (s : string) (cases : list (list string * A)) (default : A).

Lemma case_of_true s labels : models.case_of s labels = true ↔ s ∈ labels.
Proof.
  unfold models.case_of. rewrite existsb_exists. split.
  - intros (l & Hin & Heq). apply String.eqb_eq in Heq as ->.
    by apply list_elem_of_In.
  - intros Hin. exists s. split; [by apply list_elem_of_In|apply String.eqb_refl].
Qed.

Lemma case_of_false s labels : models.case_of s labels = false ↔ s ∉ labels.
Proof.
  rewrite <- case_of_true. destruct (models.case_of s labels); naive_solver.
Qed.

(** A switch none of whose labels equals the tag runs its default. *)
Lemma switch_string_default s cases default :
  (∀ labels v, (labels, v) ∈ cases → s ∉ labels) →
  models.switch_string s cases default = default.
Proof.
  induction cases as [|[labels v] cases IH]; intros Hnone; simpl; [done|].
  assert (models.case_of s labels = false) as ->.
  { apply case_of_false, (Hnone labels v). left. }
  apply IH. intros labels' v' Hin. apply (Hnone labels' v'). by right.
Qed.

(** A switch returns the value of one of its cases or its default. *)
Lemma switch_string_range s cases default :
  models.switch_string s cases default ∈ default :: cases.*2.
Proof.
  induction cases as [|[labels v] cases IH]; simpl; [left|].
  destruct (models.case_of s labels).
  - right. left.
  - apply elem_of_cons in IH as [->|IH]; [left|by do 2 right].
Qed.

(** The first case with a matching label decides. *)
Lemma switch_string_first s cases1 labels v cases2 default :
  (∀ labels' v', (labels', v') ∈ cases1 → s ∉ labels') →
  s ∈ labels →
  models.switch_string s (cases1 ++ (labels, v) :: cases2) default = v.
Proof.
  induction cases1 as [|[labels1 v1] cases1 IH]; intros Hnone Hin; simpl.
  - by apply case_of_true in Hin as ->.
  - assert (models.case_of s labels1 = false) as ->.
    { apply case_of_false, (Hnone labels1 v1). left. }
    apply IH; [|done]. intros labels' v' Hin'. apply (Hnone labels' v'). by right.
Qed.

End Switch.

(** ** Kind normalization *)

Lemma kind_canonical_fixed :
  Forall (fun kind => models.GetResourceTypeFromString kind = kind)
    models.resource_types.
Proof. repeat constructor. Qed.

Lemma kind_labels_converge :
  forallb
    (fun lk : list string * string =>
       forallb (fun l => String.eqb (models.GetResourceTypeFromString l) lk.2) lk.1)
    models.kind_cases = true.
Proof. vm_compute. reflexivity. Qed.

(** C6. [GetResourceTypeFromString] always returns a kind of the fixed
    enumeration; it is idempotent, and it returns every canonical kind
    unchanged; every label of a case (an alias set, such as "ec2", "vm",
    "virtual_machines") is sent to the one kind of that case; and a string
    that is no label of any case is sent to "unknown". *)
Theorem kind_normalization (s : string) :
  models.GetResourceTypeFromString s ∈ models.resource_types
  ∧ models.GetResourceTypeFromString (models.GetResourceTypeFromString s)
    = models.GetResourceTypeFromString s
  ∧ (s ∈ models.resource_types → models.GetResourceTypeFromString s = s)
  ∧ (∀ labels kind,
       (labels, kind) ∈ models.kind_cases → s ∈ labels →
       models.GetResourceTypeFromString s = kind)
  ∧ ((∀ labels kind, (labels, kind) ∈ models.kind_cases → s ∉ labels) →
     models.GetResourceTypeFromString s = models.ResourceTypeUnknown)
  ∧ models.GetResourceTypeFromString "ec2" = models.ResourceTypeVirtualMachine
  ∧ models.GetResourceTypeFromString "vm" = models.ResourceTypeVirtualMachine
  ∧ models.GetResourceTypeFromString "virtual_machines"
    = models.ResourceTypeVirtualMachine.
Proof.
  assert (Hfixed : ∀ kind, kind ∈ models.resource_types →
                           models.GetResourceTypeFromString kind = kind).
  { apply Forall_forall, kind_canonical_fixed. }
  assert (Hrange : models.GetResourceTypeFromString s ∈ models.resource_types).
  { pose proof (switch_string_range s models.kind_cases models.ResourceTypeUnknown)
      as Hin.
    unfold models.GetResourceTypeFromString.
    revert Hin. generalize (models.switch_string s models.kind_cases
                              models.ResourceTypeUnknown).
    intros kind Hin. apply list_elem_of_In. apply list_elem_of_In in Hin.
    simpl in Hin. simpl. intuition. }
  split_and!; try done.
  - by apply Hfixed.
  - apply Hfixed.
  - intros labels kind Hcase Hlabel.
    apply list_elem_of_In in Hcase. apply list_elem_of_In in Hlabel.
    pose proof (proj1 (forallb_forall _ _) kind_labels_converge _ Hcase) as Hall.
    apply String.eqb_eq. apply (proj1 (forallb_forall _ _) Hall _ Hlabel).
  - apply switch_string_default.
Qed.

(** "s3" is a label of the object-storage case, and "S3" is no label. *)
Lemma kind_normalization_witness :
  models.GetResourceTypeFromString "s3" = models.ResourceTypeObjectStorage
  ∧ models.GetResourceTypeFromString "S3" = models.ResourceTypeUnknown.
Proof.
  split.
  - apply (proj1 (proj2 (proj2 (proj2 (kind_normalization "s3"))))
             ["object_storage"; "s3"; "gcs"; "blob_storage"]).
    + unfold models.kind_cases. do 4 right. left.
    + right. left.
  - apply (proj1 (proj2 (proj2 (proj2 (proj2 (kind_normalization "S3")))))).
    intros labels kind Hcase Hlabel.
    apply list_elem_of_In in Hcase. apply list_elem_of_In in Hlabel.
    revert Hlabel.
    repeat (destruct Hcase as [Hcase|Hcase];
            [injection Hcase as <- <-; simpl; intuition discriminate|]).
    destruct Hcase.
Defined.

(** ** Health of a virtual machine *)

(** C7. For a virtual machine, "running" is healthy, "stopped" is
    unhealthy, "pending" is warning, and a state that is not one of the six
    states of the table is unknown; the result is always one of the four
    health values. *)
Theorem instance_health (state : string) :
  ec2.mapInstanceHealthToHealth "running" = "healthy"
  ∧ ec2.mapInstanceHealthToHealth "stopped" = "unhealthy"
  ∧ ec2.mapInstanceHealthToHealth "pending" = "warning"
  ∧ (state ∉ ["running"; "stopped"; "stopping"; "pending"; "terminated";
              "shutting-down"] →
     ec2.mapInstanceHealthToHealth state = "unknown")
  ∧ ec2.mapInstanceHealthToHealth state
    ∈ ["healthy"; "unhealthy"; "warning"; "unknown"].
Proof.
  split_and!; try reflexivity.
  - intros Hnot. apply switch_string_default.
    intros labels v Hcase Hlabel. apply Hnot.
    apply list_elem_of_In. apply list_elem_of_In in Hcase.
    apply list_elem_of_In in Hlabel. revert Hlabel.
    repeat (destruct Hcase as [Hcase|Hcase];
            [injection Hcase as <- <-; simpl; tauto|]).
    destruct Hcase.
  - pose proof (switch_string_range state ec2.health_cases models.HealthUnknown)
      as Hin.
    apply list_elem_of_In. apply list_elem_of_In in Hin.
    unfold ec2.mapInstanceHealthToHealth. simpl in *. tauto.
Qed.

(** "rebooting" is not a state of the table. *)
Lemma instance_health_witness :
  ec2.mapInstanceHealthToHealth "rebooting" = "unknown".
Proof.
  apply (proj1 (proj2 (proj2 (proj2 (instance_health "rebooting"))))).
  intros Hin. apply list_elem_of_In in Hin. simpl in Hin.
  intuition discriminate.
Defined.

(** ** Region resolution *)

(** C5. The regions that a collector queries: the filter's regions when
    there are any; otherwise the configuration's region list when it has
    any; otherwise the configuration's default region alone when it is not
    empty; otherwise "us-east-1" alone. The three copies of the function
    agree. *)
Theorem region_fallback_chain (get : config.AWSConfig → list string → list string)
    (cfg : config.AWSConfig) (filterRegions : list string) :
  get ∈ [ec2.getRegionsToQuery; rds.getRegionsToQuery; vpc.getRegionsToQuery] →
  (filterRegions ≠ [] → get cfg filterRegions = filterRegions)
  ∧ (filterRegions = [] → config.GetRegions cfg ≠ [] →
     get cfg filterRegions = config.GetRegions cfg)
  ∧ (filterRegions = [] → config.GetRegions cfg = [] → config.Region cfg ≠ "" →
     get cfg filterRegions = [config.Region cfg])
  ∧ (filterRegions = [] → config.GetRegions cfg = [] → config.Region cfg = "" →
     get cfg filterRegions = ["us-east-1"]).
Proof.
  intros Hget.
  assert (get = ec2.getRegionsToQuery) as ->.
  { apply list_elem_of_In in Hget. simpl in Hget.
    destruct Hget as [<-|[<-|[<-|[]]]]; reflexivity. }
  unfold ec2.getRegionsToQuery. split_and!.
  - intros Hne. destruct filterRegions; [done|reflexivity].
  - intros -> Hne. simpl. destruct (config.GetRegions cfg); [done|reflexivity].
  - intros -> -> Hne. simpl.
    destruct (String.eqb_spec (config.Region cfg) ""); [done|reflexivity].
  - intros -> -> ->. reflexivity.
Qed.

(** With no filter regions and no configured list, the default region "x"
    gives ["x"], and no default region gives ["us-east-1"]. *)
Lemma region_fallback_chain_witness :
  ec2.getRegionsToQuery (examples.aws_config "x" []) [] = ["x"]
  ∧ rds.getRegionsToQuery (examples.aws_config "" []) [] = ["us-east-1"]
  ∧ vpc.getRegionsToQuery (examples.aws_config "x" ["eu-west-1"]) ["us-west-2"]
    = ["us-west-2"]
  ∧ vpc.getRegionsToQuery (examples.aws_config "x" ["eu-west-1"]) [] = ["eu-west-1"].
Proof.
  split_and!.
  - apply (region_fallback_chain ec2.getRegionsToQuery (examples.aws_config "x" []) []);
      [left|reflexivity|reflexivity|discriminate].
  - apply (region_fallback_chain rds.getRegionsToQuery (examples.aws_config "" []) []);
      [right; left|reflexivity|reflexivity|reflexivity].
  - apply (region_fallback_chain vpc.getRegionsToQuery
             (examples.aws_config "x" ["eu-west-1"]) ["us-west-2"]);
      [right; right; left|discriminate].
  - apply (region_fallback_chain vpc.getRegionsToQuery
             (examples.aws_config "x" ["eu-west-1"]) []);
      [right; right; left|reflexivity|discriminate].
Defined.

(** ** The filter predicates *)
Section Filters.
Context `{GoStrings}.
Implicit Types (resource : models.Resource) (filters : types.ResourceFilters).

Lemma tags_pass_empty resource : tags_pass resource ∅ = true.
Proof. unfold tags_pass. by rewrite map_to_list_empty. Qed.

(** The two creation-time tests let a resource through exactly when its
    creation time lies in the closed window. *)
Lemma creation_tests_closed resource after before :
  (if created_before_bound resource after then false
   else if created_after_bound resource before then false else true) = true
  ↔ (∀ a, after = Some a → a ≤ models.CreatedAt resource)
    ∧ (∀ b, before = Some b → models.CreatedAt resource ≤ b).
Proof.
  unfold created_before_bound, created_after_bound.
  destruct after as [a|], before as [b|];
    repeat match goal with
           | |- context [(?x <? ?y)] => destruct (Z.ltb_spec x y)
           end;
    split; try done;
    try (intros [Ha Hb]; try specialize (Ha _ eq_refl);
         try specialize (Hb _ eq_refl); lia);
    intros _; split; intros ? [= <-]; lia.
Qed.

(** Case analysis on the clauses of a predicate that come before the
    creation-time tests. *)
Ltac leading_clauses :=
  repeat match goal with
         | |- context [if ?c && negb ?d then false else _] => destruct (c && negb d)
         | |- context [if negb (tags_pass ?r ?m) then false else _] =>
             destruct (negb (tags_pass r m))
         end.

(** C2, as the code has it. For the predicates of [ec2], [s3], [rds] and
    [iam]: a resource passes under filters with a creation window exactly
    when it passes under the same filters without the window and its
    creation time is not before [created_after] and not after
    [created_before]. The window is closed: a resource created exactly at a
    bound is kept. *)
Theorem creation_window_closed resource regions kinds tags statuses after before :
  let window a b :=
    {| types.Regions := regions; types.ResourceTypes := kinds;
       types.Tags := tags; types.Status := statuses;
       types.CreatedAfter := a; types.CreatedBefore := b |} in
  let inside :=
    (∀ a, after = Some a → a ≤ models.CreatedAt resource)
    ∧ (∀ b, before = Some b → models.CreatedAt resource ≤ b) in
  (ec2.matchesFilters resource (window after before) = true
   ↔ (ec2.matchesFilters resource (window None None) = true ∧ inside))
  ∧ (s3.matchesFilters resource (window after before) = true
     ↔ (s3.matchesFilters resource (window None None) = true ∧ inside))
  ∧ (rds.matchesFilters resource (window after before) = true
     ↔ (rds.matchesFilters resource (window None None) = true ∧ inside))
  ∧ (iam.matchesFilters resource (window after before) = true
     ↔ (iam.matchesFilters resource (window None None) = true ∧ inside)).
Proof.
  intros window inside. subst window inside.
  unfold ec2.matchesFilters, s3.matchesFilters, rds.matchesFilters,
    iam.matchesFilters. simpl.
  split_and!; leading_clauses;
    try (split; [done|by intros [? _]]);
    rewrite creation_tests_closed; tauto.
Qed.

(** C8. Every resource passes each collector's predicate under the empty
    filters. *)
Theorem empty_filters_match resource :
  ec2.matchesFilters resource types.empty = true
  ∧ s3.matchesFilters resource types.empty = true
  ∧ rds.matchesFilters resource types.empty = true
  ∧ iam.matchesFilters resource types.empty = true
  ∧ vpc.matchesFilters resource types.empty = true.
Proof.
  unfold ec2.matchesFilters, s3.matchesFilters, rds.matchesFilters,
    iam.matchesFilters, vpc.matchesFilters. simpl.
  rewrite tags_pass_empty. done.
Qed.

(** No predicate of a collector reads [filters.Status]: changing the
    statuses of the filters never changes the verdict. *)
Lemma status_never_read resource regions kinds tags statuses1 statuses2 after before :
  let with_status statuses :=
    {| types.Regions := regions; types.ResourceTypes := kinds;
       types.Tags := tags; types.Status := statuses;
       types.CreatedAfter := after; types.CreatedBefore := before |} in
  ec2.matchesFilters resource (with_status statuses1)
  = ec2.matchesFilters resource (with_status statuses2)
  ∧ s3.matchesFilters resource (with_status statuses1)
    = s3.matchesFilters resource (with_status statuses2)
  ∧ rds.matchesFilters resource (with_status statuses1)
    = rds.matchesFilters resource (with_status statuses2)
  ∧ iam.matchesFilters resource (with_status statuses1)
    = iam.matchesFilters resource (with_status statuses2)
  ∧ vpc.matchesFilters resource (with_status statuses1)
    = vpc.matchesFilters resource (with_status statuses2).
Proof. done. Qed.

End Filters.

(** C2, as stated, fails: with [created_after] equal to the creation time
    of the resource, 2024-01-10T00:00:00Z, the creation time is not strictly
    after the bound and the predicates of [s3] and [ec2] keep the resource;
    the same holds for [created_before]. *)
Lemma creation_bound_kept :
  types.CreatedAfter examples.created_after_jan_10
  = Some (models.CreatedAt examples.bucket)
  ∧ ¬ (examples.jan_10_2024 < models.CreatedAt examples.bucket)
  ∧ @s3.matchesFilters AsciiStrings examples.bucket examples.created_after_jan_10
    = true
  ∧ @ec2.matchesFilters AsciiStrings examples.instance examples.created_after_jan_10
    = true
  ∧ types.CreatedBefore examples.created_before_jan_10
    = Some (models.CreatedAt examples.bucket)
  ∧ @s3.matchesFilters AsciiStrings examples.bucket examples.created_before_jan_10
    = true
  ∧ @ec2.matchesFilters AsciiStrings examples.instance examples.created_before_jan_10
    = true.
Proof. split_and!; try reflexivity. vm_compute. discriminate. Qed.

(** A resource created one nanosecond before the bound is rejected, by
    the theorem. *)
Lemma creation_window_closed_witness :
  @s3.matchesFilters AsciiStrings examples.bucket
    {| types.Regions := []; types.ResourceTypes := []; types.Tags := ∅;
       types.Status := [];
       types.CreatedAfter := Some (examples.jan_10_2024 + 1);
       types.CreatedBefore := None |} ≠ true.
Proof.
  intros Hkept.
  apply (proj1 (proj2 (@creation_window_closed AsciiStrings examples.bucket
                         [] [] ∅ [] (Some (examples.jan_10_2024 + 1)) None)))
    in Hkept as (_ & Hafter & _).
  specialize (Hafter _ eq_refl). vm_compute in Hafter. by apply Hafter.
Defined.

(** C3 on the code: under [--status stopped], the predicates of [s3],
    [iam] and [rds] keep a resource whose state is "available" or
    "active". *)
Theorem status_filter_not_applied :
  types.Status examples.status_stopped = ["stopped"]
  ∧ (models.State (models.Status examples.bucket)
     ∉ types.Status examples.status_stopped)
  ∧ @s3.matchesFilters AsciiStrings examples.bucket examples.status_stopped = true
  ∧ (models.State (models.Status examples.user)
     ∉ types.Status examples.status_stopped)
  ∧ @iam.matchesFilters AsciiStrings examples.user examples.status_stopped = true
  ∧ (models.State (models.Status examples.database)
     ∉ types.Status examples.status_stopped)
  ∧ @rds.matchesFilters AsciiStrings examples.database examples.status_stopped = true.
Proof.
  split_and!; try reflexivity;
    intros Hin; apply list_elem_of_In in Hin; simpl in Hin;
    intuition discriminate.
Qed.

(** ** The registry *)

(** C9. [Register] fails on a nil provider and on a provider whose name is
    already registered; whenever it fails the registry is unchanged; and
    when it succeeds the name was free and the new map is the old one with
    this one entry added: one entry more, every other name as before. *)
Theorem register_append_only (r : providers.PluginRegistry)
    (provider : option providers.CloudProvider) :
  let r' := (providers.Register r provider).1 in
  let err := (providers.Register r provider).2 in
  (provider = None → is_Some err)
  ∧ (∀ p, provider = Some p →
          is_Some (providers.providers r !! providers.Name p) → is_Some err)
  ∧ (is_Some err → r' = r)
  ∧ (err = None →
     ∃ p, provider = Some p
          ∧ providers.providers r !! providers.Name p = None
          ∧ providers.providers r'
            = <[providers.Name p := p]> (providers.providers r)
          ∧ size (providers.providers r') = S (size (providers.providers r))
          ∧ ∀ name, name ≠ providers.Name p →
                    providers.providers r' !! name = providers.providers r !! name).
Proof.
  unfold providers.Register.
  destruct provider as [p|]; simpl.
  2: { split_and!; eauto; done. }
  destruct (String.eqb (providers.Name p) "") eqn:Hname; simpl.
  { split_and!; eauto; done. }
  destruct (providers.providers r !! providers.Name p) as [old|] eqn:Hold; simpl.
  { split_and!; eauto; done. }
  split_and!; try done.
  - intros q [= <-]. rewrite Hold. by intros [? ?].
  - intros _. exists p. split_and!; try done.
    + by apply map_size_insert_None.
    + intros name Hne. by rewrite lookup_insert_ne.
Qed.

(** Registering "aws" a second time fails and leaves the three providers
    in place. *)
Lemma register_append_only_witness :
  (providers.Register examples.three_providers (Some (examples.mock_provider "aws"))).1
  = examples.three_providers.
Proof.
  apply (proj1 (proj2 (proj2 (register_append_only examples.three_providers
                                (Some (examples.mock_provider "aws")))))).
  apply (proj1 (proj2 (register_append_only examples.three_providers
                         (Some (examples.mock_provider "aws"))))
           (examples.mock_provider "aws") eq_refl).
  vm_compute. eauto.
Defined.

(** The keys of a map, in any order, as a set of names. *)
Lemma range_keys_elem_of r names name :
  providers.range_keys r names →
  name ∈ names ↔ is_Some (providers.providers r !! name).
Proof.
  unfold providers.range_keys. intros ->.
  rewrite list_elem_of_fmap. split.
  - intros ([k v] & -> & Hin). apply elem_of_map_to_list in Hin. by eexists.
  - intros [v Hv]. exists (name, v). split; [done|]. by apply elem_of_map_to_list.
Qed.

Lemma range_keys_NoDup r names : providers.range_keys r names → NoDup names.
Proof.
  unfold providers.range_keys. intros ->. apply NoDup_fst_map_to_list.
Qed.

(** C10. Whatever order the traversal of the map appends the names in,
    [List] returns the registered names, each once, in ascending order of
    [String.le], the lexicographic order of the bytes; two registries with
    the same names registered give the same list, however they were filled
    and traversed. *)
Theorem list_sorted (r : providers.PluginRegistry) (names : list string) :
  providers.range_keys r names →
  StronglySorted String.le (providers.List_of names)
  ∧ NoDup (providers.List_of names)
  ∧ (∀ name, name ∈ providers.List_of names
             ↔ is_Some (providers.providers r !! name))
  ∧ providers.List_of names = providers.List r
  ∧ (∀ r2 names2,
       providers.range_keys r2 names2 →
       (∀ name, is_Some (providers.providers r2 !! name)
                ↔ is_Some (providers.providers r !! name)) →
       providers.List_of names2 = providers.List_of names).
Proof.
  intros Hrange.
  assert (Hperm : providers.List_of names ≡ₚ names) by apply merge_sort_Permutation.
  assert (Hsame : ∀ r2 names2,
            providers.range_keys r2 names2 →
            (∀ name, is_Some (providers.providers r2 !! name)
                     ↔ is_Some (providers.providers r !! name)) →
            providers.List_of names2 = providers.List_of names).
  { intros r2 names2 Hrange2 Hdom.
    apply (StronglySorted_unique String.le);
      [apply StronglySorted_merge_sort; apply _..|].
    unfold providers.List_of, providers.sort_Strings.
    rewrite !merge_sort_Permutation.
    apply NoDup_Permutation; [by eapply range_keys_NoDup..|].
    intros name. rewrite (range_keys_elem_of r2), (range_keys_elem_of r); done. }
  split_and!.
  - apply StronglySorted_merge_sort; apply _.
  - rewrite Hperm. by eapply range_keys_NoDup.
  - intros name. rewrite Hperm. by apply range_keys_elem_of.
  - symmetry. apply (Hsame r); [by unfold providers.range_keys|done].
  - done.
Qed.

(** After "gcp", "aws" and "azure" were registered in this order, a
    traversal that yields "gcp", "azure", "aws" still lists "aws", "azure",
    "gcp". *)
Lemma list_sorted_witness :
  providers.List_of ["gcp"; "azure"; "aws"] = ["aws"; "azure"; "gcp"]
  ∧ providers.List examples.three_providers = ["aws"; "azure"; "gcp"].
Proof.
  assert (Hrange : providers.range_keys examples.three_providers
                     ["gcp"; "azure"; "aws"]).
  { unfold providers.range_keys.
    let keys := eval vm_compute in
                  ((map_to_list (providers.providers examples.three_providers)).*1) in
    change ((map_to_list (providers.providers examples.three_providers)).*1)
      with keys.
    apply perm_skip, perm_swap. }
  pose proof (list_sorted examples.three_providers _ Hrange) as (_ & _ & _ & Heq & _).
  split; [reflexivity|]. rewrite <- Heq. reflexivity.
Defined.

(** ** The provider: authentication state *)

Lemma NewAWSProvider_unauthenticated cfg p :
  aws.NewAWSProvider cfg = Ok p → aws.IsAuthenticated p = false.
Proof. destruct cfg; [|done]. by intros [= <-]. Qed.

(** A failed [Authenticate] leaves the flag false, except on a
    configuration that is not an AWS configuration, where it leaves the
    provider as it was. *)
Lemma Authenticate_failed a p cfg p' err :
  aws.Authenticate a p cfg = (p', Some err) →
  aws.IsAuthenticated p' = false ∨ (p' = p ∧ ∃ name, cfg = config.OfOtherConfig name).
Proof.
  unfold aws.Authenticate. destruct cfg as [awsConfig|name].
  - destruct (aws.authenticator_Authenticate a awsConfig);
      [destruct (aws.authenticator_ValidateCredentials a awsConfig)|];
      intros [= <- ?]; by left.
  - intros [= <- ?]. right. eauto.
Qed.

(** A successful [Authenticate] sets the flag and the service clients. *)
Lemma Authenticate_succeeded a p cfg p' :
  aws.Authenticate a p cfg = (p', None) →
  aws.IsAuthenticated p' = true ∧ is_Some (aws.services p').
Proof.
  unfold aws.Authenticate. destruct cfg as [awsConfig|name]; [|done].
  destruct (aws.authenticator_Authenticate a awsConfig);
    [destruct (aws.authenticator_ValidateCredentials a awsConfig)|];
    intros [= <-]; simpl; eauto.
Qed.

(** An authenticated provider has its service clients: the property holds
    of a new provider and every [Authenticate] keeps it, so [GetResources]
    never meets a nil service pointer past its first test. *)
Lemma Authenticate_keeps_services a p cfg p' err :
  (aws.IsAuthenticated p = true → is_Some (aws.services p)) →
  aws.Authenticate a p cfg = (p', err) →
  aws.IsAuthenticated p' = true → is_Some (aws.services p').
Proof.
  intros Hp. unfold aws.Authenticate. destruct cfg as [awsConfig|name].
  - destruct (aws.authenticator_Authenticate a awsConfig);
      [destruct (aws.authenticator_ValidateCredentials a awsConfig)|];
      intros [= <- _]; simpl; eauto; done.
  - by intros [= <- _].
Qed.

(** A configuration that is not an AWS configuration is refused before
    anything is assigned: the provider is left as it was, authenticated or
    not. *)
Lemma Authenticate_other_config_keeps_flag a p name :
  aws.Authenticate a p (config.OfOtherConfig name)
  = (p, Some "invalid configuration type, expected *config.AWSConfig").
Proof. reflexivity. Qed.

(** C4, as stated, fails: [Authenticate] with a configuration that is not
    an AWS configuration fails, and on an authenticated provider it leaves
    the flag set; the calls after this failed authentication do not return
    the unauthenticated error: [GetResourcesByType] calls the EC2 collector
    and returns its instance, [GetResourceStatus] calls the EC2 service and
    returns the status, and [GetResources] has no run that ends with the
    unauthenticated error. *)
Lemma refused_configuration_keeps_access :
  aws.Authenticate examples.refused examples.accepted_provider
    (config.OfOtherConfig "gcp")
  = (examples.accepted_provider,
     Some "invalid configuration type, expected *config.AWSConfig")
  ∧ aws.IsAuthenticated examples.accepted_provider = true
  ∧ aws.GetResourcesByType examples.accepted_provider "ec2" types.empty
    = Some (Ok [examples.instance], [aws.CollectorCall aws.GetInstances])
  ∧ aws.GetResourceStatus examples.accepted_provider "i-1"
    = Some (Ok (models.Status examples.instance), [aws.InstanceStatusCall "i-1"])
  ∧ ¬ aws.GetResources examples.accepted_provider types.empty
        (Error "AWS provider is not authenticated", []).
Proof.
  split_and!; try reflexivity.
  intros Hrun. inversion Hrun as [Hflag|]. discriminate Hflag.
Qed.

(** C4, as the code has it. On an instance that was never authenticated,
    and on the instance that a failed [Authenticate] leaves when the
    configuration was an AWS configuration or the instance was
    unauthenticated before the call, [GetResources], [GetResourcesByType]
    and [GetResourceStatus] return the error "AWS provider is not
    authenticated" and nothing else, having made no call to a service
    client. The case left out is the one in which the claim fails: a
    configuration of another type refused on an authenticated instance. *)
Theorem unauthenticated_calls_fail (a : aws.Authenticator)
    (new : option config.AWSConfig) (p p' : aws.AWSProvider)
    (cfg : config.ProviderConfig) (err : string)
    (filters : types.ResourceFilters) (resourceType resourceID : string) :
  aws.NewAWSProvider new = Ok p'
  ∨ (aws.Authenticate a p cfg = (p', Some err)
     ∧ ((∃ awsConfig, cfg = config.OfAWSConfig awsConfig)
        ∨ aws.IsAuthenticated p = false)) →
  aws.GetResources p' filters (Error "AWS provider is not authenticated", [])
  ∧ (∀ out, aws.GetResources p' filters out →
            out = (Error "AWS provider is not authenticated", []))
  ∧ aws.GetResourcesByType p' resourceType filters
    = Some (Error "AWS provider is not authenticated", [])
  ∧ aws.GetResourceStatus p' resourceID
    = Some (Error "AWS provider is not authenticated", []).
Proof.
  intros Hstate.
  assert (Hflag : aws.IsAuthenticated p' = false).
  { destruct Hstate as [Hnew|[Hauth Hcase]].
    - by eapply NewAWSProvider_unauthenticated.
    - apply Authenticate_failed in Hauth as [?|[-> [name ->]]]; [done|].
      by destruct Hcase as [[awsConfig [=]]|?]. }
  split_and!.
  - by constructor.
  - intros out Hout. destruct Hout as [_|svc st Hauth _ _ _]; [done|congruence].
  - unfold aws.GetResourcesByType. by rewrite Hflag.
  - unfold aws.GetResourceStatus. by rewrite Hflag.
Qed.

(** A refused authentication de-authenticates the provider that an
    accepted one had authenticated: asking it for the "ec2" resources then
    fails without a call. A new provider fails in the same way. *)
Lemma unauthenticated_calls_fail_witness :
  aws.GetResourcesByType
    (aws.Authenticate examples.refused examples.accepted_provider
       (config.OfAWSConfig (examples.aws_config "us-east-1" []))).1
    "ec2" types.empty
  = Some (Error "AWS provider is not authenticated", [])
  ∧ aws.GetResources examples.new_provider types.empty
      (Error "AWS provider is not authenticated", []).
Proof.
  split.
  - apply (unauthenticated_calls_fail examples.refused None
             examples.accepted_provider
             (aws.Authenticate examples.refused examples.accepted_provider
                (config.OfAWSConfig (examples.aws_config "us-east-1" []))).1
             (config.OfAWSConfig (examples.aws_config "us-east-1" []))
             "AWS authentication failed: no valid credentials"
             types.empty "ec2" "i-1").
    right. split; [reflexivity|]. left. eexists. reflexivity.
  - apply (unauthenticated_calls_fail examples.refused
             (Some (examples.aws_config "us-east-1" []))
             examples.new_provider examples.new_provider
             (config.OfOtherConfig "gcp") "" types.empty "ec2" "i-1").
    left. reflexivity.
Defined.

(** ** The provider: fan-out and fan-in of [GetResources] *)
Section FanIn.
Context (svc : aws.Services) (filters : types.ResourceFilters).

Lemma collected_snoc sent c :
  aws.collected svc filters (sent ++ [c])
  = aws.collected svc filters sent
    ++ match aws.run svc c filters with Ok resources => resources | Error _ => [] end.
Proof.
  unfold aws.collected. rewrite map_app, concat_app. simpl. by rewrite app_nil_r.
Qed.

Lemma fan_invariant_start : aws.fan_invariant svc filters aws.fan_start [].
Proof. split; simpl; done. Qed.

Lemma running_not_nil (before : list aws.Collector) c after :
  before ++ c :: after ≠ [].
Proof. by destruct before. Qed.

(** Every step keeps the invariant, with the sender added to [sent]. *)
Lemma fan_invariant_step st sent st' :
  aws.fan_invariant svc filters st sent →
  aws.fan_step svc filters st st' →
  ∃ sent', aws.fan_invariant svc filters st' sent'.
Proof.
  intros [Hcalls Hrun Hres Hrl Hel Hrc Hec Hrn Hen] Hstep.
  destruct Hstep as
    [st before c after resources Hr Hok Hcap
    |st before c after err Hr Hfail Hcap
    |st Hr Hopen
    |st Hrclosed Hopen
    |st resources rest Hnil Hq
    |st Hnil Hq Hclosed
    |st err rest Hnil Hq
    |st Hnil Hq Hclosed].
  - exists (sent ++ [c]). split; simpl; try done.
    + by rewrite Hcalls, map_app.
    + rewrite <- Hrun, Hr, <- app_assoc. apply Permutation_app_head.
      simpl. apply Permutation_middle.
    + rewrite concat_app, collected_snoc, Hok, app_assoc, Hres. simpl.
      by rewrite app_nil_r.
    + rewrite !length_app. simpl. lia.
    + rewrite length_app. simpl. lia.
    + intros Hc%Hrc. rewrite Hr in Hc. by apply running_not_nil in Hc.
    + intros [_ Hc%Hrc]%Hrn. rewrite Hr in Hc. by apply running_not_nil in Hc.
  - exists (sent ++ [c]). split; simpl; try done.
    + by rewrite Hcalls, map_app.
    + rewrite <- Hrun, Hr, <- app_assoc. apply Permutation_app_head.
      simpl. apply Permutation_middle.
    + by rewrite collected_snoc, Hfail, app_nil_r.
    + rewrite length_app. simpl. lia.
    + rewrite !length_app. simpl. lia.
    + intros Hc%Hrc. rewrite Hr in Hc. by apply running_not_nil in Hc.
    + intros [_ Hc%Hec%Hrc]%Hen. rewrite Hr in Hc. by apply running_not_nil in Hc.
  - exists sent. split; simpl; try done.
    + by rewrite <- Hr.
    + intros [? ?]%Hrn. done.
  - exists sent. split; simpl; try done.
    + intros _. by apply Hrc.
    + intros [? ?]%Hrn. done.
    + intros [? ?]%Hen. done.
  - exists sent. split; simpl; try done.
    + rewrite <- Hres, Hq. simpl. by rewrite app_assoc.
    + rewrite Hq in Hrl. simpl in Hrl. lia.
  - exists sent. split; simpl; try done.
    + by rewrite <- Hres, Hq.
    + lia.
    + intros _. by apply Hrc.
  - exists sent. split; simpl; try done.
    rewrite Hq in Hel. simpl in Hel. lia.
  - exists sent. split; simpl; try done.
    + lia.
    + intros _. by apply Hec.
Qed.

Lemma fan_invariant_reachable st :
  rtc (aws.fan_step svc filters) aws.fan_start st →
  ∃ sent, aws.fan_invariant svc filters st sent.
Proof.
  intros Hsteps.
  revert st Hsteps.
  apply (rtc_ind_r (R := aws.fan_step svc filters)
           (fun st => ∃ sent, aws.fan_invariant svc filters st sent)).
  - exists []. apply fan_invariant_start.
  - intros st1 st2 _ Hstep [sent Hinv]. by eapply fan_invariant_step.
Qed.

(** Every step uses up some of the measure: no interleaving runs forever. *)
Lemma fan_step_measure st st' :
  aws.fan_step svc filters st st' →
  (aws.fan_measure st' < aws.fan_measure st)%nat.
Proof.
  unfold aws.fan_measure.
  destruct 1 as
    [st before c after resources Hr Hok Hcap
    |st before c after err Hr Hfail Hcap
    |st Hr Hopen
    |st Hrclosed Hopen
    |st resources rest Hnil Hq
    |st Hnil Hq Hclosed
    |st err rest Hnil Hq
    |st Hnil Hq Hclosed]; simpl;
    rewrite ?Hr, ?Hopen, ?Hrclosed, ?Hnil, ?Hq, ?Hclosed, ?length_app; simpl; lia.
Qed.

(** A reachable state that is not final can take a step: no interleaving
    is stuck, and no send ever waits for room in a buffer. *)
Lemma fan_progress st sent :
  aws.fan_invariant svc filters st sent →
  ¬ aws.fan_done st →
  ∃ st', aws.fan_step svc filters st st'.
Proof.
  intros [Hcalls Hrun Hres Hrl Hel Hrc Hec Hrn Hen] Hnot.
  assert (Hlen : (length sent + length (aws.running st) = 9)%nat).
  { apply Permutation_length in Hrun. by rewrite length_app in Hrun. }
  destruct (aws.running st) as [|c rest] eqn:Hr.
  - destruct (aws.resource_closed st) eqn:Hrclosed.
    + destruct (aws.error_closed st) eqn:Heclosed.
      * destruct (aws.resource_nil st) eqn:Hnil.
        -- destruct (aws.error_nil st) eqn:Henil.
           { destruct Hnot. by split. }
           destruct (aws.errorChan st) as [|err q] eqn:Hq; eexists.
           ++ by apply aws.step_errors_done.
           ++ by eapply aws.step_recv_error.
        -- destruct (aws.resourceChan st) as [|resources q] eqn:Hq; eexists.
           ++ by apply aws.step_resources_done.
           ++ by eapply aws.step_recv_resources.
      * eexists. by apply aws.step_close_errors.
    + eexists. by apply aws.step_close_resources.
  - simpl in Hlen. destruct (aws.run svc c filters) as [resources|err] eqn:Hc; eexists.
    + eapply (aws.step_send_resources svc filters st [] c rest); [done..|].
      unfold aws.chan_capacity. lia.
    + eapply (aws.step_send_error svc filters st [] c rest); [done..|].
      unfold aws.chan_capacity. lia.
Qed.

(** From every reachable state the call reaches its [return]. *)
Lemma fan_terminates n st sent :
  (aws.fan_measure st ≤ n)%nat →
  aws.fan_invariant svc filters st sent →
  ∃ st', rtc (aws.fan_step svc filters) st st' ∧ aws.fan_done st'.
Proof.
  revert st sent. induction n as [|n IH]; intros st sent Hn Hinv.
  - exists st. split; [done|].
    unfold aws.fan_measure in Hn. unfold aws.fan_done.
    destruct (aws.resource_nil st), (aws.error_nil st); try done; lia.
  - destruct (decide (aws.resource_nil st = true ∧ aws.error_nil st = true))
      as [Hdone|Hnot].
    { by exists st. }
    destruct (fan_progress st sent Hinv Hnot) as [st1 Hstep].
    destruct (fan_invariant_step st sent st1 Hinv Hstep) as [sent1 Hinv1].
    pose proof (fan_step_measure st st1 Hstep) as Hlt.
    destruct (IH st1 sent1 ltac:(lia) Hinv1) as (st' & Hsteps & Hdone).
    exists st'. split; [by eapply rtc_l|done].
Qed.

(** The interleaving of [GetResources_in_order], one phase at a time. *)
Lemma sends_in_order order : ∀ resources errs made,
  (length resources + length order ≤ aws.chan_capacity)%nat →
  (length errs + length order ≤ aws.chan_capacity)%nat →
  rtc (aws.fan_step svc filters)
    {| aws.running := order; aws.resourceChan := resources;
       aws.errorChan := errs;
       aws.resource_closed := false; aws.error_closed := false;
       aws.resource_nil := false; aws.error_nil := false;
       aws.allResources := []; aws.errors := []; aws.calls := made |}
    {| aws.running := [];
       aws.resourceChan := resources ++ (aws.sends svc filters order).1;
       aws.errorChan := errs ++ (aws.sends svc filters order).2;
       aws.resource_closed := false; aws.error_closed := false;
       aws.resource_nil := false; aws.error_nil := false;
       aws.allResources := []; aws.errors := [];
       aws.calls := made ++ map aws.CollectorCall order |}.
Proof.
  induction order as [|c order IH]; intros resources errs made Hr He; simpl.
  - rewrite !app_nil_r. apply rtc_refl.
  - simpl in Hr, He.
    destruct (aws.run svc c filters) as [found|err] eqn:Hc; simpl.
    + eapply rtc_l.
      { eapply (aws.step_send_resources svc filters _ [] c order found);
          simpl; [done|done|lia]. }
      simpl.
      pose proof (IH (resources ++ [found]) errs (made ++ [aws.CollectorCall c]))
        as Hrest.
      rewrite <- !app_assoc in Hrest. simpl in Hrest.
      apply Hrest; rewrite ?length_app; simpl; lia.
    + eapply rtc_l.
      { eapply (aws.step_send_error svc filters _ [] c order err);
          simpl; [done|done|lia]. }
      simpl.
      pose proof (IH resources (errs ++ [wrap_error (aws.failure_prefix c) err])
                    (made ++ [aws.CollectorCall c])) as Hrest.
      rewrite <- !app_assoc in Hrest. simpl in Hrest.
      apply Hrest; rewrite ?length_app; simpl; lia.
Qed.

Lemma drain_resources resources : ∀ errs enil found logged made,
  rtc (aws.fan_step svc filters)
    {| aws.running := []; aws.resourceChan := resources;
       aws.errorChan := errs;
       aws.resource_closed := true; aws.error_closed := true;
       aws.resource_nil := false; aws.error_nil := enil;
       aws.allResources := found; aws.errors := logged; aws.calls := made |}
    {| aws.running := []; aws.resourceChan := [];
       aws.errorChan := errs;
       aws.resource_closed := true; aws.error_closed := true;
       aws.resource_nil := true; aws.error_nil := enil;
       aws.allResources := found ++ concat resources; aws.errors := logged;
       aws.calls := made |}.
Proof.
  induction resources as [|r resources IH]; intros errs enil found logged made; simpl.
  - rewrite app_nil_r. apply rtc_once.
    by apply (aws.step_resources_done svc filters
                {| aws.running := []; aws.resourceChan := [];
                   aws.errorChan := errs;
                   aws.resource_closed := true; aws.error_closed := true;
                   aws.resource_nil := false; aws.error_nil := enil;
                   aws.allResources := found; aws.errors := logged;
                   aws.calls := made |}).
  - eapply rtc_l.
    { by eapply (aws.step_recv_resources svc filters _ r resources). }
    simpl. pose proof (IH errs enil (found ++ r) logged made) as Hrest.
    rewrite <- app_assoc in Hrest. apply Hrest.
Qed.

Lemma drain_errors errs : ∀ rnil found logged made,
  rtc (aws.fan_step svc filters)
    {| aws.running := []; aws.resourceChan := [];
       aws.errorChan := errs;
       aws.resource_closed := true; aws.error_closed := true;
       aws.resource_nil := rnil; aws.error_nil := false;
       aws.allResources := found; aws.errors := logged; aws.calls := made |}
    {| aws.running := []; aws.resourceChan := [];
       aws.errorChan := [];
       aws.resource_closed := true; aws.error_closed := true;
       aws.resource_nil := rnil; aws.error_nil := true;
       aws.allResources := found; aws.errors := logged ++ errs;
       aws.calls := made |}.
Proof.
  induction errs as [|e errs IH]; intros rnil found logged made; simpl.
  - rewrite app_nil_r. apply rtc_once.
    by apply (aws.step_errors_done svc filters
                {| aws.running := []; aws.resourceChan := [];
                   aws.errorChan := [];
                   aws.resource_closed := true; aws.error_closed := true;
                   aws.resource_nil := rnil; aws.error_nil := false;
                   aws.allResources := found; aws.errors := logged;
                   aws.calls := made |}).
  - eapply rtc_l.
    { by eapply (aws.step_recv_error svc filters _ e errs). }
    simpl. pose proof (IH rnil found (logged ++ [e]) made) as Hrest.
    rewrite <- app_assoc in Hrest. apply Hrest.
Qed.

Lemma in_order_reaches_return order :
  (length order ≤ aws.chan_capacity)%nat →
  rtc (aws.fan_step svc filters)
    {| aws.running := order; aws.resourceChan := []; aws.errorChan := [];
       aws.resource_closed := false; aws.error_closed := false;
       aws.resource_nil := false; aws.error_nil := false;
       aws.allResources := []; aws.errors := []; aws.calls := [] |}
    {| aws.running := []; aws.resourceChan := []; aws.errorChan := [];
       aws.resource_closed := true; aws.error_closed := true;
       aws.resource_nil := true; aws.error_nil := true;
       aws.allResources := concat (aws.sends svc filters order).1;
       aws.errors := (aws.sends svc filters order).2;
       aws.calls := map aws.CollectorCall order |}.
Proof.
  intros Hlen.
  generalize (sends_in_order order [] [] [] Hlen Hlen).
  generalize (aws.sends svc filters order). intros [resources errs] Hsends.
  simpl in Hsends. etrans; [exact Hsends|].
  eapply rtc_l.
  { by apply aws.step_close_resources. }
  eapply rtc_l.
  { by apply aws.step_close_errors. }
  cbn [aws.running aws.resourceChan aws.errorChan aws.resource_closed
       aws.error_closed aws.resource_nil aws.error_nil aws.allResources
       aws.errors aws.calls fst snd].
  etrans; [apply drain_resources|]. apply (drain_errors errs true _ []).
Qed.

End FanIn.

(** The interleaving that [GetResources_in_order] computes is one of the
    interleavings of [GetResources]. *)
Lemma GetResources_in_order_sound p filters out :
  aws.GetResources_in_order p filters = Some out → aws.GetResources p filters out.
Proof.
  unfold aws.GetResources_in_order.
  destruct (aws.IsAuthenticated p) eqn:Hauth; cbn [negb].
  - destruct (aws.services p) as [svc|] eqn:Hsvc; [|done].
    assert (Hlen : (length aws.goroutines ≤ aws.chan_capacity)%nat)
      by (vm_compute; lia).
    pose proof (in_order_reaches_return svc filters aws.goroutines Hlen) as Hreach.
    clear Hlen. revert Hreach.
    generalize (aws.sends svc filters aws.goroutines). intros sent Hreach Hout.
    injection Hout as <-.
    exact (aws.GetResources_collected p filters svc _ Hauth Hsvc Hreach
             (conj eq_refl eq_refl)).
  - intros Hout. injection Hout as <-. by constructor.
Qed.

(** C1. On an authenticated provider, whichever collectors fail,
    [GetResources] returns, and every result that it can return is a nil
    error with the resources of the collectors that succeeded, concatenated
    in the order in which their goroutines sent them (some arrangement
    [order] of the nine goroutines); each collector was called once. A
    collector's error is logged and never returned. *)
Theorem collector_failures_not_propagated (p : aws.AWSProvider)
    (svc : aws.Services) (filters : types.ResourceFilters) :
  aws.IsAuthenticated p = true →
  aws.services p = Some svc →
  (∃ out, aws.GetResources p filters out)
  ∧ (∀ out, aws.GetResources p filters out →
       ∃ order, order ≡ₚ aws.goroutines
                ∧ out = (Ok (aws.collected svc filters order),
                         map aws.CollectorCall order)).
Proof.
  intros Hauth Hsvc. split.
  - destruct (fan_terminates svc filters _ aws.fan_start [] (le_n _)
                (fan_invariant_start svc filters)) as (st & Hsteps & Hdone).
    eexists. by eapply aws.GetResources_collected.
  - intros out Hout.
    destruct Hout as [Hno|svc' st _ Hsvc' Hsteps [Hrnil Henil]]; [congruence|].
    assert (svc' = svc) as -> by congruence.
    destruct (fan_invariant_reachable svc filters st Hsteps)
      as [sent [Hcalls Hrun Hres _ _ Hcl _ Hrn _]].
    destruct (Hrn Hrnil) as [Hq Hclosed]. apply Hcl in Hclosed.
    exists sent. split.
    + by rewrite Hclosed, app_nil_r in Hrun.
    + rewrite Hq in Hres. simpl in Hres. rewrite app_nil_r in Hres.
      by rewrite Hres, Hcalls.
Qed.

(** With the S3 listing denied, the call returns, and without an error. *)
Lemma collector_failures_not_propagated_witness :
  aws.run examples.services_s3_denied aws.GetBuckets types.empty
  = Error "failed to list S3 buckets: AccessDenied"
  ∧ (∃ out, aws.GetResources examples.accepted_provider types.empty out)
  ∧ (∀ out, aws.GetResources examples.accepted_provider types.empty out →
       ∃ order, order ≡ₚ aws.goroutines
                ∧ out = (Ok (aws.collected examples.services_s3_denied
                               types.empty order),
                         map aws.CollectorCall order)).
Proof.
  split; [reflexivity|].
  apply (collector_failures_not_propagated examples.accepted_provider
           examples.services_s3_denied types.empty); reflexivity.
Defined.

(** The same call in the order of the [go] statements: the instance, the
    database and the user, and no bucket. *)
Lemma GetResources_in_order_example :
  aws.GetResources_in_order examples.accepted_provider types.empty
  = Some (Ok [examples.instance; examples.database; examples.user],
          map aws.CollectorCall aws.goroutines).
Proof. vm_compute. reflexivity. Qed.

(** * Further properties of the code *)

(** ** Tags and metadata of a resource *)

Lemma GetTag_SetTag_eq r key value :
  models.GetTag (models.SetTag r key value) key = (value, true).
Proof. unfold models.GetTag, models.SetTag. simpl. by rewrite lookup_insert_eq. Qed.

Lemma GetTag_SetTag_ne r key value other :
  other ≠ key →
  models.GetTag (models.SetTag r key value) other = models.GetTag r other.
Proof.
  intros Hne. unfold models.GetTag, models.SetTag. simpl.
  rewrite lookup_insert_ne by done.
  destruct (models.Tags r); [done|]. by rewrite lookup_empty.
Qed.

(** X1. [SetTag] then [GetTag]: the key reads back its value, every other
    key reads as before, also when the tag map was nil, and no other field
    of the resource changes. *)
Theorem tag_set_get (r : models.Resource) (key value other : string) :
  models.GetTag (models.SetTag r key value) key = (value, true)
  ∧ (other ≠ key →
     models.GetTag (models.SetTag r key value) other = models.GetTag r other)
  ∧ models.ID (models.SetTag r key value) = models.ID r
  ∧ models.Status (models.SetTag r key value) = models.Status r
  ∧ models.CreatedAt (models.SetTag r key value) = models.CreatedAt r
  ∧ models.Metadata (models.SetTag r key value) = models.Metadata r.
Proof.
  split_and!; try done.
  - apply GetTag_SetTag_eq.
  - apply GetTag_SetTag_ne.
Qed.

(** On the bucket tagged Env=prod, setting Team leaves Env readable. *)
Lemma tag_set_get_witness :
  models.GetTag (models.SetTag examples.bucket "Team" "core") "Env"
  = ("prod", true).
Proof.
  rewrite (proj1 (proj2 (tag_set_get examples.bucket "Team" "core" "Env")))
    by discriminate.
  reflexivity.
Defined.

(** X2. A key that no [SetTag] has set reads as the empty string and
    false: on a new resource every key is missing, and after setting tags
    a key is present exactly when it is one of them. *)
Theorem tag_missing (now : Time) (id name kind provider region : string)
    (tags : list (string * string)) (key : string) :
  let r := foldl (fun r kv => models.SetTag r kv.1 kv.2)
             (models.NewResource now id name kind provider region) tags in
  models.GetTag (models.NewResource now id name kind provider region) key
  = ("", false)
  ∧ ((models.GetTag r key).2 = true ↔ key ∈ tags.*1)
  ∧ (key ∉ tags.*1 → models.GetTag r key = ("", false)).
Proof.
  intros r.
  assert (Hgen : ∀ tags r0,
            (models.GetTag (foldl (fun r kv => models.SetTag r kv.1 kv.2) r0 tags)
               key).2 = true
            ↔ key ∈ tags.*1 ∨ (models.GetTag r0 key).2 = true).
  { clear. intros tags. induction tags as [|[k v] tags IH]; intros r0; simpl.
    - rewrite elem_of_nil. tauto.
    - rewrite IH, elem_of_cons. destruct (decide (key = k)) as [->|Hne].
      + rewrite GetTag_SetTag_eq. simpl. tauto.
      + rewrite GetTag_SetTag_ne by done. tauto. }
  assert (Hnew : models.GetTag (models.NewResource now id name kind provider region)
                   key = ("", false)).
  { unfold models.GetTag. simpl. by rewrite lookup_empty. }
  assert (Hiff : (models.GetTag r key).2 = true ↔ key ∈ tags.*1).
  { unfold r. rewrite Hgen, Hnew. simpl. intuition discriminate. }
  split_and!; [done|done|].
  intros Hnot. assert (Hfalse : (models.GetTag r key).2 ≠ true) by by rewrite Hiff.
  revert Hfalse. unfold models.GetTag.
  destruct (models.Tags r) as [m|]; [destruct (m !! key)|]; simpl; done.
Qed.

Lemma tag_missing_witness :
  models.GetTag
    (foldl (fun r kv => models.SetTag r kv.1 kv.2)
       (models.NewResource 0 "i-1" "web" "virtual_machine" "aws" "us-east-1")
       [("Env", "prod")]) "Team" = ("", false).
Proof.
  apply (proj2 (proj2 (tag_missing 0 "i-1" "web" "virtual_machine" "aws"
                         "us-east-1" [("Env", "prod")] "Team"))).
  simpl. intros Hin. apply list_elem_of_In in Hin. simpl in Hin.
  intuition discriminate.
Defined.

(** X3. [SetMetadata] then [GetMetadata]: the key reads back its value,
    every other key reads as before, also when the map was nil; a key never
    set on a new resource reads as nil and false; and the tags are
    untouched. *)
Theorem metadata_set_get (r : models.Resource) (key other : string)
    (value : models.MetaValue) (now : Time) (id name kind provider region : string) :
  models.GetMetadata (models.SetMetadata r key value) key = (Some value, true)
  ∧ (other ≠ key →
     models.GetMetadata (models.SetMetadata r key value) other
     = models.GetMetadata r other)
  ∧ models.GetMetadata (models.NewResource now id name kind provider region) key
    = (None, false)
  ∧ models.Tags (models.SetMetadata r key value) = models.Tags r.
Proof.
  unfold models.GetMetadata, models.SetMetadata. simpl. split_and!; try done.
  - by rewrite lookup_insert_eq.
  - intros Hne. rewrite lookup_insert_ne by done.
    destruct (models.Metadata r); [done|]. by rewrite lookup_empty.
Qed.

Lemma metadata_set_get_witness :
  models.GetMetadata
    (models.SetMetadata examples.bucket "versioning" (models.MetaString "Enabled"))
    "service" = (Some (models.MetaString "s3"), true).
Proof.
  rewrite (proj1 (proj2 (metadata_set_get examples.bucket "versioning" "service"
                           (models.MetaString "Enabled") 0 "" "" "" "" "")))
    by discriminate.
  reflexivity.
Defined.

(** ** State and health normalization *)

(** A switch whose results are all sent to themselves is idempotent. *)
Lemma switch_string_idempotent (cases : list (list string * string))
    (default s : string) :
  Forall (fun v => models.switch_string v cases default = v) (default :: cases.*2) →
  models.switch_string (models.switch_string s cases default) cases default
  = models.switch_string s cases default.
Proof.
  intros Hfixed. rewrite Forall_forall in Hfixed.
  apply Hfixed, switch_string_range.
Qed.

Lemma state_labels_converge :
  forallb
    (fun lk : list string * string =>
       forallb (fun l => String.eqb (models.GetStateFromString l) lk.2) lk.1)
    models.state_cases = true.
Proof. vm_compute. reflexivity. Qed.

(** X4. [GetStateFromString] returns one of the six states, is idempotent,
    sends every label of a case ("active", "available", "online" with
    "running", and so on) to the state of that case, and everything else,
    such as the EC2 states "stopping" and "shutting-down", to "unknown". *)
Theorem state_normalization (s : string) :
  models.GetStateFromString s ∈ models.resource_states
  ∧ models.GetStateFromString (models.GetStateFromString s)
    = models.GetStateFromString s
  ∧ (∀ labels state,
       (labels, state) ∈ models.state_cases → s ∈ labels →
       models.GetStateFromString s = state)
  ∧ ((∀ labels state, (labels, state) ∈ models.state_cases → s ∉ labels) →
     models.GetStateFromString s = models.StateUnknown)
  ∧ models.GetStateFromString ec2.InstanceStateNameStopping = models.StateUnknown
  ∧ models.GetStateFromString ec2.InstanceStateNameShuttingDown
    = models.StateUnknown.
Proof.
  split_and!; try reflexivity.
  - pose proof (switch_string_range s models.state_cases models.StateUnknown) as Hin.
    unfold models.GetStateFromString.
    apply list_elem_of_In. apply list_elem_of_In in Hin.
    simpl in *. tauto.
  - apply switch_string_idempotent. repeat constructor.
  - intros labels state Hcase Hlabel.
    apply list_elem_of_In in Hcase. apply list_elem_of_In in Hlabel.
    pose proof (proj1 (forallb_forall _ _) state_labels_converge _ Hcase) as Hall.
    apply String.eqb_eq. apply (proj1 (forallb_forall _ _) Hall _ Hlabel).
  - apply switch_string_default.
Qed.

Lemma state_normalization_witness :
  models.GetStateFromString "available" = models.StateRunning.
Proof.
  apply (proj1 (proj2 (proj2 (state_normalization "available")))
           ["running"; "active"; "available"; "online"]).
  - left.
  - do 2 right. left.
Defined.

(** X5. Every health value that a collector derives from a state (EC2
    instances, RDS instances and clusters, VPCs) is one of the four health
    values and is left unchanged by [GetHealthFromString], which is
    idempotent. *)
Theorem collector_health_canonical `{GoStringsCase} (state : string) :
  let canonical h :=
    h ∈ models.resource_healths ∧ models.GetHealthFromString h = h in
  canonical (ec2.mapInstanceHealthToHealth state)
  ∧ canonical (rds.mapDBStatusToHealth state)
  ∧ canonical (vpc.mapVPCStateToHealth state)
  ∧ canonical (models.GetHealthFromString state).
Proof.
  intros canonical.
  assert (Hall : ∀ h, h ∈ models.resource_healths → canonical h).
  { intros h Hin. split; [done|].
    apply list_elem_of_In in Hin. simpl in Hin.
    destruct Hin as [<-|[<-|[<-|[<-|[]]]]]; reflexivity. }
  assert (Hrange : ∀ s cases,
            Forall (fun v => v ∈ models.resource_healths) cases.*2 →
            models.switch_string s cases models.HealthUnknown
            ∈ models.resource_healths).
  { intros s cases Hcases.
    pose proof (switch_string_range s cases models.HealthUnknown) as Hin.
    apply elem_of_cons in Hin as [->|Hin].
    - do 3 right. left.
    - rewrite Forall_forall in Hcases. by apply Hcases. }
  split_and!; apply Hall, Hrange; repeat constructor.
Qed.

Lemma collector_health_canonical_witness :
  models.GetHealthFromString (ec2.mapInstanceHealthToHealth "stopping")
  = "unhealthy".
Proof.
  rewrite (proj2 (proj1 (@collector_health_canonical AsciiCase "stopping"))).
  reflexivity.
Defined.

(** ** Validation of the AWS configuration *)

Lemma Validate_disabled c :
  config.Enabled (config.Base c) = false → config.Validate c = (c, None).
Proof. intros Hoff. unfold config.Validate. by rewrite Hoff. Qed.

(** What [Validate] makes of an enabled configuration, case by case. *)
Lemma Validate_enabled c :
  config.Enabled (config.Base c) = true →
  let region :=
    if String.eqb (config.Region c) "" then default "" (head (config.GetRegions c))
    else config.Region c in
  let regions :=
    if (length (config.GetRegions c) =? 0)%nat then [region] else config.GetRegions c in
  let seconds :=
    if negb (String.eqb (config.RoleARN c) "") && (config.DurationSeconds c <=? 0)
    then 3600 else config.DurationSeconds c in
  if String.eqb (config.Region c) "" && (length (config.GetRegions c) =? 0)%nat
  then config.Validate c
       = (c, Some "AWS provider requires at least one region to be specified")
  else
    config.Validate c
    = (config.with_DurationSeconds
         (config.with_Regions (config.with_Region c region) regions) seconds,
       if negb (String.eqb (config.RoleARN c) "")
          && ((seconds <? 900) || (43200 <? seconds))
       then Some "duration_seconds must be between 900 and 43200 seconds"
       else None).
Proof.
  intros Hon. unfold config.Validate, config.GetRegions. rewrite Hon.
  destruct c as [[enabled regions] profile region key secret token role ext mfa secs].
  cbn in *. subst enabled.
  destruct (String.eqb region "") eqn:Hregion;
    destruct regions as [|first regions]; cbn; rewrite ?Hregion; cbn;
    rewrite ?andb_false_r; try done;
    destruct (String.eqb role "") eqn:Hrole; cbn; rewrite ?Hrole; cbn; try done;
    destruct (secs <=? 0) eqn:Hsecs; cbn; rewrite ?Hsecs; cbn; try done;
    destruct (secs <? 900), (43200 <? secs); done.
Qed.

(** X6. When [Validate] accepts an enabled configuration, the
    configuration it leaves has a region list that is not empty (the old
    list, or the default region alone when there was none), a default
    region (the old one, or the first of the list when there was none), and,
    when a role is to be assumed, a session duration between 900 and 43200
    seconds, 3600 standing in for a duration that was not positive. The
    credentials, the profile and the role are untouched. *)
Theorem validate_establishes (c c' : config.AWSConfig) :
  config.IsEnabled c = true →
  config.Validate c = (c', None) →
  config.GetRegions c' ≠ []
  ∧ (config.GetRegions c ≠ [] → config.GetRegions c' = config.GetRegions c)
  ∧ (config.GetRegions c = [] →
     config.Region c ≠ "" ∧ config.GetRegions c' = [config.Region c])
  ∧ (config.Region c ≠ "" → config.Region c' = config.Region c)
  ∧ (config.Region c = "" → head (config.GetRegions c) = Some (config.Region c'))
  ∧ (config.RoleARN c' ≠ "" →
     900 ≤ config.DurationSeconds c' ≤ 43200
     ∧ (config.DurationSeconds c ≤ 0 → config.DurationSeconds c' = 3600)
     ∧ (0 < config.DurationSeconds c →
        config.DurationSeconds c' = config.DurationSeconds c))
  ∧ config.RoleARN c' = config.RoleARN c
  ∧ config.Profile c' = config.Profile c
  ∧ config.AccessKeyID c' = config.AccessKeyID c
  ∧ config.SecretAccessKey c' = config.SecretAccessKey c
  ∧ config.IsEnabled c' = true.
Proof.
  unfold config.IsEnabled, config.GetRegions, config.Validate.
  intros Hon Hvalid. rewrite Hon in Hvalid.
  destruct c as [[enabled regions] profile region key secret token role ext mfa secs].
  cbn in *. subst enabled.
  destruct (String.eqb region "") eqn:Hregion;
    [apply String.eqb_eq in Hregion as ->
    |pose proof (proj1 (String.eqb_neq _ _) Hregion)];
    (destruct (String.eqb role "") eqn:Hrole;
     [apply String.eqb_eq in Hrole as ->
     |pose proof (proj1 (String.eqb_neq _ _) Hrole)]);
    destruct regions as [|first regions]; cbn in Hvalid;
    rewrite ?Hregion, ?Hrole, ?andb_false_r in Hvalid; cbn in Hvalid;
    rewrite ?Hrole in Hvalid; cbn in Hvalid; try done;
    try (injection Hvalid as <-; cbn; split_and!; done);
    destruct (Z.leb_spec secs 0); cbn in Hvalid;
    try (injection Hvalid as <-; cbn; split_and!; try done; intros _; lia);
    destruct (Z.ltb_spec secs 900); destruct (Z.ltb_spec 43200 secs);
    cbn in Hvalid; try done;
    injection Hvalid as <-; cbn; split_and!; try done; intros _; lia.
Qed.

Lemma validate_establishes_witness :
  config.GetRegions (config.Validate (examples.aws_config "eu-west-1" [])).1
  = ["eu-west-1"].
Proof.
  apply (validate_establishes (examples.aws_config "eu-west-1" [])
           (config.Validate (examples.aws_config "eu-west-1" [])).1);
    reflexivity.
Defined.

(** X7. Validating twice is validating once: [Validate] leaves a
    configuration that it maps to itself, with the same verdict. *)
Theorem validate_idempotent (c : config.AWSConfig) :
  config.Validate (config.Validate c).1 = config.Validate c.
Proof.
  destruct (config.Enabled (config.Base c)) eqn:Hon;
    [|by rewrite (Validate_disabled c Hon); apply Validate_disabled].
  pose proof (Validate_enabled c Hon) as Hc.
  destruct c as [[enabled regions] profile region key secret token role ext mfa secs].
  cbn in Hon. subst enabled.
  unfold config.with_DurationSeconds, config.with_Regions, config.with_Region,
    config.GetRegions in Hc.
  cbn -[config.Validate Z.leb Z.ltb String.eqb] in Hc.
  destruct (String.eqb region "") eqn:Hregion;
    destruct regions as [|first regions];
    cbn -[config.Validate Z.leb Z.ltb String.eqb] in Hc;
    rewrite Hc; cbn [fst]; try exact Hc; clear Hc.
  all: match goal with
       | |- config.Validate ?c' = _ =>
           pose proof (Validate_enabled c' eq_refl) as Hc'
       end.
  all: unfold config.with_DurationSeconds, config.with_Regions,
         config.with_Region, config.GetRegions in Hc';
       cbn -[config.Validate Z.leb Z.ltb String.eqb] in Hc'.
  all: rewrite ?Hregion in Hc'; cbn -[config.Validate Z.leb Z.ltb String.eqb] in Hc'.
  all: revert Hc'; rewrite ?andb_false_r;
       destruct (String.eqb role ""); cbn [negb andb orb];
       destruct (secs <=? 0) eqn:Hsecs;
       try destruct (String.eqb first "");
       cbn -[config.Validate Z.ltb Z.leb String.eqb];
       change (3600 <=? 0) with false; rewrite ?Hsecs;
       cbn -[config.Validate Z.ltb Z.leb String.eqb];
       intros Hc'; exact Hc'.
Qed.

Lemma Validate_accepted_regions c c' :
  config.IsEnabled c = true →
  config.Validate c = (c', None) →
  config.GetRegions c' ≠ [].
Proof.
  intros Hon Hvalid. pose proof (Validate_enabled c Hon) as Hc. cbn zeta in Hc.
  rewrite Hvalid in Hc.
  destruct (String.eqb (config.Region c) "" && (length (config.GetRegions c) =? 0)%nat);
    [discriminate Hc|].
  injection Hc as -> _. unfold config.GetRegions. cbn.
  destruct (config.Regions (config.Base c)); done.
Qed.

(** X8. For an enabled configuration that [Validate] accepted, the
    collectors of EC2, RDS and VPC query the filter's regions when there are
    any and the configured list otherwise, which is not empty: neither the
    default region alone nor the built-in "us-east-1" is ever their answer
    by fallback; and [GetAllRegions] of the authenticator is the same list. *)
Theorem validated_regions (get : config.AWSConfig → list string → list string)
    (c c' : config.AWSConfig) (filterRegions : list string) :
  get ∈ [ec2.getRegionsToQuery; rds.getRegionsToQuery; vpc.getRegionsToQuery] →
  config.IsEnabled c = true →
  config.Validate c = (c', None) →
  get c' filterRegions
  = (if (0 <? length filterRegions)%nat then filterRegions else config.GetRegions c')
  ∧ get c' filterRegions ≠ []
  ∧ config.GetAllRegions c' = config.GetRegions c'.
Proof.
  intros Hget Hon Hvalid.
  pose proof (Validate_accepted_regions c c' Hon Hvalid) as Hregions.
  assert (get = ec2.getRegionsToQuery) as ->.
  { apply list_elem_of_In in Hget. simpl in Hget.
    destruct Hget as [<-|[<-|[<-|[]]]]; reflexivity. }
  unfold ec2.getRegionsToQuery, config.GetAllRegions, config.GetRegions in *.
  destruct (config.Regions (config.Base c')) as [|r rs]; [done|].
  destruct filterRegions; simpl; done.
Qed.

Lemma validated_regions_witness :
  vpc.getRegionsToQuery (config.Validate (examples.aws_config "eu-west-1" [])).1 []
  = ["eu-west-1"].
Proof.
  apply (validated_regions vpc.getRegionsToQuery
           (examples.aws_config "eu-west-1" [])
           (config.Validate (examples.aws_config "eu-west-1" [])).1 []).
  - do 2 right. left.
  - reflexivity.
  - reflexivity.
Defined.

(** ** The registry: lookups, removal, and what every registry satisfies *)

Lemma Register_success r p :
  (providers.Register r (Some p)).2 = None →
  providers.Name p ≠ ""
  ∧ providers.providers r !! providers.Name p = None
  ∧ (providers.Register r (Some p)).1
    = {| providers.providers := <[providers.Name p := p]> (providers.providers r) |}.
Proof.
  unfold providers.Register.
  destruct (String.eqb_spec (providers.Name p) ""); [done|].
  destruct (providers.providers r !! providers.Name p) eqn:Hfree; done.
Qed.

Lemma Register_free r p :
  providers.Name p ≠ "" →
  providers.providers r !! providers.Name p = None →
  providers.Register r (Some p)
  = ({| providers.providers := <[providers.Name p := p]> (providers.providers r) |},
     None).
Proof.
  intros Hname Hfree. unfold providers.Register.
  destruct (String.eqb_spec (providers.Name p) ""); [done|]. by rewrite Hfree.
Qed.

Lemma List_elem_of r name :
  name ∈ providers.List r ↔ is_Some (providers.providers r !! name).
Proof.
  unfold providers.List, providers.List_of, providers.sort_Strings.
  rewrite merge_sort_Permutation. apply (range_keys_elem_of r).
  by unfold providers.range_keys.
Qed.

(** X9. After a successful [Register], [Get] returns the provider under
    its name, [Exists] holds for it, [Count] has grown by one and [List]
    has the name; the name was not there before, and every other name is
    looked up as before. *)
Theorem register_then_lookup (r : providers.PluginRegistry)
    (p : providers.CloudProvider) (other : string) :
  (providers.Register r (Some p)).2 = None →
  let r' := (providers.Register r (Some p)).1 in
  providers.Get r' (providers.Name p) = Ok p
  ∧ providers.Exists r' (providers.Name p) = true
  ∧ providers.Exists r (providers.Name p) = false
  ∧ providers.Count r' = S (providers.Count r)
  ∧ providers.Name p ∈ providers.List r'
  ∧ (other ≠ providers.Name p →
     providers.Get r' other = providers.Get r other
     ∧ providers.Exists r' other = providers.Exists r other
     ∧ (other ∈ providers.List r' ↔ other ∈ providers.List r)).
Proof.
  intros (Hname & Hfree & Hr')%Register_success r'. subst r'. rewrite Hr'.
  unfold providers.Get, providers.Exists, providers.Count. simpl.
  rewrite lookup_insert_eq, Hfree. split_and!; try done.
  - by apply map_size_insert_None.
  - apply List_elem_of. simpl. by rewrite lookup_insert_eq.
  - intros Hother. rewrite !List_elem_of. simpl.
    by rewrite lookup_insert_ne.
Qed.

Lemma register_then_lookup_witness :
  providers.Get
    (providers.Register examples.three_providers
       (Some (examples.mock_provider "oci"))).1 "oci"
  = Ok (examples.mock_provider "oci").
Proof.
  apply (register_then_lookup examples.three_providers
           (examples.mock_provider "oci") "aws").
  reflexivity.
Defined.

(** X10. [Unregister] fails exactly on a name that is not registered, and
    then changes nothing; when it succeeds the name is gone ([Get] fails
    with "provider ... not found", [Exists] is false), one entry fewer is
    counted, and every other name is looked up as before. *)
Theorem unregister_removes (r : providers.PluginRegistry) (name other : string) :
  let r' := (providers.Unregister r name).1 in
  let err := (providers.Unregister r name).2 in
  (err = None ↔ is_Some (providers.providers r !! name))
  ∧ (err = Some ("provider " +:+ name +:+ " not found") ∨ err = None)
  ∧ (is_Some err → r' = r)
  ∧ providers.Get r' name = Error ("provider " +:+ name +:+ " not found")
  ∧ providers.Exists r' name = false
  ∧ (err = None → providers.Count r = S (providers.Count r'))
  ∧ (other ≠ name → providers.Get r' other = providers.Get r other).
Proof.
  unfold providers.Unregister, providers.Get, providers.Exists, providers.Count.
  destruct (providers.providers r !! name) as [p|] eqn:Hname; simpl.
  - rewrite lookup_delete_eq. split_and!; try done.
    + by right.
    + intros _. rewrite <- (insert_delete_id (providers.providers r) name p) at 1
        by done.
      rewrite map_size_insert_None; [done|apply lookup_delete_eq].
    + intros Hother. by rewrite lookup_delete_ne.
  - rewrite Hname. split_and!; try done. by left.
Qed.

Lemma unregister_removes_witness :
  providers.Count examples.three_providers
  = S (providers.Count (providers.Unregister examples.three_providers "aws").1).
Proof.
  apply (unregister_removes examples.three_providers "aws" "gcp").
  reflexivity.
Defined.

(** X11. [Unregister] undoes a successful [Register], and it frees the
    name: after it, a provider of that name registers again. Registration is
    append-only only as long as nothing is unregistered. *)
Theorem unregister_undoes_register (r : providers.PluginRegistry)
    (p q : providers.CloudProvider) :
  ((providers.Register r (Some p)).2 = None →
   providers.Unregister (providers.Register r (Some p)).1 (providers.Name p)
   = (r, None))
  ∧ ((providers.Unregister r (providers.Name q)).2 = None →
     providers.Name q ≠ "" →
     (providers.Register (providers.Unregister r (providers.Name q)).1 (Some q)).2
     = None
     ∧ providers.Get
         (providers.Register (providers.Unregister r (providers.Name q)).1
            (Some q)).1 (providers.Name q) = Ok q).
Proof.
  split.
  - intros (Hname & Hfree & Hr')%Register_success. rewrite Hr'.
    unfold providers.Unregister. simpl. rewrite lookup_insert_eq.
    rewrite delete_insert_id by done. by destruct r.
  - intros Hgone Hname.
    rewrite Register_free; [|done|].
    + split; [done|]. unfold providers.Get. simpl. by rewrite lookup_insert_eq.
    + unfold providers.Unregister in *.
      destruct (providers.providers r !! providers.Name q); [|done].
      simpl. apply lookup_delete_eq.
Qed.

Lemma unregister_undoes_register_witness :
  providers.Get
    (providers.Register
       (providers.Unregister examples.three_providers "aws").1
       (Some (examples.mock_provider "aws"))).1 "aws"
  = Ok (examples.mock_provider "aws").
Proof.
  apply (unregister_undoes_register examples.three_providers
           examples.aws_provider (examples.mock_provider "aws")).
  - reflexivity.
  - discriminate.
Defined.

Lemma registry_built_names r :
  providers.registry_built r →
  ∀ name p, providers.providers r !! name = Some p →
            providers.Name p = name ∧ name ≠ "".
Proof.
  induction 1 as [|r provider _ IH|r removed _ IH]; intros name p.
  - simpl. by rewrite lookup_empty.
  - unfold providers.Register. destruct provider as [q|]; [|apply IH].
    destruct (String.eqb_spec (providers.Name q) ""); [apply IH|].
    destruct (providers.providers r !! providers.Name q); [apply IH|]. simpl.
    destruct (decide (name = providers.Name q)) as [->|Hne].
    + rewrite lookup_insert_eq. by intros [= <-].
    + rewrite lookup_insert_ne by done. apply IH.
  - unfold providers.Unregister.
    destruct (providers.providers r !! removed); [|apply IH]. simpl.
    destruct (decide (name = removed)) as [->|Hne].
    + by rewrite lookup_delete_eq.
    + rewrite lookup_delete_ne by done. apply IH.
Qed.

(** X12. In every registry that [Register] and [Unregister] have built
    from the new one, a provider is stored under its own name, which is not
    empty; so [GetProviderInfo] reports, for each registered provider once,
    the name that the provider itself gives, with its description and
    authentication state, and as many entries as [Count]. *)
Theorem registry_keys_are_names (r : providers.PluginRegistry) :
  providers.registry_built r →
  (∀ name p, providers.Get r name = Ok p → providers.Name p = name ∧ name ≠ "")
  ∧ providers.Exists r "" = false
  ∧ length (providers.GetProviderInfo r) = providers.Count r
  ∧ map providers.InfoName (providers.GetProviderInfo r) ≡ₚ providers.List r
  ∧ (∀ info, info ∈ providers.GetProviderInfo r →
       ∃ p, providers.Get r (providers.Name p) = Ok p
            ∧ providers.InfoName info = providers.Name p
            ∧ providers.InfoDescription info = providers.Description p
            ∧ providers.InfoIsAuthenticated info = providers.IsAuthenticated p).
Proof.
  intros Hbuilt. pose proof (registry_built_names r Hbuilt) as Hnames.
  unfold providers.Get, providers.Exists, providers.Count, providers.GetProviderInfo.
  split_and!.
  - intros name p. destruct (providers.providers r !! name) eqn:Hget; [|done].
    intros [= ->]. by apply Hnames.
  - apply bool_decide_eq_false. intros [p Hp]. by apply Hnames in Hp as [_ ?].
  - by rewrite length_map, length_map_to_list.
  - rewrite map_map. simpl.
    unfold providers.List, providers.List_of, providers.sort_Strings.
    by rewrite merge_sort_Permutation.
  - intros info ([name p] & -> & Hin)%list_elem_of_fmap.
    apply elem_of_map_to_list in Hin. simpl.
    destruct (Hnames _ _ Hin) as [Hname _]. exists p. by rewrite Hname, Hin.
Qed.

Lemma registry_keys_are_names_witness :
  providers.Exists examples.three_providers "" = false
  ∧ length (providers.GetProviderInfo examples.three_providers) = 3%nat.
Proof.
  assert (Hbuilt : providers.registry_built examples.three_providers).
  { unfold examples.three_providers. do 3 apply providers.built_Register.
    apply providers.built_new. }
  pose proof (registry_keys_are_names examples.three_providers Hbuilt)
    as (_ & Hexists & Hlength & _).
  split; [exact Hexists|]. rewrite Hlength. reflexivity.
Defined.

(** ** The provider: single-kind queries, completeness, authentication *)

(** What a switch returns comes from a case with a matching label, or is
    the default because no label matches. *)
Lemma switch_string_hit {A} (s : string) (cases : list (list string * A))
    (default : A) :
  (∃ labels, (labels, models.switch_string s cases default) ∈ cases ∧ s ∈ labels)
  ∨ (models.switch_string s cases default = default
     ∧ ∀ labels v, (labels, v) ∈ cases → s ∉ labels).
Proof.
  induction cases as [|[labels v] cases IH]; simpl.
  - right. split; [done|]. intros ?? Hin. by apply elem_of_nil in Hin.
  - destruct (models.case_of s labels) eqn:Hcase.
    + left. exists labels. split; [left|by apply case_of_true].
    + destruct IH as [(labels' & Hin & Hs)|[Hdef Hnone]].
      * left. exists labels'. split; [by right|done].
      * right. split; [done|]. intros labels' v' Hin.
        apply elem_of_cons in Hin as [[= -> ->]|Hin]; [by apply case_of_false|].
        by eapply Hnone.
Qed.

Lemma supported_types_dispatch :
  forallb
    (fun resourceType =>
       match models.switch_string resourceType
               (map (fun lc : list string * aws.Collector => (lc.1, Some lc.2))
                  aws.type_cases) None with
       | Some _ => true
       | None => false
       end)
    aws.GetSupportedResourceTypes = true.
Proof. vm_compute. reflexivity. Qed.

Lemma dispatch_labels_supported :
  forallb
    (fun lc : list string * aws.Collector =>
       forallb (fun l => existsb (String.eqb l) aws.GetSupportedResourceTypes) lc.1)
    aws.type_cases = true.
Proof. vm_compute. reflexivity. Qed.

(** X13. On an authenticated provider, [GetResourcesByType] serves exactly
    the types that [GetSupportedResourceTypes] lists: for a listed type it
    makes one call, to one collector, and returns what that collector
    returns, its error included; for any other string (the match is exact,
    so "EC2" is one) it makes no call and fails with "unsupported resource
    type". *)
Theorem by_type_serves_supported (p : aws.AWSProvider) (svc : aws.Services)
    (resourceType : string) (filters : types.ResourceFilters) :
  aws.IsAuthenticated p = true →
  aws.services p = Some svc →
  (resourceType ∈ aws.GetSupportedResourceTypes
   ↔ ∃ c, aws.GetResourcesByType p resourceType filters
          = Some (aws.run svc c filters, [aws.CollectorCall c]))
  ∧ (resourceType ∉ aws.GetSupportedResourceTypes
     ↔ aws.GetResourcesByType p resourceType filters
       = Some (Error ("unsupported resource type: " +:+ resourceType), []))
  ∧ "EC2" ∉ aws.GetSupportedResourceTypes.
Proof.
  intros Hauth Hsvc. unfold aws.GetResourcesByType. rewrite Hauth, Hsvc.
  cbn [negb].
  assert (Hiff : resourceType ∈ aws.GetSupportedResourceTypes
                 ↔ is_Some (models.switch_string resourceType
                              (map (fun lc : list string * aws.Collector =>
                                      (lc.1, Some lc.2)) aws.type_cases) None)).
  { split.
    - intros Hin. apply list_elem_of_In in Hin.
      pose proof (proj1 (forallb_forall _ _) supported_types_dispatch _ Hin) as Hok.
      cbv beta in Hok.
      destruct (models.switch_string _ _ _); [by eexists|discriminate Hok].
    - intros [c Hc].
      destruct (switch_string_hit resourceType
                  (map (fun lc : list string * aws.Collector => (lc.1, Some lc.2))
                     aws.type_cases) None) as [(labels & Hin & Hlabel)|[Hnone _]];
        [|congruence].
      apply list_elem_of_fmap in Hin as ([labels' c'] & [= -> _] & Hin).
      apply list_elem_of_In in Hin. apply list_elem_of_In in Hlabel.
      pose proof (proj1 (forallb_forall _ _) dispatch_labels_supported _ Hin)
        as Hall.
      pose proof (proj1 (forallb_forall _ _) Hall _ Hlabel) as Hex.
      apply existsb_exists in Hex as (t & Ht & ->%String.eqb_eq).
      by apply list_elem_of_In. }
  split_and!.
  - rewrite Hiff.
    destruct (models.switch_string resourceType _ None) as [c|]; split.
    + intros _. by exists c.
    + intros _. by eexists.
    + by intros [? ?].
    + by intros [? ?].
  - rewrite Hiff.
    destruct (models.switch_string resourceType _ None) as [c|]; split.
    + intros []. by eexists.
    + done.
    + done.
    + by intros _ [? ?].
  - intros Hin. apply list_elem_of_In in Hin. simpl in Hin.
    intuition discriminate.
Qed.

Lemma by_type_serves_supported_witness :
  ∃ c, aws.GetResourcesByType examples.accepted_provider "aurora" types.empty
       = Some (aws.run examples.services_s3_denied c types.empty,
               [aws.CollectorCall c]).
Proof.
  apply (by_type_serves_supported examples.accepted_provider
           examples.services_s3_denied "aurora" types.empty);
    [reflexivity|reflexivity|].
  apply list_elem_of_In. simpl. do 13 right. by left.
Defined.

(** The results of [GetResources] on an authenticated provider, by the
    order in which the goroutines sent. *)
Lemma GetResources_by_order p svc filters out :
  aws.IsAuthenticated p = true →
  aws.services p = Some svc →
  aws.GetResources p filters out →
  ∃ order, order ≡ₚ aws.goroutines
           ∧ out = (Ok (aws.collected svc filters order),
                    map aws.CollectorCall order).
Proof.
  intros Hauth Hsvc Hout.
  destruct Hout as [Hno|svc' st _ Hsvc' Hsteps [Hrnil Henil]]; [congruence|].
  assert (svc' = svc) as -> by congruence.
  destruct (fan_invariant_reachable svc filters st Hsteps)
    as [sent [Hcalls Hrun Hres _ _ Hcl _ Hrn _]].
  destruct (Hrn Hrnil) as [Hq Hclosed]. apply Hcl in Hclosed.
  exists sent. split.
  - by rewrite Hclosed, app_nil_r in Hrun.
  - rewrite Hq in Hres. simpl in Hres. rewrite app_nil_r in Hres.
    by rewrite Hres, Hcalls.
Qed.

Lemma collected_elem_of svc filters order r :
  r ∈ aws.collected svc filters order
  ↔ ∃ c found, c ∈ order ∧ aws.run svc c filters = Ok found ∧ r ∈ found.
Proof.
  unfold aws.collected. rewrite list_elem_of_In, in_concat. split.
  - intros (l & Hl & Hr). apply in_map_iff in Hl as (c & <- & Hc).
    destruct (aws.run svc c filters) as [found|] eqn:Hrun; [|destruct Hr].
    exists c, found. by rewrite !list_elem_of_In.
  - intros (c & found & Hc & Hrun & Hr). exists found.
    split; [|by apply list_elem_of_In].
    apply in_map_iff. exists c. rewrite Hrun. split; [done|].
    by apply list_elem_of_In.
Qed.

Lemma goroutines_all c : c ∈ aws.goroutines.
Proof. apply list_elem_of_In. destruct c; simpl; tauto. Qed.

(** X14. Fan-out completeness. Whatever the interleaving, the resources
    that [GetResources] returns on an authenticated provider are exactly the
    resources of the collectors that succeeded: a resource is in the result
    if and only if some collector returned it. Each of the nine collectors
    was called once, and whatever [GetResourcesByType] returns for a type is
    part of the result. *)
Theorem fan_out_complete (p : aws.AWSProvider) (svc : aws.Services)
    (filters : types.ResourceFilters) (resources : list models.Resource)
    (calls : list aws.Call) :
  aws.IsAuthenticated p = true →
  aws.services p = Some svc →
  aws.GetResources p filters (Ok resources, calls) →
  (∀ r, r ∈ resources
        ↔ ∃ c found, aws.run svc c filters = Ok found ∧ r ∈ found)
  ∧ calls ≡ₚ map aws.CollectorCall aws.goroutines
  ∧ resources ≡ₚ aws.collected svc filters aws.goroutines
  ∧ (∀ resourceType found made,
       aws.GetResourcesByType p resourceType filters = Some (Ok found, made) →
       found ⊆ resources).
Proof.
  intros Hauth Hsvc Hout.
  destruct (GetResources_by_order p svc filters _ Hauth Hsvc Hout)
    as (order & Hperm & [= -> ->]).
  assert (Hmem : ∀ r, r ∈ aws.collected svc filters order
                      ↔ ∃ c found, aws.run svc c filters = Ok found ∧ r ∈ found).
  { intros r. rewrite collected_elem_of. split.
    - intros (c & found & _ & ? & ?). eauto.
    - intros (c & found & ? & ?). exists c, found. split_and!; try done.
      rewrite Hperm. apply goroutines_all. }
  split_and!.
  - done.
  - by rewrite Hperm.
  - unfold aws.collected. by rewrite Hperm.
  - intros resourceType found made. unfold aws.GetResourcesByType.
    rewrite Hauth, Hsvc. cbn [negb].
    destruct (models.switch_string resourceType _ None) as [c|]; [|done].
    intros [= Hrun _] r Hr. apply Hmem. eauto.
Qed.

Lemma fan_out_complete_witness :
  [examples.instance; examples.database; examples.user]
  ≡ₚ aws.collected examples.services_s3_denied types.empty aws.goroutines.
Proof.
  apply (fan_out_complete examples.accepted_provider examples.services_s3_denied
           types.empty [examples.instance; examples.database; examples.user]
           (map aws.CollectorCall aws.goroutines) eq_refl eq_refl).
  apply GetResources_in_order_sound. vm_compute. reflexivity.
Defined.

(** X15. [Authenticate] with an AWS configuration returns nil exactly
    when it leaves the provider authenticated, and that is exactly when both
    calls of the authenticator succeed. Whatever the outcome, the given
    configuration replaces the old one; so a failed second authentication
    de-authenticates a provider that was authenticated. When the first call
    fails the service clients stay as they were; when only the validation
    fails they have been replaced although the provider is unauthenticated. *)
Theorem authenticate_outcome (a : aws.Authenticator) (p : aws.AWSProvider)
    (awsConfig : config.AWSConfig) :
  let p' := (aws.Authenticate a p (config.OfAWSConfig awsConfig)).1 in
  let err := (aws.Authenticate a p (config.OfAWSConfig awsConfig)).2 in
  (err = None ↔ aws.IsAuthenticated p' = true)
  ∧ (err = None
     ↔ ∃ svc caller,
         aws.authenticator_Authenticate a awsConfig = Ok svc
         ∧ aws.authenticator_ValidateCredentials a awsConfig = Ok caller
         ∧ aws.services p' = Some svc)
  ∧ aws.config p' = awsConfig
  ∧ (∀ msg, aws.authenticator_Authenticate a awsConfig = Error msg →
            err = Some ("AWS authentication failed: " +:+ msg)
            ∧ aws.services p' = aws.services p)
  ∧ (∀ svc msg,
       aws.authenticator_Authenticate a awsConfig = Ok svc →
       aws.authenticator_ValidateCredentials a awsConfig = Error msg →
       err = Some ("AWS credential validation failed: " +:+ msg)
       ∧ aws.services p' = Some svc).
Proof.
  unfold aws.Authenticate, aws.IsAuthenticated.
  destruct (aws.authenticator_Authenticate a awsConfig) as [svc|msg];
    [destruct (aws.authenticator_ValidateCredentials a awsConfig) as [caller|msg]|];
    simpl; split_and!; try done; try (split; [done|]).
  - split; [|done]. intros _. by exists svc, caller.
  - by intros (? & ? & ? & ? & ?).
  - intros ?? [= <-] [= <-]. done.
  - by intros (? & ? & ? & ? & ?).
  - intros ? [= <-]. done.
Qed.

Lemma authenticate_outcome_witness :
  aws.IsAuthenticated
    (aws.Authenticate examples.refused examples.accepted_provider
       (config.OfAWSConfig (examples.aws_config "eu-west-1" []))).1 = false
  ∧ aws.IsAuthenticated examples.accepted_provider = true.
Proof.
  split; [|reflexivity].
  pose proof (proj1 (authenticate_outcome examples.refused examples.accepted_provider
                       (examples.aws_config "eu-west-1" []))) as [_ Hflag].
  destruct (aws.IsAuthenticated _); [|reflexivity].
  specialize (Hflag eq_refl). discriminate Hflag.
Defined.

(** X16. A provider that the factory returns is authenticated and has its
    service clients and the given configuration, so its [GetResources]
    returns, and never with an error; the factory knows the name "aws" only,
    and an AWS provider wants an AWS configuration. *)
Theorem created_provider_ready (a : aws.Authenticator) (name : string)
    (cfg : config.ProviderConfig) (filters : types.ResourceFilters) :
  (∀ p, factory.CreateProvider a name cfg = Ok p →
        name ∈ factory.GetSupportedProviders
        ∧ cfg = config.OfAWSConfig (aws.config p)
        ∧ aws.IsAuthenticated p = true
        ∧ (∃ out, aws.GetResources p filters out)
        ∧ (∀ out, aws.GetResources p filters out → ∃ resources, out.1 = Ok resources))
  ∧ (name ∉ factory.GetSupportedProviders →
     factory.CreateProvider a name cfg = Error ("unsupported provider: " +:+ name))
  ∧ (∀ other, cfg = config.OfOtherConfig other →
     factory.CreateProvider a "aws" cfg
     = Error "invalid configuration type for AWS provider").
Proof.
  unfold factory.CreateProvider, factory.GetSupportedProviders. split_and!.
  - intros p. destruct (String.eqb_spec name "aws") as [->|]; [|done].
    unfold factory.createAWSProvider. destruct cfg as [awsConfig|]; [|done].
    simpl.
    destruct (aws.authenticator_Authenticate a awsConfig) as [svc|];
      [destruct (aws.authenticator_ValidateCredentials a awsConfig)|];
      try done.
    intros [= <-]. split_and!; try done.
    + left.
    + destruct (fan_terminates svc filters _ aws.fan_start [] (le_n _)
                  (fan_invariant_start svc filters)) as (st & Hsteps & Hdone).
      eexists. by eapply aws.GetResources_collected.
    + intros out Hout.
      destruct (GetResources_by_order
                  {| aws.config := awsConfig; aws.services := Some svc;
                     aws.authenticated := true |}
                  svc filters out eq_refl eq_refl Hout)
        as (order & _ & ->). by eexists.
  - intros Hname. destruct (String.eqb_spec name "aws") as [->|]; [|done].
    destruct Hname. left.
  - by intros other ->.
Qed.

Lemma created_provider_ready_witness :
  ∃ out, aws.GetResources examples.accepted_provider types.empty out.
Proof.
  apply (created_provider_ready examples.accepted "aws"
           (config.OfAWSConfig (examples.aws_config "us-east-1" []))
           types.empty).
  reflexivity.
Defined.

(** ** The filter predicates, clause by clause *)

Lemma guard_true (c rest : bool) :
  (if c then false else rest) = true ↔ c = false ∧ rest = true.
Proof. destruct c; split; try done; by intros [? ?]. Qed.

(** A clause over a slice: empty means no constraint, otherwise one of its
    elements must do. *)
Lemma slice_clause {A} (g : A → bool) (l : list A) :
  (0 <? length l)%nat && negb (existsb g l) = false
  ↔ l = [] ∨ ∃ x, x ∈ l ∧ g x = true.
Proof.
  destruct l as [|x l]; [naive_solver|].
  change ((0 <? length (x :: l))%nat) with true. cbn [andb].
  rewrite negb_false_iff, existsb_exists. split.
  - intros (y & Hin & Hy). right. exists y. by rewrite list_elem_of_In.
  - intros [?|(y & Hin & Hy)]; [done|]. exists y. by rewrite <- list_elem_of_In.
Qed.

Lemma tags_pass_spec resource (tags : gmap string string) :
  tags_pass resource tags = true
  ↔ ∀ key value, tags !! key = Some value →
                 models.GetTag resource key = (value, true).
Proof.
  unfold tags_pass. rewrite forallb_forall. split.
  - intros Hall key value Hkv.
    specialize (Hall (key, value)). simpl in Hall.
    assert (Hin : In (key, value) (map_to_list tags)).
    { apply list_elem_of_In. by apply elem_of_map_to_list. }
    specialize (Hall Hin). unfold models.GetTag in *.
    destruct (models.Tags resource) as [m|]; [destruct (m !! key)|];
      simpl in Hall; try done.
    by apply negb_true_iff, negb_false_iff, String.eqb_eq in Hall as ->.
  - intros Hall [key value] Hin. simpl.
    apply list_elem_of_In, elem_of_map_to_list in Hin.
    rewrite (Hall _ _ Hin). simpl. by rewrite String.eqb_refl.
Qed.


Section Clauses.
Context `{GoStrings}.
Implicit Types (resource : models.Resource) (filters : types.ResourceFilters).

Lemma region_clause resource regions :
  (0 <? length regions)%nat && negb (region_found resource regions) = false
  ↔ regions = [] ∨ models.Region resource ∈ regions.
Proof.
  unfold region_found. rewrite slice_clause. split.
  - intros [?|(region & Hin & ->%String.eqb_eq)]; auto.
  - intros [?|Hin]; [by left|]. right. eexists. split; [done|].
    apply String.eqb_refl.
Qed.

Lemma tag_clause resource tags :
  negb (tags_pass resource tags) = false
  ↔ ∀ key value, tags !! key = Some value →
                 models.GetTag resource key = (value, true).
Proof. by rewrite negb_false_iff, tags_pass_spec. Qed.

Lemma s3_matches_iff resource filters :
  s3.matchesFilters resource filters = true
  ↔ (types.ResourceTypes filters = []
     ∨ ∃ rt, rt ∈ types.ResourceTypes filters
             ∧ EqualFold rt "s3" || EqualFold rt "bucket"
               || EqualFold rt "object_storage" = true)
    ∧ (types.Regions filters = []
       ∨ models.Region resource ∈ types.Regions filters)
    ∧ (∀ key value, types.Tags filters !! key = Some value →
                    models.GetTag resource key = (value, true))
    ∧ (∀ a, types.CreatedAfter filters = Some a → a ≤ models.CreatedAt resource)
    ∧ (∀ b, types.CreatedBefore filters = Some b → models.CreatedAt resource ≤ b).
Proof.
  unfold s3.matchesFilters.
  do 3 rewrite guard_true.
  by rewrite slice_clause, region_clause, tag_clause, creation_tests_closed.
Qed.

Lemma rds_matches_iff resource filters :
  rds.matchesFilters resource filters = true
  ↔ (types.ResourceTypes filters = []
     ∨ ∃ rt, rt ∈ types.ResourceTypes filters
             ∧ EqualFold rt "rds" || EqualFold rt "rds_instance"
               || EqualFold rt "rds_cluster" || EqualFold rt "database"
               || EqualFold rt "postgres" || EqualFold rt "postgresql"
               || EqualFold rt "mysql" = true)
    ∧ (types.Regions filters = []
       ∨ models.Region resource ∈ types.Regions filters)
    ∧ (∀ key value, types.Tags filters !! key = Some value →
                    models.GetTag resource key = (value, true))
    ∧ (∀ a, types.CreatedAfter filters = Some a → a ≤ models.CreatedAt resource)
    ∧ (∀ b, types.CreatedBefore filters = Some b → models.CreatedAt resource ≤ b).
Proof.
  unfold rds.matchesFilters.
  do 3 rewrite guard_true.
  by rewrite slice_clause, region_clause, tag_clause, creation_tests_closed.
Qed.

Lemma iam_matches_iff resource filters :
  iam.matchesFilters resource filters = true
  ↔ (types.ResourceTypes filters = []
     ∨ ∃ rt, rt ∈ types.ResourceTypes filters
             ∧ EqualFold rt "iam" || EqualFold rt "iam_user"
               || EqualFold rt "iam_role" || EqualFold rt "iam_policy"
               || EqualFold rt "user" || EqualFold rt "role"
               || EqualFold rt "policy" = true)
    ∧ (∀ key value, types.Tags filters !! key = Some value →
                    models.GetTag resource key = (value, true))
    ∧ (∀ a, types.CreatedAfter filters = Some a → a ≤ models.CreatedAt resource)
    ∧ (∀ b, types.CreatedBefore filters = Some b → models.CreatedAt resource ≤ b).
Proof.
  unfold iam.matchesFilters.
  do 2 rewrite guard_true.
  by rewrite slice_clause, tag_clause, creation_tests_closed.
Qed.

Lemma vpc_matches_iff resource filters :
  vpc.matchesFilters resource filters = true
  ↔ (types.ResourceTypes filters = []
     ∨ ∃ rt, rt ∈ types.ResourceTypes filters
             ∧ EqualFold rt "vpc" || EqualFold rt "network"
               || EqualFold rt "security_group" || EqualFold rt "firewall" = true)
    ∧ (types.Regions filters = []
       ∨ models.Region resource ∈ types.Regions filters)
    ∧ (∀ key value, types.Tags filters !! key = Some value →
                    models.GetTag resource key = (value, true)).
Proof.
  unfold vpc.matchesFilters.
  do 3 rewrite guard_true.
  rewrite slice_clause, region_clause, tag_clause.
  split; [intros (? & ? & ? & _)|intros (? & ? & ?)]; done.
Qed.

Lemma ec2_matches_iff resource filters :
  ec2.matchesFilters resource filters = true
  ↔ (types.ResourceTypes filters = []
     ∨ ∃ rt, rt ∈ types.ResourceTypes filters
             ∧ EqualFold rt "ec2" || EqualFold rt "instance"
               || EqualFold rt "virtual_machine" = true)
    ∧ (∀ a, types.CreatedAfter filters = Some a → a ≤ models.CreatedAt resource)
    ∧ (∀ b, types.CreatedBefore filters = Some b → models.CreatedAt resource ≤ b).
Proof.
  unfold ec2.matchesFilters.
  rewrite guard_true.
  by rewrite slice_clause, creation_tests_closed.
Qed.

End Clauses.

(** X17. Narrowing the filters never lets more through. If the filters
    [narrow] ask for everything that [wide] asks for (no more kinds, no
    more regions, at least the same tags, a creation window inside the
    other one), every resource that a collector's predicate keeps under
    [narrow] is kept under [wide]. *)
Theorem narrower_filters_keep_less `{GoStrings} resource wide narrow :
  (types.ResourceTypes wide = []
   ∨ (types.ResourceTypes narrow ≠ []
      ∧ types.ResourceTypes narrow ⊆ types.ResourceTypes wide)) →
  (types.Regions wide = []
   ∨ (types.Regions narrow ≠ [] ∧ types.Regions narrow ⊆ types.Regions wide)) →
  types.Tags wide ⊆ types.Tags narrow →
  (∀ a, types.CreatedAfter wide = Some a →
        ∃ a', types.CreatedAfter narrow = Some a' ∧ a ≤ a') →
  (∀ b, types.CreatedBefore wide = Some b →
        ∃ b', types.CreatedBefore narrow = Some b' ∧ b' ≤ b) →
  (ec2.matchesFilters resource narrow = true → ec2.matchesFilters resource wide = true)
  ∧ (s3.matchesFilters resource narrow = true → s3.matchesFilters resource wide = true)
  ∧ (rds.matchesFilters resource narrow = true → rds.matchesFilters resource wide = true)
  ∧ (iam.matchesFilters resource narrow = true → iam.matchesFilters resource wide = true)
  ∧ (vpc.matchesFilters resource narrow = true → vpc.matchesFilters resource wide = true).
Proof.
  intros Hkinds Hregions Htags Hafter Hbefore.
  assert (Hkind : ∀ alias : string → bool,
             (types.ResourceTypes narrow = []
              ∨ ∃ rt, rt ∈ types.ResourceTypes narrow ∧ alias rt = true) →
             types.ResourceTypes wide = []
             ∨ ∃ rt, rt ∈ types.ResourceTypes wide ∧ alias rt = true).
  { intros alias Hnarrow. destruct Hkinds as [?|[Hne Hsub]]; [by left|].
    destruct Hnarrow as [?|(rt & Hin & Hrt)]; [done|].
    right. exists rt. split; [by apply Hsub|done]. }
  assert (Hregion : types.Regions narrow = []
                    ∨ models.Region resource ∈ types.Regions narrow →
                    types.Regions wide = []
                    ∨ models.Region resource ∈ types.Regions wide).
  { intros Hnarrow. destruct Hregions as [?|[Hne Hsub]]; [by left|].
    destruct Hnarrow as [?|Hin]; [done|]. right. by apply Hsub. }
  assert (Htag : (∀ key value, types.Tags narrow !! key = Some value →
                     models.GetTag resource key = (value, true)) →
                 ∀ key value, types.Tags wide !! key = Some value →
                     models.GetTag resource key = (value, true)).
  { intros Hnarrow key value Hkv. apply Hnarrow.
    by eapply lookup_weaken. }
  assert (Hwa : (∀ a, types.CreatedAfter narrow = Some a →
                      a ≤ models.CreatedAt resource) →
                ∀ a, types.CreatedAfter wide = Some a →
                     a ≤ models.CreatedAt resource).
  { intros Hnarrow a Ha. destruct (Hafter _ Ha) as (a' & Ha' & Hle).
    specialize (Hnarrow _ Ha'). lia. }
  assert (Hwb : (∀ b, types.CreatedBefore narrow = Some b →
                      models.CreatedAt resource ≤ b) →
                ∀ b, types.CreatedBefore wide = Some b →
                     models.CreatedAt resource ≤ b).
  { intros Hnarrow b Hb. destruct (Hbefore _ Hb) as (b' & Hb' & Hle).
    specialize (Hnarrow _ Hb'). lia. }
  rewrite !ec2_matches_iff, !s3_matches_iff, !rds_matches_iff,
    !iam_matches_iff, !vpc_matches_iff.
  split_and!; intros Hnarrow; destruct_and!; split_and!; auto.
Qed.

Lemma narrower_filters_keep_less_witness :
  @s3.matchesFilters AsciiStrings examples.bucket types.empty = true.
Proof.
  refine (proj1 (proj2 (@narrower_filters_keep_less AsciiStrings examples.bucket
                          types.empty examples.created_after_jan_10
                          _ _ _ _ _)) _).
  - by left.
  - by left.
  - reflexivity.
  - intros a Ha. vm_compute in Ha. discriminate Ha.
  - intros b Hb. vm_compute in Hb. discriminate Hb.
  - vm_compute. reflexivity.
Defined.

Lemma mock_tags_pass resource tags :
  mocks.tags_pass resource tags = tags_pass resource tags.
Proof.
  reflexivity.
Qed.

Lemma mock_matches_iff resource filters :
  mocks.matchesFilters resource filters = true
  ↔ (types.Regions filters = []
     ∨ models.Region resource ∈ types.Regions filters)
    ∧ (types.ResourceTypes filters = []
       ∨ models.Type_ resource ∈ types.ResourceTypes filters)
    ∧ (∀ key value, types.Tags filters !! key = Some value →
                    models.GetTag resource key = (value, true))
    ∧ (types.Status filters = []
       ∨ models.State (models.Status resource) ∈ types.Status filters)
    ∧ (∀ a, types.CreatedAfter filters = Some a → a ≤ models.CreatedAt resource)
    ∧ (∀ b, types.CreatedBefore filters = Some b → models.CreatedAt resource ≤ b).
Proof.
  assert (Helem : ∀ (x : string) (l : list string),
             (∃ y, y ∈ l ∧ String.eqb x y = true) ↔ x ∈ l).
  { intros x l. split.
    - by intros (y & Hin & ->%String.eqb_eq).
    - intros Hin. exists x. split; [done|apply String.eqb_refl]. }
  unfold mocks.matchesFilters.
  do 4 rewrite guard_true.
  rewrite !slice_clause, mock_tags_pass, negb_false_iff,
    tags_pass_spec, creation_tests_closed, !Helem.
  done.
Qed.

(** X18. The test double against the S3 collector. Under filters that name
    no kind, the double keeps a resource exactly when the S3 predicate keeps
    it and the status clause holds: the double applies every clause of the
    production predicate and, unlike it, the status filter. *)
Theorem double_adds_status_clause `{GoStrings} resource filters :
  types.ResourceTypes filters = [] →
  mocks.matchesFilters resource filters = true
  ↔ s3.matchesFilters resource filters = true
    ∧ (types.Status filters = []
       ∨ models.State (models.Status resource) ∈ types.Status filters).
Proof.
  intros Hkinds. rewrite mock_matches_iff, s3_matches_iff, Hkinds.
  split; [intros (? & ? & ? & ? & ? & ?)|intros ((? & ? & ? & ? & ?) & ?)];
    split_and!; auto.
Qed.

Lemma double_adds_status_clause_witness :
  mocks.matchesFilters examples.bucket examples.status_stopped ≠ true
  ∧ @s3.matchesFilters AsciiStrings examples.bucket examples.status_stopped = true.
Proof.
  split; [|vm_compute; reflexivity].
  intros Hkept.
  apply (proj1 (@double_adds_status_clause AsciiStrings examples.bucket
                  examples.status_stopped eq_refl)) in Hkept as [_ Hstatus].
  vm_compute in Hstatus. destruct Hstatus as [Hnil|Hin]; [discriminate Hnil|].
  apply list_elem_of_singleton in Hin. discriminate Hin.
Defined.

Lemma List_filter_sublist {A} (f : A → bool) (l : list A) :
  List.filter f l `sublist_of` l.
Proof.
  induction l as [|x l IH]; simpl; [done|].
  destruct (f x); [by apply sublist_skip|by apply sublist_cons].
Qed.

(** X19. What the double returns. With no error set for "GetResources",
    the call returns, in the order in which they were added, exactly the
    stored resources that pass the double's predicate, whatever the
    authentication flag says; adding a resource appends it to the result
    when it passes and changes nothing otherwise. *)
Theorem double_returns_matching m filters :
  mocks.errors m !! "GetResources" = None →
  ∃ kept,
    mocks.GetResources m filters = Ok kept
    ∧ (∀ flag, mocks.GetResources (mocks.SetAuthenticated m flag) filters = Ok kept)
    ∧ kept `sublist_of` mocks.resources m
    ∧ (∀ resource, resource ∈ kept
         ↔ resource ∈ mocks.resources m
           ∧ mocks.matchesFilters resource filters = true)
    ∧ (∀ resource,
         mocks.GetResources (mocks.AddResource m resource) filters
         = Ok (if mocks.matchesFilters resource filters
               then kept ++ [resource] else kept)).
Proof.
  intros Hnone. eexists. unfold mocks.GetResources. simpl. rewrite Hnone.
  split_and!; [done|done|..].
  - apply List_filter_sublist.
  - intros resource. rewrite list_elem_of_In, filter_In, <- list_elem_of_In. done.
  - intros resource. rewrite List.filter_app. simpl.
    destruct (mocks.matchesFilters resource filters); [done|].
    by rewrite app_nil_r.
Qed.

Lemma double_returns_matching_witness :
  ∃ kept,
    mocks.GetResources
      (mocks.AddResource (mocks.AddResource mocks.NewMockAWSProvider examples.bucket)
         examples.instance)
      examples.status_stopped = Ok kept
    ∧ kept = [].
Proof.
  destruct (double_returns_matching
              (mocks.AddResource
                 (mocks.AddResource mocks.NewMockAWSProvider examples.bucket)
                 examples.instance)
              examples.status_stopped eq_refl)
    as (kept & Hget & _ & _ & _ & _).
  exists kept. split; [exact Hget|].
  vm_compute in Hget. by injection Hget as <-.
Defined.

(** ** The EC2 collector *)

(** X20. The filters that [buildEC2Filters] hands to the API: one filter
    "instance-state-name" carrying the statuses exactly when statuses are
    asked for, one filter "tag:<key>" carrying the single value for every
    tag asked for, and nothing else; no filter has an empty list of
    values. *)
Theorem ec2_api_filters filters :
  (∀ statuses,
     {| ec2.FilterName := "instance-state-name"; ec2.Values := statuses |}
       ∈ ec2.buildEC2Filters filters
     ↔ statuses = types.Status filters ∧ types.Status filters ≠ [])
  ∧ (∀ key value,
       {| ec2.FilterName := "tag:" +:+ key; ec2.Values := [value] |}
         ∈ ec2.buildEC2Filters filters
       ↔ types.Tags filters !! key = Some value)
  ∧ length (ec2.buildEC2Filters filters)
    = ((if types.Status filters is [] then 0 else 1) + size (types.Tags filters))%nat
  ∧ (∀ filter, filter ∈ ec2.buildEC2Filters filters → ec2.Values filter ≠ []).
Proof.
  unfold ec2.buildEC2Filters. split_and!.
  - intros statuses. rewrite elem_of_app, list_elem_of_fmap. split.
    + intros [Hin|([key value] & Heq & _)]; [|discriminate Heq].
      destruct (types.Status filters); simpl in Hin.
      * by apply elem_of_nil in Hin.
      * apply list_elem_of_singleton in Hin. by injection Hin as ->.
    + intros [-> Hne]. left. destruct (types.Status filters); [done|].
      simpl. by apply list_elem_of_singleton.
  - intros key value. rewrite elem_of_app, list_elem_of_fmap. split.
    + intros [Hin|([key' value'] & Heq & Hin)].
      * destruct (types.Status filters); simpl in Hin.
        -- by apply elem_of_nil in Hin.
        -- apply list_elem_of_singleton in Hin. discriminate Hin.
      * simpl in Heq. injection Heq as Hk Hv. cbv [String.append] in Hk. subst key' value'.
        by apply elem_of_map_to_list in Hin.
    + intros Hkv. right. exists (key, value). split; [done|].
      by apply elem_of_map_to_list.
  - rewrite length_app, length_map, length_map_to_list.
    by destruct (types.Status filters).
  - intros filter. rewrite elem_of_app, list_elem_of_fmap.
    intros [Hin|(kv & -> & _)]; [|done].
    destruct (types.Status filters); simpl in Hin.
    + by apply elem_of_nil in Hin.
    + by apply list_elem_of_singleton in Hin as ->.
Qed.

Section EC2.
Context `{GoStrings}.

(** The instances that the pages of one region give: those of the pages
    that pass the predicate, in order. *)
Lemma instances_of_pages_ok region filters pages instances :
  (∀ err, Error err ∉ pages) →
  ec2.instances_of_pages region filters pages instances
  = Ok (instances
        ++ flat_map
             (fun page =>
                match page with
                | Ok page => List.filter (fun r => ec2.matchesFilters r filters) page
                | Error _ => []
                end) pages).
Proof.
  revert instances. induction pages as [|[page|err] pages IH];
    intros instances Hok; simpl.
  - by rewrite app_nil_r.
  - rewrite IH, <- app_assoc; [done|].
    intros err Hin. apply (Hok err). by right.
  - destruct (Hok err). by left.
Qed.

Lemma instances_of_pages_error region filters pages instances err :
  Error err ∈ pages →
  ∃ msg, ec2.instances_of_pages region filters pages instances = Error msg.
Proof.
  revert instances. induction pages as [|[page|err'] pages IH];
    intros instances Hin; simpl.
  - by apply elem_of_nil in Hin.
  - apply elem_of_cons in Hin as [Heq|Hin]; [discriminate Heq|]. by apply IH.
  - by eexists.
Qed.

Lemma pages_failed_or_not {A} (pages : list (result A)) :
  (∃ err, Error err ∈ pages) ∨ (∀ err, Error err ∉ pages).
Proof.
  induction pages as [|[page|err] pages [[err' Hin]|Hnone]].
  - right. intros err Hin. by apply elem_of_nil in Hin.
  - left. exists err'. by right.
  - right. intros err' Hin.
    apply elem_of_cons in Hin as [Heq|Hin]; [discriminate Heq|]. by eapply Hnone.
  - left. exists err. by left.
  - left. exists err. by left.
Qed.

Lemma region_loop api filters regions allInstances :
  foldl
    (fun allInstances region =>
       match ec2.getInstancesInRegion api region filters with
       | Error _ => allInstances
       | Ok instances => allInstances ++ instances
       end)
    allInstances regions
  = allInstances
    ++ flat_map
         (fun region =>
            match ec2.getInstancesInRegion api region filters with
            | Error _ => []
            | Ok instances => instances
            end) regions.
Proof.
  revert allInstances. induction regions as [|region regions IH];
    intros allInstances; simpl.
  - by rewrite app_nil_r.
  - rewrite IH. destruct (ec2.getInstancesInRegion api region filters); [|done].
    by rewrite app_assoc.
Qed.

End EC2.

(** X21. What [GetInstances] returns. The call never fails. An instance is
    in its result exactly when it is on a page of one of the regions
    queried, none of that region's pages failed, and it passes the EC2
    predicate: a region with a failed page contributes nothing, not even
    the instances of the pages before the failure. *)
Theorem instances_from_whole_regions `{GoStrings}
    (api : ec2.DescribeInstancesPages) cfg filters :
  ∃ instances,
    ec2.GetInstances api cfg filters = Ok instances
    ∧ ∀ resource,
        resource ∈ instances
        ↔ ∃ region page,
            region ∈ ec2.getRegionsToQuery cfg (types.Regions filters)
            ∧ (∀ err, Error err ∉ api region (ec2.buildEC2Filters filters))
            ∧ Ok page ∈ api region (ec2.buildEC2Filters filters)
            ∧ resource ∈ page
            ∧ ec2.matchesFilters resource filters = true.
Proof.
  eexists. split; [done|]. intros resource.
  rewrite region_loop. simpl.
  rewrite list_elem_of_In, in_flat_map. split.
  - intros (region & Hregion & Hin). exists region.
    unfold ec2.getInstancesInRegion in Hin.
    destruct (pages_failed_or_not (api region (ec2.buildEC2Filters filters)))
      as [[err Herr]|Hnone].
    + destruct (instances_of_pages_error region filters _ [] err Herr) as [msg Hmsg].
      rewrite Hmsg in Hin. destruct Hin.
    + rewrite (instances_of_pages_ok _ _ _ _ Hnone) in Hin. simpl in Hin.
      apply in_flat_map in Hin as ([page|err] & Hpage & Hin); [|destruct Hin].
      apply filter_In in Hin as [Hin Hmatch].
      exists page. rewrite !list_elem_of_In. done.
  - intros (region & page & Hregion & Hnone & Hpage & Hin & Hmatch).
    exists region. split; [by apply list_elem_of_In|].
    unfold ec2.getInstancesInRegion.
    rewrite (instances_of_pages_ok _ _ _ _ Hnone). simpl.
    apply in_flat_map. exists (Ok page). split; [by apply list_elem_of_In|].
    apply filter_In. by rewrite <- list_elem_of_In.
Qed.
(** ** The inventory command: truncation, column widths, filters *)

Lemma length_append (s1 s2 : string) :
  String.length (s1 +:+ s2) = (String.length s1 + String.length s2)%nat.
Proof.
  induction s1 as [|c s1 IH]; [done|].
  change (String c s1 +:+ s2) with (String c (s1 +:+ s2)). simpl. by rewrite IH.
Qed.

Lemma length_substring (n : nat) (s : string) :
  String.length (String.substring 0 n s) = Nat.min n (String.length s).
Proof.
  revert n. induction s as [|c s IH]; intros [|n]; simpl; try done.
  by rewrite IH.
Qed.

Lemma substring_prefix (n : nat) (s : string) :
  ∃ rest, s = String.substring 0 n s +:+ rest.
Proof.
  revert n. induction s as [|c s IH]; intros [|n]; simpl.
  - by exists "".
  - by exists "".
  - by exists (String c s).
  - destruct (IH n) as [rest Hrest]. exists rest.
    change (String c (String.substring 0 n s) +:+ rest)
      with (String c (String.substring 0 n s +:+ rest)).
    by rewrite <- Hrest.
Qed.

(** X22. [truncateString] panics exactly for a negative width (the slice
    bound is then out of range, whatever the string). For any other width
    the result has [min(len(s), maxLen)] bytes: it is [s] itself when [s]
    fits, a prefix of [s] followed by "..." when the width is above three,
    and a bare prefix of [s] for a width of at most three. *)
Theorem truncate_fits (s : string) (maxLen : Z) :
  (cli.truncateString s maxLen = None ↔ maxLen < 0)
  ∧ ∀ t, cli.truncateString s maxLen = Some t →
      cli.len t = Z.min (cli.len s) maxLen
      ∧ (cli.len s ≤ maxLen → t = s)
      ∧ (maxLen < cli.len s → 3 < maxLen →
         ∃ head rest, t = head +:+ "..." ∧ s = head +:+ rest)
      ∧ (maxLen < cli.len s → maxLen ≤ 3 → ∃ rest, s = t +:+ rest).
Proof.
  unfold cli.truncateString, cli.len.
  pose proof (Nat2Z.is_nonneg (String.length s)) as Hlen.
  destruct (Z.leb_spec (Z.of_nat (String.length s)) maxLen) as [Hfits|Hlong].
  - split; [split; [done|lia]|]. intros t [= <-]. split_and!; try done; lia.
  - destruct (Z.leb_spec maxLen 3) as [Hsmall|Hwide].
    + destruct (Z.ltb_spec maxLen 0) as [Hneg|Hpos].
      * split; [done|]. intros t Ht. discriminate Ht.
      * split; [split; [done|lia]|]. intros t [= <-]. split_and!.
        -- rewrite length_substring. lia.
        -- lia.
        -- lia.
        -- intros _ _. apply substring_prefix.
    + split; [split; [done|lia]|]. intros t [= <-]. split_and!.
      * rewrite length_append, length_substring. simpl. lia.
      * lia.
      * intros _ _.
        destruct (substring_prefix (Z.to_nat (maxLen - 3)) s) as [rest Hrest].
        by exists (String.substring 0 (Z.to_nat (maxLen - 3)) s), rest.
      * lia.
Qed.

Lemma truncate_fits_witness :
  cli.len "produc..." = Z.min (cli.len "production-database") 9.
Proof.
  apply (proj2 (truncate_fits "production-database" 9) "produc...").
  reflexivity.
Defined.

(** The widths after the loop of [calculateOptimalWidths]: no column has
    shrunk, and every column holds the value of every resource seen. *)
Lemma widen_loop (resources : list models.Resource) (w : cli.Widths) :
  let w' := foldl cli.widen w resources in
  (cli.maxID w ≤ cli.maxID w' ∧ cli.maxName w ≤ cli.maxName w'
   ∧ cli.maxType w ≤ cli.maxType w' ∧ cli.maxRegion w ≤ cli.maxRegion w'
   ∧ cli.maxStatus w ≤ cli.maxStatus w' ∧ cli.maxTags w ≤ cli.maxTags w')
  ∧ ∀ resource, resource ∈ resources →
      cli.len (models.ID resource) ≤ cli.maxID w'
      ∧ cli.len (models.Name resource) ≤ cli.maxName w'
      ∧ cli.len (models.Type_ resource) ≤ cli.maxType w'
      ∧ cli.len (models.Region resource) ≤ cli.maxRegion w'
      ∧ cli.len (models.State (models.Status resource)) ≤ cli.maxStatus w'
      ∧ cli.len (cli.resource_tag_string resource) ≤ cli.maxTags w'.
Proof.
  revert w. induction resources as [|first resources IH]; intros w; simpl.
  - split; [lia|]. intros resource Hin. by apply elem_of_nil in Hin.
  - destruct (IH (cli.widen w first)) as [Hgrown Hholds].
    assert (Hstep :
      (cli.maxID w ≤ cli.maxID (cli.widen w first)
       ∧ cli.len (models.ID first) ≤ cli.maxID (cli.widen w first))
      ∧ (cli.maxName w ≤ cli.maxName (cli.widen w first)
         ∧ cli.len (models.Name first) ≤ cli.maxName (cli.widen w first))
      ∧ (cli.maxType w ≤ cli.maxType (cli.widen w first)
         ∧ cli.len (models.Type_ first) ≤ cli.maxType (cli.widen w first))
      ∧ (cli.maxRegion w ≤ cli.maxRegion (cli.widen w first)
         ∧ cli.len (models.Region first) ≤ cli.maxRegion (cli.widen w first))
      ∧ (cli.maxStatus w ≤ cli.maxStatus (cli.widen w first)
         ∧ cli.len (models.State (models.Status first))
           ≤ cli.maxStatus (cli.widen w first))
      ∧ (cli.maxTags w ≤ cli.maxTags (cli.widen w first)
         ∧ cli.len (cli.resource_tag_string first)
           ≤ cli.maxTags (cli.widen w first))).
    { unfold cli.widen. simpl.
      repeat match goal with
             | |- context [?a <? ?b] => destruct (Z.ltb_spec a b)
             end; lia. }
    split; [lia|]. intros resource Hin.
    apply elem_of_cons in Hin as [->|Hin]; [lia|by apply Hholds].
Qed.

(** X23. The column widths of the table. Every width is at least 12 and at
    most the cap of its column (50, 40, 30, 20, 15 and 80 for the
    identifier, name, kind, region, status and tags), and every column holds
    each resource's value with two bytes of padding unless the cap cuts
    it. *)
Theorem widths_bounded (resources : list models.Resource) :
  let w := cli.calculateOptimalWidths resources in
  (12 ≤ cli.maxID w ≤ 50 ∧ 12 ≤ cli.maxName w ≤ 40 ∧ 12 ≤ cli.maxType w ≤ 30
   ∧ 12 ≤ cli.maxRegion w ≤ 20 ∧ 12 ≤ cli.maxStatus w ≤ 15
   ∧ 12 ≤ cli.maxTags w ≤ 80)
  ∧ ∀ resource, resource ∈ resources →
      Z.min (cli.len (models.ID resource) + 2) 50 ≤ cli.maxID w
      ∧ Z.min (cli.len (models.Name resource) + 2) 40 ≤ cli.maxName w
      ∧ Z.min (cli.len (models.Type_ resource) + 2) 30 ≤ cli.maxType w
      ∧ Z.min (cli.len (models.Region resource) + 2) 20 ≤ cli.maxRegion w
      ∧ Z.min (cli.len (models.State (models.Status resource)) + 2) 15
        ≤ cli.maxStatus w
      ∧ Z.min (cli.len (cli.resource_tag_string resource) + 2) 80 ≤ cli.maxTags w.
Proof.
  intros w. subst w. unfold cli.calculateOptimalWidths.
  destruct (widen_loop resources
              {| cli.maxID := 10; cli.maxName := 10; cli.maxType := 10;
                 cli.maxRegion := 10; cli.maxStatus := 10; cli.maxTags := 10 |})
    as [Hgrown Hholds].
  simpl in Hgrown. cbn zeta. cbn [cli.maxID cli.maxName cli.maxType cli.maxRegion
                                 cli.maxStatus cli.maxTags].
  unfold cli.min.
  repeat match goal with
         | |- context [?a <? ?b] => destruct (Z.ltb_spec a b)
         end;
    (split; [lia|]); intros resource Hin; specialize (Hholds resource Hin); lia.
Qed.

Lemma widths_bounded_witness :
  Z.min (cli.len (models.ID examples.instance) + 2) 50
  ≤ cli.maxID (cli.calculateOptimalWidths [examples.bucket; examples.instance]).
Proof.
  apply (proj2 (widths_bounded [examples.bucket; examples.instance])
           examples.instance).
  apply list_elem_of_In. simpl. right. left. reflexivity.
Defined.

(** Where [cut_equals] cuts: before the first "=". *)
Lemma cut_equals_Some (s key value : string) :
  cli.cut_equals s = Some (key, value)
  ↔ s = key +:+ "=" +:+ value
    ∧ cli.equals_sign ∉ String.list_ascii_of_string key.
Proof.
  revert key. induction s as [|c s IH]; intros key; simpl.
  - split; [done|]. intros [Hs _]. by destruct key.
  - destruct (Ascii.eqb_spec c cli.equals_sign) as [->|Hc].
    + split.
      * intros [= <- <-]. split; [done|]. apply not_elem_of_nil.
      * intros [Hs Hkey]. destruct key as [|k key].
        -- by injection Hs as ->.
        -- injection Hs as <- _. destruct Hkey. simpl. by left.
    + destruct (cli.cut_equals s) as [[before after]|] eqn:Hcut.
      * split.
        -- intros [= <- <-]. destruct (proj1 (IH before) eq_refl) as [-> Hkey].
           split; [done|]. simpl. intros Hin.
           apply elem_of_cons in Hin as [Heq|Hin]; [by destruct Hc|done].
        -- intros [Hs Hkey]. destruct key as [|k key].
           ++ injection Hs as -> _. by destruct Hc.
           ++ injection Hs as <- Hs. simpl in Hkey.
              apply not_elem_of_cons in Hkey as [_ Hkey].
              by injection (proj2 (IH key) (conj Hs Hkey)) as -> ->.
      * split; [done|]. intros [Hs Hkey]. destruct key as [|k key].
        -- injection Hs as -> _. by destruct Hc.
        -- injection Hs as <- Hs. simpl in Hkey.
           apply not_elem_of_cons in Hkey as [_ Hkey].
           discriminate (proj2 (IH key) (conj Hs Hkey)).
Qed.

Lemma cut_equals_None (s : string) :
  cli.cut_equals s = None ↔ cli.equals_sign ∉ String.list_ascii_of_string s.
Proof.
  induction s as [|c s IH]; simpl.
  - split; [intros _; apply not_elem_of_nil|done].
  - destruct (Ascii.eqb_spec c cli.equals_sign) as [->|Hc].
    + split; [done|]. intros Hnot. destruct Hnot. by left.
    + rewrite not_elem_of_cons, <- IH.
      destruct (cli.cut_equals s) as [[before after]|]; split; try done.
      by intros [_ ?].
Qed.

(** X24. [strings.SplitN(s, "=", 2)] as the tag loop uses it: an argument
    without "=" comes back alone, and [key=value] whose key has no "=" comes
    back as its key and its value, which may itself contain "=". The split
    is the inverse of the formatting [key=value]. *)
Theorem split_tag_argument (s key value : string) :
  (cli.equals_sign ∉ String.list_ascii_of_string s → cli.SplitN_equals_2 s = [s])
  ∧ (cli.equals_sign ∉ String.list_ascii_of_string key →
     cli.SplitN_equals_2 (key +:+ "=" +:+ value) = [key; value])
  ∧ (cli.SplitN_equals_2 s = [key; value] →
     s = key +:+ "=" +:+ value
     ∧ cli.equals_sign ∉ String.list_ascii_of_string key).
Proof.
  unfold cli.SplitN_equals_2. split_and!.
  - intros Hnone. by rewrite (proj2 (cut_equals_None s) Hnone).
  - intros Hkey.
    by rewrite (proj2 (cut_equals_Some _ key value) (conj eq_refl Hkey)).
  - destruct (cli.cut_equals s) as [[before after]|] eqn:Hcut; [|done].
    intros [= -> ->]. by apply cut_equals_Some.
Qed.

Lemma split_tag_argument_witness :
  cli.SplitN_equals_2 ("Env" +:+ "=" +:+ "a=b") = ["Env"; "a=b"].
Proof.
  apply (split_tag_argument "" "Env" "a=b").
  vm_compute. intros Hin.
  repeat (apply elem_of_cons in Hin as [Heq|Hin]; [discriminate Heq|]).
  by apply elem_of_nil in Hin.
Defined.

(** The tag loop, when it runs to the end: every argument had an "=", and
    a key of the result holds the value of the last argument with that key,
    or, when no argument has the key, what it held before. *)
Lemma parse_tags_accepts (tagStrs : list string) (tags tags' : gmap string string) :
  cli.parse_tags tagStrs tags = (tags', None) →
  (∀ tagStr, tagStr ∈ tagStrs →
     ∃ key value, cli.cut_equals tagStr = Some (key, value))
  ∧ ∀ key value,
      tags' !! key = Some value
      ↔ (∃ before tagStr after,
           tagStrs = before ++ tagStr :: after
           ∧ cli.cut_equals tagStr = Some (key, value)
           ∧ ∀ later value', later ∈ after →
                             cli.cut_equals later ≠ Some (key, value'))
        ∨ (tags !! key = Some value
           ∧ ∀ tagStr value', tagStr ∈ tagStrs →
                              cli.cut_equals tagStr ≠ Some (key, value')).
Proof.
  revert tags. induction tagStrs as [|first tagStrs IH]; intros tags; simpl.
  - intros [= <-]. split.
    + intros tagStr Hin. by apply elem_of_nil in Hin.
    + intros key value. split.
      * intros Hkv. right. split; [done|]. intros ?? Hin.
        by apply elem_of_nil in Hin.
      * intros [(before & tagStr & after & Heq & _)|[Hkv _]]; [|done].
        by destruct before.
  - unfold cli.SplitN_equals_2.
    destruct (cli.cut_equals first) as [[key1 value1]|] eqn:Hfirst; [|done].
    intros Hrest. destruct (IH _ Hrest) as [Hall Hiff]. split.
    + intros tagStr Hin. apply elem_of_cons in Hin as [->|Hin]; eauto.
    + intros key value. rewrite Hiff. split.
      * intros [(before & tagStr & after & -> & Hcut & Hlater)|[Hkv Hnone]].
        -- left. by exists (first :: before), tagStr, after.
        -- destruct (decide (key = key1)) as [->|Hne].
           ++ rewrite lookup_insert_eq in Hkv. injection Hkv as ->.
              left. by exists [], first, tagStrs.
           ++ rewrite lookup_insert_ne in Hkv by done.
              right. split; [done|]. intros tagStr value' Hin.
              apply elem_of_cons in Hin as [->|Hin]; [|by apply Hnone].
              rewrite Hfirst. by intros [= <- _].
      * intros [(before & tagStr & after & Heq & Hcut & Hlater)|[Hkv Hnone]].
        -- destruct before as [|b before]; simpl in Heq.
           ++ injection Heq as <- <-. rewrite Hfirst in Hcut.
              injection Hcut as -> ->. right.
              split; [apply lookup_insert_eq|done].
           ++ injection Heq as <- ->. left. by exists before, tagStr, after.
        -- assert (key ≠ key1) as Hne.
           { intros ->. eapply (Hnone first value1); [by left|done]. }
           right. rewrite lookup_insert_ne by done. split; [done|].
           intros tagStr value' Hin. apply Hnone. by right.
Qed.

(** X25. What [parseInventoryFilters] accepts and what it builds. When it
    returns no error, the regions, kinds and statuses are the options'
    verbatim; every tag argument had an "="; the filters have the tag
    [key] with [value] exactly when some argument is [key=value], cut at
    its first "=", and no later argument has that key, so that among
    arguments with the same key the last one decides; and a creation bound
    is set exactly when its option is not empty, to the instant that the
    date parses to. So no call with a tag argument that lacks "="
    succeeds. *)
Theorem parsed_filters `{GoTime} (opts : cli.InventoryOptions)
    (filters : types.ResourceFilters) :
  cli.parseInventoryFilters opts = (filters, None) →
  types.Regions filters = cli.Regions opts
  ∧ types.ResourceTypes filters = cli.ResourceTypes opts
  ∧ types.Status filters = cli.Status opts
  ∧ (∀ tagStr, tagStr ∈ cli.Tags opts →
       cli.equals_sign ∈ String.list_ascii_of_string tagStr)
  ∧ (∀ key value,
       types.Tags filters !! key = Some value
       ↔ ∃ before after,
           cli.Tags opts = before ++ ((key +:+ "=" +:+ value) :: after)
           ∧ (cli.equals_sign ∉ String.list_ascii_of_string key)
           ∧ ∀ value', key +:+ "=" +:+ value' ∉ after)
  ∧ (if String.eqb (cli.CreatedAfter opts) "" then types.CreatedAfter filters = None
     else ∃ t, ParseDate (cli.CreatedAfter opts) = Ok t
               ∧ types.CreatedAfter filters = Some t)
  ∧ (if String.eqb (cli.CreatedBefore opts) "" then types.CreatedBefore filters = None
     else ∃ t, ParseDate (cli.CreatedBefore opts) = Ok t
               ∧ types.CreatedBefore filters = Some t).
Proof.
  unfold cli.parseInventoryFilters.
  destruct (cli.parse_tags (cli.Tags opts) ∅) as [tags [err|]] eqn:Hparse; [done|].
  destruct (parse_tags_accepts _ _ _ Hparse) as [Hall Hiff].
  assert (Htags :
    (∀ tagStr, tagStr ∈ cli.Tags opts →
       cli.equals_sign ∈ String.list_ascii_of_string tagStr)
    ∧ (∀ key value,
         tags !! key = Some value
         ↔ ∃ before after,
             cli.Tags opts = before ++ ((key +:+ "=" +:+ value) :: after)
             ∧ (cli.equals_sign ∉ String.list_ascii_of_string key)
             ∧ ∀ value', key +:+ "=" +:+ value' ∉ after)).
  { split.
    - intros tagStr Hin. destruct (Hall _ Hin) as (key & value & Hcut).
      destruct (decide (cli.equals_sign ∈ String.list_ascii_of_string tagStr))
        as [|Hnot]; [done|].
      apply cut_equals_None in Hnot. congruence.
    - intros key value. rewrite Hiff. split.
      + intros [(before & tagStr & after & Heq & Hcut & Hlater)|[Hold _]];
          [|by rewrite lookup_empty in Hold].
        apply cut_equals_Some in Hcut as [-> Hkey].
        exists before, after. split_and!; [done|done|].
        intros value' Hin. eapply (Hlater _ value' Hin).
        by apply cut_equals_Some.
      + intros (before & after & Heq & Hkey & Hlater). left.
        exists before, (key +:+ "=" +:+ value), after. split_and!; [done|..].
        * by apply cut_equals_Some.
        * intros later value' Hin [-> _]%cut_equals_Some.
          by apply (Hlater value'). }
  destruct (String.eqb (cli.CreatedAfter opts) "");
    [|destruct (ParseDate (cli.CreatedAfter opts)) as [after|]; [|done]];
    (destruct (String.eqb (cli.CreatedBefore opts) "");
     [|destruct (ParseDate (cli.CreatedBefore opts)) as [before|]; [|done]]);
    simpl; intros [= <-]; simpl; destruct Htags as (? & ?);
    split_and!; eauto.
Qed.

(** Of [--tag a=1 --tag a=2 --tag b=3] the filters keep [a=2]. *)
Lemma parsed_filters_witness :
  types.Tags
    (@cli.parseInventoryFilters {| ParseDate := fun _ => Error "no date" |}
       {| cli.Regions := []; cli.ResourceTypes := [];
          cli.Tags := ["a" +:+ "=" +:+ "1"; "a" +:+ "=" +:+ "2";
                       "b" +:+ "=" +:+ "3"];
          cli.Status := []; cli.CreatedAfter := ""; cli.CreatedBefore := "" |}).1
  !! "a" = Some "2".
Proof.
  apply (proj1 (proj2 (proj2 (proj2 (proj2
           (@parsed_filters {| ParseDate := fun _ => Error "no date" |}
              {| cli.Regions := []; cli.ResourceTypes := [];
                 cli.Tags := ["a" +:+ "=" +:+ "1"; "a" +:+ "=" +:+ "2";
                              "b" +:+ "=" +:+ "3"];
                 cli.Status := []; cli.CreatedAfter := "";
                 cli.CreatedBefore := "" |}
              _ eq_refl))))) "a" "2").
  exists ["a" +:+ "=" +:+ "1"], ["b" +:+ "=" +:+ "3"]. split_and!.
  - reflexivity.
  - vm_compute. intros Hin.
    repeat (apply elem_of_cons in Hin as [Heq|Hin]; [discriminate Heq|]).
    by apply elem_of_nil in Hin.
  - intros value' Hin. apply list_elem_of_singleton in Hin. discriminate Hin.
Defined.

(** X26. From the command line to the collectors. With [--tag key=value]
    as the only option, the filters are built without error; the S3, RDS,
    IAM and VPC predicates keep exactly the resources that carry the tag
    with that value; the EC2 predicate keeps every resource, the tag going
    to the API as the filter "tag:<key>" instead. *)
Theorem tag_option_selects `{GoStrings} `{GoTime} (key value : string)
    (resource : models.Resource) :
  cli.equals_sign ∉ String.list_ascii_of_string key →
  ∃ filters,
    cli.parseInventoryFilters
      {| cli.Regions := []; cli.ResourceTypes := [];
         cli.Tags := [key +:+ "=" +:+ value]; cli.Status := [];
         cli.CreatedAfter := ""; cli.CreatedBefore := "" |} = (filters, None)
    ∧ (s3.matchesFilters resource filters = true
       ↔ models.GetTag resource key = (value, true))
    ∧ (rds.matchesFilters resource filters = true
       ↔ models.GetTag resource key = (value, true))
    ∧ (iam.matchesFilters resource filters = true
       ↔ models.GetTag resource key = (value, true))
    ∧ (vpc.matchesFilters resource filters = true
       ↔ models.GetTag resource key = (value, true))
    ∧ ec2.matchesFilters resource filters = true
    ∧ ec2.buildEC2Filters filters
      = [ {| ec2.FilterName := "tag:" +:+ key; ec2.Values := [value] |} ].
Proof.
  intros Hkey. unfold cli.parseInventoryFilters. simpl.
  unfold cli.SplitN_equals_2.
  rewrite (proj2 (cut_equals_Some _ key value) (conj eq_refl Hkey)).
  simpl. eexists. split; [reflexivity|].
  assert (Htag : (∀ k v, (<[key := value]> (∅ : gmap string string)) !! k = Some v →
                         models.GetTag resource k = (v, true))
                 ↔ models.GetTag resource key = (value, true)).
  { split.
    - intros Hall. apply Hall, lookup_insert_eq.
    - intros Hget k v Hkv. destruct (decide (k = key)) as [->|Hne].
      + rewrite lookup_insert_eq in Hkv. by injection Hkv as <-.
      + by rewrite lookup_insert_ne, lookup_empty in Hkv. }
  rewrite s3_matches_iff, rds_matches_iff, iam_matches_iff, vpc_matches_iff,
    ec2_matches_iff. simpl. rewrite Htag.
  split_and!;
    try (split;
         [intros Hall; destruct_and!; assumption
         |intros ?; split_and!; first [assumption|by left|by intros ? [=]]]).
  - by left.
  - by intros ? [=].
  - by intros ? [=].
  - unfold ec2.buildEC2Filters. simpl.
    by rewrite insert_empty, map_to_list_singleton.
Qed.

Lemma tag_option_selects_witness :
  ∃ filters,
    @cli.parseInventoryFilters {| ParseDate := fun _ => Error "no date" |}
      {| cli.Regions := []; cli.ResourceTypes := [];
         cli.Tags := ["Env" +:+ "=" +:+ "prod"]; cli.Status := [];
         cli.CreatedAfter := ""; cli.CreatedBefore := "" |} = (filters, None)
    ∧ @s3.matchesFilters AsciiStrings examples.bucket filters = true.
Proof.
  destruct (@tag_option_selects AsciiStrings
              {| ParseDate := fun _ => Error "no date" |}
              "Env" "prod" examples.bucket) as (filters & Hparse & Hs3 & _).
  - vm_compute. intros Hin.
    repeat (apply elem_of_cons in Hin as [Heq|Hin]; [discriminate Heq|]).
    by apply elem_of_nil in Hin.
  - exists filters. split; [exact Hparse|]. apply Hs3. vm_compute. reflexivity.
Defined.

Lemma truncateString_total (s : string) (maxLen : Z) :
  0 ≤ maxLen →
  ∃ t, cli.truncateString s maxLen = Some t
       ∧ cli.len t = Z.min (cli.len s) maxLen.
Proof.
  intros Hpos. unfold cli.truncateString, cli.len.
  destruct (Z.leb_spec (Z.of_nat (String.length s)) maxLen).
  - eexists. split; [done|]. lia.
  - destruct (Z.leb_spec maxLen 3); [destruct (Z.ltb_spec maxLen 0); [lia|]|];
      (eexists; split; [done|]).
    + rewrite length_substring. lia.
    + rewrite length_append, length_substring. simpl. lia.
Qed.

(** X27. The display helpers of the second copy of the table code.
    [prepareDisplayValue] with a width that is not negative never panics; it
    returns the value untouched when truncation is off, and otherwise a
    string of [min(len(value), maxWidth)] bytes. [formatTagsForDisplay]
    never panics either, but its limit of 40 bytes holds for a single tag
    only: with several tags and a joined string above 40 bytes it returns
    the first pair of the traversal followed by ", ...", five bytes more
    than that pair, however long the pair is. *)
Theorem display_helpers (value : string) (maxWidth : Z) (noTruncate : bool)
    (traversal : list (string * string)) :
  (0 ≤ maxWidth →
   ∃ out, cli.prepareDisplayValue value maxWidth noTruncate = Some out
          ∧ (noTruncate = true → out = value)
          ∧ (noTruncate = false → cli.len out = Z.min (cli.len value) maxWidth))
  ∧ cli.formatTagsForDisplay_of traversal true
    = Some (cli.Join (map (fun kv : string * string => kv.1 +:+ "=" +:+ kv.2)
                        traversal) ", ")
  ∧ ∃ out, cli.formatTagsForDisplay_of traversal false = Some out
           ∧ ((length traversal ≤ 1)%nat → cli.len out ≤ 40)
           ∧ (∀ first rest,
                traversal = first :: rest → rest ≠ [] →
                40 < cli.len (cli.Join
                                (map (fun kv : string * string =>
                                        kv.1 +:+ "=" +:+ kv.2) traversal) ", ") →
                out = (first.1 +:+ "=" +:+ first.2) +:+ ", ..."
                ∧ cli.len out = cli.len (first.1 +:+ "=" +:+ first.2) + 5).
Proof.
  split_and!.
  - intros Hpos. unfold cli.prepareDisplayValue.
    destruct noTruncate; simpl; [by eexists|].
    destruct (Z.leb_spec (cli.len value) maxWidth).
    + eexists. split; [done|]. split; [done|]. intros _. lia.
    + destruct (truncateString_total value maxWidth Hpos) as (t & Ht & Hlen).
      exists t. done.
  - unfold cli.formatTagsForDisplay_of. by destruct traversal.
  - unfold cli.formatTagsForDisplay_of.
    destruct traversal as [|first [|second rest]].
    + exists "". split; [done|]. split; [done|]. by intros ?? [=].
    + cbn -[cli.truncateString Z.ltb].
      destruct (Z.ltb_spec 40 (cli.len (first.1 +:+ "=" +:+ first.2))) as [Hlong|Hfits].
      * destruct (truncateString_total (first.1 +:+ "=" +:+ first.2) 40)
          as (t & Ht & Hlen); [lia|].
        exists t. split; [done|]. split; [lia|]. by intros ?? [= <- <-].
      * eexists. split; [done|]. split; [done|]. by intros ?? [= <- <-].
    + cbn -[cli.truncateString Z.ltb cli.Join].
      destruct (Z.ltb_spec 40
                  (cli.len (cli.Join
                              ((first.1 +:+ "=" +:+ first.2)
                               :: (second.1 +:+ "=" +:+ second.2)
                               :: map (fun kv : string * string =>
                                         kv.1 +:+ "=" +:+ kv.2) rest) ", ")))
        as [Hlong|Hfits].
      * eexists. split; [done|]. split; [simpl; lia|].
        intros ?? [= <- <-] _ _. split; [done|].
        unfold cli.len. rewrite length_append. simpl. lia.
      * eexists. split; [done|]. split; [simpl; lia|].
        intros ?? [= <- <-] _ Hlong. simpl in Hlong, Hfits. lia.
Qed.

Lemma display_helpers_witness :
  ∃ out, cli.prepareDisplayValue "production-database" 9 false = Some out
         ∧ cli.len out = 9.
Proof.
  destruct (proj1 (display_helpers "production-database" 9 false [])) as
    (out & Hout & _ & Hlen); [done|].
  exists out. split; [exact Hout|]. rewrite (Hlen eq_refl). reflexivity.
Defined.

(** X28. The double's query by kind. With no error set, asking the double
    for one kind under filters that name no kind is asking it for
    everything under the same filters with that kind as the only one: the
    double compares the kind with the resource's own, exactly, where the
    provider dispatches on aliases. An error set for one method leaves the
    other methods alone. *)
Theorem double_by_type (m : mocks.MockAWSProvider) (resourceType : string)
    (filters : types.ResourceFilters) (method err : string) :
  mocks.errors m !! "GetResources" = None →
  mocks.errors m !! "GetResourcesByType" = None →
  types.ResourceTypes filters = [] →
  mocks.GetResourcesByType m resourceType filters
  = mocks.GetResources m
      {| types.Regions := types.Regions filters;
         types.ResourceTypes := [resourceType];
         types.Tags := types.Tags filters;
         types.Status := types.Status filters;
         types.CreatedAfter := types.CreatedAfter filters;
         types.CreatedBefore := types.CreatedBefore filters |}
  ∧ (method ≠ "GetResources" →
     mocks.GetResources (mocks.SetError m method err) filters
     = mocks.GetResources m filters)
  ∧ mocks.GetResources (mocks.SetError m "GetResources" err) filters = Error err.
Proof.
  intros Hall Hkind Hnone. split_and!.
  - unfold mocks.GetResourcesByType, mocks.GetResources. rewrite Hall, Hkind.
    f_equal. induction (mocks.resources m) as [|resource resources IH]; [done|].
    simpl. rewrite IH.
    replace (mocks.matchesFilters resource
               {| types.Regions := types.Regions filters;
                  types.ResourceTypes := [resourceType];
                  types.Tags := types.Tags filters;
                  types.Status := types.Status filters;
                  types.CreatedAfter := types.CreatedAfter filters;
                  types.CreatedBefore := types.CreatedBefore filters |})
      with (String.eqb (models.Type_ resource) resourceType
            && mocks.matchesFilters resource filters); [done|].
    unfold mocks.matchesFilters. rewrite Hnone. simpl.
    destruct (String.eqb (models.Type_ resource) resourceType); simpl;
      by destruct ((0 <? length (types.Regions filters))%nat && _).
  - intros Hne. unfold mocks.GetResources, mocks.SetError. simpl.
    by rewrite lookup_insert_ne.
  - unfold mocks.GetResources, mocks.SetError. simpl.
    by rewrite lookup_insert_eq.
Qed.

Lemma double_by_type_witness :
  mocks.GetResourcesByType
    (mocks.AddResource (mocks.AddResource mocks.NewMockAWSProvider examples.bucket)
       examples.instance)
    models.ResourceTypeObjectStorage types.empty
  = Ok [examples.bucket].
Proof.
  rewrite (proj1 (double_by_type
                    (mocks.AddResource
                       (mocks.AddResource mocks.NewMockAWSProvider examples.bucket)
                       examples.instance)
                    models.ResourceTypeObjectStorage types.empty "" ""
                    eq_refl eq_refl eq_refl)).
  vm_compute. reflexivity.
Defined.
